(** * zlog: a shallow embedding of the logger core and its trace aggregator

    The development follows the Go sources: [logger.go] (the [Logger]
    methods, [PrefixStrCmp.Parse]), the text formatter with
    [tripHeadAndTail], [exported.go] and [tracer.go].  Go strings are byte
    strings ([string]); Go [int] is a 64-bit integer kept in [Z]; Go maps
    are [gmap]s together with an explicit iteration order where the code
    ranges over them; pointers to entries are locations of an explicit
    heap. *)

From Stdlib Require Import ZArith NArith Ascii String List Lia DecimalString.
From Stdlib Require DecimalPos DecimalZ.
From stdpp Require Import base option gmap strings list sorting.

Local Open Scope Z_scope.

(** ** Go runtime conventions *)

Module Go.

(** The value carried by a Go panic. *)
Inductive PanicValue :=
| RuntimeError (msg : string)
| PanicError (err : string).

(** A call either returns or unwinds with a panic. *)
Inductive Outcome (A : Type) :=
| Returned (a : A)
| Panicked (p : PanicValue).
Arguments Returned {A} a.
Arguments Panicked {A} p.

Definition bind {A B} (m : Outcome A) (k : A -> Outcome B) : Outcome B :=
  match m with
  | Returned a => k a
  | Panicked p => Panicked p
  end.

Definition returned {A} (m : Outcome A) : bool :=
  match m with Returned _ => true | Panicked _ => false end.

(** Go [int] on the supported 64-bit targets. *)
Definition wrap_int (z : Z) : Z := (z + 2 ^ 63) mod 2 ^ 64 - 2 ^ 63.

Definition len (s : string) : Z := Z.of_nat (String.length s).

(** [s[lo:hi]] on a string: the bounds check of the runtime is
    [0 <= lo <= hi <= len(s)], anything else panics. *)
Definition slice (s : string) (lo hi : Z) : Outcome string :=
  if (0 <=? lo) && (lo <=? hi) && (hi <=? len s)
  then Returned (substring (Z.to_nat lo) (Z.to_nat (hi - lo)) s)
  else Panicked (RuntimeError "slice bounds out of range").

(** [a / b] and [a % b] of Go truncate towards zero. *)
Definition div (a b : Z) : Z := Z.quot a b.
Definition rem (a b : Z) : Z := Z.rem a b.

End Go.

Notation "x <- m ;; k" := (Go.bind m (fun x => k))
  (at level 100, m at next level, right associativity, only parsing).

Import Go.

(** Go's [error] values are kept by their message. *)
Definition error := string.

(** ** Levels *)

(** Modelled from the spec: the declaration of [Level] and of its six
    constants is not part of the available sources ([logrus.go]); the
    specification gives the ordered enumeration Panic, Fatal, Error, Warn,
    Info, Debug, numerically increasing with verbosity, and the logger
    compares levels with [>=]. *)
Definition Level := N.

Definition PanicLevel : Level := 0%N.
Definition FatalLevel : Level := 1%N.
Definition ErrorLevel : Level := 2%N.
Definition WarnLevel : Level := 3%N.
Definition InfoLevel : Level := 4%N.
Definition DebugLevel : Level := 5%N.

(** [a >= b] on levels, as the gates of the logger write it. *)
Definition level_ge (a b : Level) : bool := (b <=? a)%N.

(** Modelled from the spec: [Level.String], absent from the sources; the
    six names are the ones [TestConvertLevelToString] expects. *)
Definition Level_String (l : Level) : string :=
  match l with
  | 0%N => "panic"
  | 1%N => "fatal"
  | 2%N => "error"
  | 3%N => "warning"
  | 4%N => "info"
  | 5%N => "debug"
  | _ => "unknown"
  end.

(** ** [PrefixStrCmp.Parse] (logger.go) *)

(** The argument is the pointee of [s *string]. *)
Definition PrefixStrCmp_Parse (s : string) : Outcome (Level * option error) :=
  let str := s in
  prefix <- slice str 0 7 ;;
  if String.eqb prefix "[INFO] " then Returned (InfoLevel, None)
  else if String.eqb prefix "[WARN] " then Returned (WarnLevel, None)
  else if String.eqb prefix "[ERROR]" then Returned (ErrorLevel, None)
  else if String.eqb prefix "[FATAL]" then Returned (FatalLevel, None)
  else if String.eqb prefix "[DEBUG]" then Returned (DebugLevel, None)
  else if String.eqb prefix "[PANIC]" then Returned (PanicLevel, None)
  else Returned (DebugLevel, None).

(** The six spellings the switch of [Parse] names. *)
Definition recognized_prefixes : list (string * Level) :=
  [ ("[INFO] ", InfoLevel); ("[WARN] ", WarnLevel); ("[ERROR]", ErrorLevel);
    ("[FATAL]", FatalLevel); ("[DEBUG]", DebugLevel); ("[PANIC]", PanicLevel) ]%string.

(** ** [tripHeadAndTail] (text formatter) *)

Definition tripHeadAndTail (src : string) (count : Z) : Outcome string :=
  let length := len src in
  if length <=? count then Returned src
  else
    let count := if negb (rem count 2 =? 0) then wrap_int (count + 1) else count in
    head <- slice src 0 (div count 2) ;;
    tail <- slice src (length - div count 2) (length - 1) ;;
    Returned (head +:+ "..." +:+ tail).

(** ** Dynamic values, fields and the library functions the package calls *)

(** An [interface{}] value.  Strings and errors are the two dynamic types
    the package itself builds; every other Go value (struct, map, channel,
    function, number ...) is opaque to the package and only handed to
    [fmt] and [encoding/json]. *)
Inductive Value :=
| VNil
| VString (s : string)
| VError (e : error)
| VOpaque (id : N).

(** [Fields] is [map[string]interface{}]. *)
Abbreviation Fields := (gmap string Value).

(** [time.Time], as an instant. *)
Definition Time := Z.

(** The functions of the Go standard library and the facts of the process
    the package reads.  They are kept abstract: every result below holds
    for any behaviour of these functions. *)
Class GoLib := {
  fmt_Sprint : list Value -> string;
  fmt_Sprintln : list Value -> string;
  fmt_Sprintf : string -> list Value -> string;
  (** [fmt.Sprintf("%+v", v)] and the [%s] verb applied to an interface value *)
  fmt_plus_v : Value -> string;
  fmt_verb_s : Value -> string;
  (** the width of [%-Ns] counts runes *)
  utf8_RuneCountInString : string -> nat;
  strings_ToUpper : string -> string;
  strings_Split : string -> string -> list string;
  sort_Strings : list string -> list string;
  (** [json.Marshal]: the byte slice ([nil] or not) and the error *)
  json_Marshal : Value -> option string * option error;
  (** [json.Indent src prefix indent]: the buffer written, or the error *)
  json_Indent : string -> string -> string -> string + error;
  time_Format : Time -> string -> string;
  (** the order in which a [range] visits the keys of a map of fields *)
  range_fields : Fields -> list string;
  (** [IsTerminal()] at package initialisation and [runtime.GOOS] *)
  isTerminal : bool;
  GOOS : string
}.

(** Declarations of package [zlog] whose source file is not available
    ([entry.go], [formatter.go]): two key constants, the default timestamp
    layout and the clash-prefixing of reserved keys that [Format] calls. *)
Class PackageDecls := {
  moduleKey : string;
  ErrorKey : string;
  DefaultTimestampFormat : string;
  prefixFieldClashes : Fields -> Fields
}.

(** *** Fragments of [fmt] that are applied to strings and integers *)

Definition ESC : string := String (ascii_of_nat 27) "".
Definition LF : string := String (ascii_of_nat 10) "".

Fixpoint repeat_string (n : nat) (s : string) : string :=
  match n with
  | O => ""
  | S n => s +:+ repeat_string n s
  end.

Definition concat_strings (l : list string) : string :=
  fold_right String.append "" l.

(** [%d] *)
Definition fmt_d (z : Z) : string := NilZero.string_of_int (Z.to_int z).

(** [%04d]: zero padding counts the sign. *)
Definition fmt_04d (z : Z) : string :=
  if z <? 0
  then "-" +:+ repeat_string (3 - String.length (fmt_d (- z))) "0" +:+ fmt_d (- z)
  else repeat_string (4 - String.length (fmt_d z)) "0" +:+ fmt_d z.

Section Rendering.
Context `{GoLib} `{PackageDecls}.

(** [%-Ns] on a string: padded on the right, never cut. *)
Definition pad_right (width : nat) (s : string) : string :=
  s +:+ repeat_string (width - utf8_RuneCountInString s) " ".

(** The colour constants of the text formatter. *)
Definition nocolor : Z := 0.
Definition red : Z := 31.
Definition green : Z := 32.
Definition yellow : Z := 33.
Definition blue : Z := 34.
Definition gray : Z := 37.

Record TextFormatter := {
  ForceColors : bool;
  DisableColors : bool;
  DisableTimestamp : bool;
  FullTimestamp : bool;
  TimestampFormat : string;
  DisableSorting : bool
}.

(** [new(TextFormatter)] *)
Definition new_TextFormatter : TextFormatter :=
  {| ForceColors := false; DisableColors := false; DisableTimestamp := false;
     FullTimestamp := false; TimestampFormat := ""; DisableSorting := false |}.

(** What [Format] reads of its argument through the [FormatterInput]
    interface. *)
Record FormatterInput := {
  GetData : Fields;
  GetBuffer : option string;
  GetJsonRaw : option string;
  GetTime : Time;
  GetLevel : Level;
  GetMessage : string
}.

(** [data[key]] of a Go map: the zero value when the key is absent. *)
Definition index_fields (data : Fields) (key : string) : Value :=
  default VNil (data !! key).

Definition prettyJSON (js : string) : string :=
  let prefix := "      " in
  match json_Indent js prefix "  " with
  | inr err => "JSON parse error: " +:+ err
  | inl buf => prefix +:+ buf
  end.

(** One round of the loop over [keys] in the plain branch of [Format]. *)
Definition format_field (data : Fields) (key : string) : Outcome string :=
  if String.eqb key moduleKey then Returned ""
  else
    let value := fmt_plus_v (index_fields data key) in
    shown <- tripHeadAndTail value 128 ;;
    Returned (LF +:+ "     - " +:+ pad_right 8 key +:+ " = " +:+ shown).

(** One round of the loop over [keys] in [printColored]. *)
Definition printColored_field (data : Fields) (k : string) : Outcome string :=
  let value := fmt_plus_v (index_fields data k) in
  shown <- tripHeadAndTail value 128 ;;
  Returned (LF +:+ "      " +:+ ESC +:+ "[" +:+ fmt_d gray +:+ "m- " +:+ pad_right 8 k
            +:+ " = " +:+ shown +:+ " " +:+ ESC +:+ "[0m").

(** Running a loop body over the keys, the pieces appended in order. *)
Fixpoint format_each (body : string -> Outcome string) (keys : list string)
  : Outcome string :=
  match keys with
  | [] => Returned ""
  | k :: keys =>
      piece <- body k ;;
      rest <- format_each body keys ;;
      Returned (piece +:+ rest)
  end.

Definition printColored (f : TextFormatter) (sinceStart : Z)
    (entry : FormatterInput) (data : Fields) (keys : list string)
    (timestampFormat : string) : Outcome string :=
  let levelColor :=
    if (GetLevel entry =? DebugLevel)%N then gray
    else if (GetLevel entry =? WarnLevel)%N then yellow
    else if ((GetLevel entry =? ErrorLevel) || (GetLevel entry =? FatalLevel)
             || (GetLevel entry =? PanicLevel))%N then red
    else blue in
  let levelText := strings_ToUpper (Level_String (GetLevel entry)) in
  let head :=
    if negb (FullTimestamp f)
    then ESC +:+ "[" +:+ fmt_d levelColor +:+ "m " +:+ levelText
         +:+ pad_right 44 (GetMessage entry) +:+ "  ("
         +:+ fmt_verb_s (index_fields data moduleKey) +:+ ")["
         +:+ fmt_04d sinceStart +:+ "]" +:+ ESC +:+ "[0m"
    else ESC +:+ "[" +:+ fmt_d levelColor +:+ "m " +:+ levelText +:+ " "
         +:+ pad_right 44 (GetMessage entry) +:+ "  ("
         +:+ fmt_verb_s (index_fields data moduleKey) +:+ ")["
         +:+ time_Format (GetTime entry) timestampFormat +:+ "]" +:+ ESC +:+ "[0m" in
  lines <- format_each (printColored_field data) keys ;;
  let json :=
    match GetJsonRaw entry with
    | Some jsonRaw => ESC +:+ "[" +:+ fmt_d gray +:+ "m " +:+ LF
                      +:+ prettyJSON jsonRaw +:+ " " +:+ ESC +:+ "[0m"
    | None => ""
    end in
  Returned (head +:+ lines +:+ json).

(** [TextFormatter.Format].  [sinceStart] is what [miniTS()] returns at
    the call.  [keys] are collected before [prefixFieldClashes] rewrites
    the map, and the values are read after it. *)
Definition Format (f : TextFormatter) (sinceStart : Z)
    (entry : FormatterInput) (callDepth : Z)
  : Outcome (string * option error) :=
  let keys := range_fields (GetData entry) in
  let keys := if negb (DisableSorting f) then sort_Strings keys else keys in
  let b := match GetBuffer entry with Some b => b | None => "" end in
  let data := prefixFieldClashes (GetData entry) in
  let isColorTerminal := isTerminal && negb (String.eqb GOOS "windows") in
  let isColored := (ForceColors f || isColorTerminal) && negb (DisableColors f) in
  let timestampFormat := TimestampFormat f in
  let timestampFormat :=
    if String.eqb timestampFormat "" then DefaultTimestampFormat
    else timestampFormat in
  body <-
    (if isColored then printColored f sinceStart entry data keys timestampFormat
     else
       let head := Level_String (GetLevel entry) +:+ pad_right 44 (GetMessage entry)
                   +:+ "  (" +:+ fmt_verb_s (index_fields data moduleKey) +:+ ")["
                   +:+ time_Format (GetTime entry) timestampFormat +:+ "]" in
       lines <- format_each (format_field data) keys ;;
       let json :=
         match GetJsonRaw entry with
         | Some jsonRaw => LF +:+ prettyJSON jsonRaw
         | None => ""
         end in
       Returned (head +:+ lines +:+ json)) ;;
  Returned (b +:+ body +:+ LF, None).

End Rendering.

(** ** The process state: loggers, entries, the trace registry, the output *)

(** Addresses of [*Logger] and [*Entry] objects. *)
Abbreviation loc := positive.

(** An [io.Writer]; [Stderr] is [os.Stderr]. *)
Inductive Writer :=
| Stderr
| OtherWriter (id : N).

(** [sync.Mutex] has no state to record in a sequential run. *)
Record MutexWrap := { disabled : bool }.

(** [Logger] (logger.go).  The only [Formatter] of the package is the text
    formatter. *)
Record Logger := {
  logger_Out : Writer;
  logger_Formatter : TextFormatter;
  logger_Level : Level;
  logger_mu : MutexWrap;
  logger_entryPool : list loc;
  logger_moduleName : string
}.

(** Modelled from the spec: the declaration of [Entry] is not part of the
    available sources ([entry.go]); the specification lists the owning
    logger, the module path, the fields, message, time, level, the optional
    raw JSON payload and the optional render buffer. *)
Record Entry := {
  entry_Logger : loc;
  entry_Module : string;
  entry_Data : Fields;
  entry_Time : Time;
  entry_Level : Level;
  entry_Message : string;
  entry_JsonRaw : option string;
  entry_Buffer : option string
}.

(** [TraceBlock] and [TraceChain] (tracer.go); [blocks] is a
    [container/list] used with [PushBack] and a walk from [Front]. *)
Record TraceBlock := {
  block_Fields : Fields;
  block_Obj : Value;
  block_args : list Value;
  block_color : Z
}.

Record TraceChain := {
  chain_blocks : list TraceBlock;
  chain_color : Z
}.

Record State := {
  lheap : gmap loc Logger;
  eheap : gmap loc Entry;
  std : option loc;
  loggers : list loc;
  chains : gmap Z TraceChain;
  colors : gmap Z bool;
  written : list (Writer * string)
}.

Definition set_lheap (h : gmap loc Logger) (st : State) : State :=
  {| lheap := h; eheap := eheap st; std := std st; loggers := loggers st;
     chains := chains st; colors := colors st; written := written st |}.

Definition set_eheap (h : gmap loc Entry) (st : State) : State :=
  {| lheap := lheap st; eheap := h; std := std st; loggers := loggers st;
     chains := chains st; colors := colors st; written := written st |}.

Definition set_std (s : option loc) (st : State) : State :=
  {| lheap := lheap st; eheap := eheap st; std := s; loggers := loggers st;
     chains := chains st; colors := colors st; written := written st |}.

Definition set_loggers (l : list loc) (st : State) : State :=
  {| lheap := lheap st; eheap := eheap st; std := std st; loggers := l;
     chains := chains st; colors := colors st; written := written st |}.

Definition set_chains (c : gmap Z TraceChain) (st : State) : State :=
  {| lheap := lheap st; eheap := eheap st; std := std st; loggers := loggers st;
     chains := c; colors := colors st; written := written st |}.

Definition set_colors (c : gmap Z bool) (st : State) : State :=
  {| lheap := lheap st; eheap := eheap st; std := std st; loggers := loggers st;
     chains := chains st; colors := c; written := written st |}.

Definition set_written (w : list (Writer * string)) (st : State) : State :=
  {| lheap := lheap st; eheap := eheap st; std := std st; loggers := loggers st;
     chains := chains st; colors := colors st; written := w |}.

(** A call on the state returns a value or unwinds; the state reached is
    kept in both cases. *)
Inductive Res (A : Type) :=
| Ok (a : A) (st : State)
| Unwind (p : PanicValue) (st : State).
Arguments Ok {A} a st.
Arguments Unwind {A} p st.

Definition M (A : Type) : Type := State -> Res A.

Definition ret {A} (a : A) : M A := fun st => Ok a st.

Definition sbind {A B} (m : M A) (k : A -> M B) : M B :=
  fun st =>
    match m st with
    | Ok a st' => k a st'
    | Unwind p st' => Unwind p st'
    end.

Definition panic {A} (p : PanicValue) : M A := fun st => Unwind p st.

Definition lift {A} (o : Outcome A) : M A :=
  match o with
  | Returned a => ret a
  | Panicked p => panic p
  end.

Definition get_state : M State := fun st => Ok st st.
Definition modify (f : State -> State) : M unit := fun st => Ok tt (f st).

Definition state_of {A} (r : Res A) : State :=
  match r with Ok _ st => st | Unwind _ st => st end.

Definition value_of {A} (r : Res A) : option A :=
  match r with Ok a _ => Some a | Unwind _ _ => None end.

Notation "x <~ m ;; k" := (sbind m (fun x => k))
  (at level 100, m at next level, right associativity, only parsing).
Notation "m ;;; k" := (sbind m (fun _ => k))
  (at level 100, right associativity, only parsing).

(** The state after package initialisation: [init] of tracer.go fills the
    colour table, everything else is empty. *)
Definition initial_state : State :=
  {| lheap := ∅; eheap := ∅; std := None; loggers := [];
     chains := ∅;
     colors := <[blue := false]> (<[yellow := false]> (<[green := false]> (<[red := false]> ∅)));
     written := [] |}.

(** What one call draws from its environment: the entry [sync.Pool.Get]
    hands out ([None]: the pool reports nothing, [Some i]: its [i]-th
    element), [time.Now()] and [miniTS()]. *)
Record CallEnv := {
  env_pick : option nat;
  env_now : Time;
  env_sinceStart : Z
}.

(** ** The logger (logger.go) and the entries it hands out *)

Definition strings_Join (elems : list string) (sep : string) : string :=
  match elems with
  | [] => ""
  | e :: rest => fold_left (fun acc x => acc +:+ sep +:+ x) rest e
  end.

Definition lookup_logger (st : State) (l : loc) : Logger :=
  default {| logger_Out := Stderr; logger_Formatter := new_TextFormatter;
             logger_Level := PanicLevel; logger_mu := {| disabled := false |};
             logger_entryPool := []; logger_moduleName := "" |}
          (lheap st !! l).

Definition update_logger (l : loc) (f : Logger -> Logger) : M unit :=
  modify (fun st => set_lheap (<[l := f (lookup_logger st l)]> (lheap st)) st).

Definition with_Out (out : Writer) (lg : Logger) : Logger :=
  {| logger_Out := out; logger_Formatter := logger_Formatter lg;
     logger_Level := logger_Level lg; logger_mu := logger_mu lg;
     logger_entryPool := logger_entryPool lg;
     logger_moduleName := logger_moduleName lg |}.

Definition with_Level (level : Level) (lg : Logger) : Logger :=
  {| logger_Out := logger_Out lg; logger_Formatter := logger_Formatter lg;
     logger_Level := level; logger_mu := logger_mu lg;
     logger_entryPool := logger_entryPool lg;
     logger_moduleName := logger_moduleName lg |}.

Definition with_entryPool (pool : list loc) (lg : Logger) : Logger :=
  {| logger_Out := logger_Out lg; logger_Formatter := logger_Formatter lg;
     logger_Level := logger_Level lg; logger_mu := logger_mu lg;
     logger_entryPool := pool;
     logger_moduleName := logger_moduleName lg |}.

Definition with_mu (mu : MutexWrap) (lg : Logger) : Logger :=
  {| logger_Out := logger_Out lg; logger_Formatter := logger_Formatter lg;
     logger_Level := logger_Level lg; logger_mu := mu;
     logger_entryPool := logger_entryPool lg;
     logger_moduleName := logger_moduleName lg |}.

(** [New]: the logger is allocated, appended to the package list
    [loggers] and returned. *)
Definition New (moduleNames : list string) : M loc :=
  fun st =>
    let moduleNames :=
      if Z.of_nat (length moduleNames) <=? 0 then ["main"%string] else moduleNames in
    let logger :=
      {| logger_Out := Stderr;
         logger_Formatter := new_TextFormatter;
         logger_Level := DebugLevel;
         logger_mu := {| disabled := false |};
         logger_entryPool := [];
         logger_moduleName := strings_Join moduleNames "/" |} in
    let l := fresh (dom (lheap st)) in
    Ok l (set_loggers (loggers st ++ [l]) (set_lheap (<[l := logger]> (lheap st)) st)).

Definition Logger_Name (logger : loc) : M string :=
  fun st => Ok (logger_moduleName (lookup_logger st logger)) st.

(** [SetOutput] takes the lock around the assignment. *)
Definition Logger_SetOutput (logger : loc) (out : Writer) : M unit :=
  update_logger logger (with_Out out).

Definition Logger_SetLevel (logger : loc) (level : Level) : M unit :=
  update_logger logger (with_Level level).

Definition Logger_SetNoLock (logger : loc) : M unit :=
  update_logger logger (with_mu {| disabled := true |}).

(** [StandardLogger] (exported.go) *)
Definition StandardLogger : M loc :=
  fun st =>
    match std st with
    | None =>
        (l <~ New [] ;;
         modify (fun st => set_loggers (loggers st ++ [l]) (set_std (Some l) st)) ;;;
         ret l) st
    | Some l => Ok l st
    end.

(** [sync.Pool]: [Get] hands out one of the stored objects or nothing,
    [Put] stores one. *)
Definition Pool_Get (pick : option nat) (pool : list loc) : option loc * list loc :=
  match pick with
  | Some i =>
      match pool !! i with
      | Some x => (Some x, delete i pool)
      | None => (None, pool)
      end
  | None => (None, pool)
  end.

Definition Pool_Put (x : loc) (pool : list loc) : list loc := x :: pool.

Definition lookup_entry (st : State) (e : loc) : Entry :=
  default {| entry_Logger := 1%positive; entry_Module := ""; entry_Data := ∅;
             entry_Time := 0; entry_Level := PanicLevel; entry_Message := "";
             entry_JsonRaw := None; entry_Buffer := None |}
          (eheap st !! e).

Definition alloc_entry (e : Entry) : M loc :=
  fun st =>
    let l := fresh (dom (eheap st)) in
    Ok l (set_eheap (<[l := e]> (eheap st)) st).

Section Core.
Context `{GoLib} `{PackageDecls}.

(** Modelled from the spec: [NewEntry] ([entry.go]) is not part of the
    available sources.  A freshly constructed entry belongs to the logger,
    carries its module path and has no field, no message, no JSON payload
    and no buffer yet. *)
Definition fresh_Entry (logger : loc) (moduleName : string) : Entry :=
  {| entry_Logger := logger; entry_Module := moduleName; entry_Data := ∅;
     entry_Time := 0; entry_Level := PanicLevel; entry_Message := "";
     entry_JsonRaw := None; entry_Buffer := None |}.

Definition NewEntry (logger : loc) (moduleName : string) : M loc :=
  alloc_entry (fresh_Entry logger moduleName).

(** [newEntry]: what the pool hands out, else a new entry. *)
Definition Logger_newEntry (env : CallEnv) (logger : loc) : M loc :=
  st <~ get_state ;;
  let lg := lookup_logger st logger in
  match Pool_Get (env_pick env) (logger_entryPool lg) with
  | (Some entry, pool) =>
      update_logger logger (with_entryPool pool) ;;;
      ret entry
  | (None, pool) =>
      update_logger logger (with_entryPool pool) ;;;
      NewEntry logger (logger_moduleName lg)
  end.

Definition Logger_releaseEntry (logger : loc) (entry : loc) : M unit :=
  update_logger logger
    (fun lg => with_entryPool (Pool_Put entry (logger_entryPool lg)) lg).

(** Modelled from the spec: the [With*] methods of [Entry] ([entry.go])
    are not part of the available sources.  Each returns a new logical view:
    the field map is copied on branch and the given data merged into the
    copy, later keys overwriting earlier ones; the receiver is left as it
    was. *)
Definition Entry_WithFields (entry : loc) (fields : Fields) : M loc :=
  st <~ get_state ;;
  let e := lookup_entry st entry in
  alloc_entry
    {| entry_Logger := entry_Logger e; entry_Module := entry_Module e;
       entry_Data := fields ∪ entry_Data e;
       entry_Time := 0; entry_Level := PanicLevel; entry_Message := "";
       entry_JsonRaw := entry_JsonRaw e; entry_Buffer := None |}.

Definition Entry_WithField (entry : loc) (key : string) (value : Value) : M loc :=
  Entry_WithFields entry {[ key := value ]}.

(** Modelled from the spec: a serialization failure becomes an
    error-valued field, stored under [ErrorKey] as the package-level
    [WithError] of exported.go does. *)
Definition Entry_WithError (entry : loc) (err : error) : M loc :=
  Entry_WithField entry ErrorKey (VError err).

(** Modelled from the spec: the view that carries the raw JSON payload. *)
Definition Entry_WithJsonRaw (entry : loc) (bs : option string) : M loc :=
  st <~ get_state ;;
  let e := lookup_entry st entry in
  alloc_entry
    {| entry_Logger := entry_Logger e; entry_Module := entry_Module e;
       entry_Data := entry_Data e;
       entry_Time := 0; entry_Level := PanicLevel; entry_Message := "";
       entry_JsonRaw := bs; entry_Buffer := None |}.

(** Modelled from the spec: what the formatter reads of an entry.  The
    text formatter looks the module path up under [moduleKey] in the data
    of its input. *)
Definition Entry_input (e : Entry) : FormatterInput :=
  {| GetData := <[moduleKey := VString (entry_Module e)]> (entry_Data e);
     GetBuffer := entry_Buffer e;
     GetJsonRaw := entry_JsonRaw e;
     GetTime := entry_Time e;
     GetLevel := entry_Level e;
     GetMessage := entry_Message e |}.

Definition finalized (e : Entry) (now : Time) (level : Level) (msg : string) : Entry :=
  {| entry_Logger := entry_Logger e; entry_Module := entry_Module e;
     entry_Data := entry_Data e;
     entry_Time := now; entry_Level := level; entry_Message := msg;
     entry_JsonRaw := entry_JsonRaw e; entry_Buffer := entry_Buffer e |}.

(** The reset after a record is consumed: fields, buffer and JSON payload
    are cleared. *)
Definition reset_Entry (e : Entry) : Entry :=
  {| entry_Logger := entry_Logger e; entry_Module := entry_Module e;
     entry_Data := ∅;
     entry_Time := entry_Time e; entry_Level := entry_Level e;
     entry_Message := entry_Message e;
     entry_JsonRaw := None; entry_Buffer := None |}.

(** One physical write of a rendered record. *)
Definition Write (out : Writer) (bytes : string) : M unit :=
  modify (fun st => set_written (written st ++ [(out, bytes)]) st).

(** Modelled from the spec: [Entry.log] ([entry.go]) is not part of the
    available sources.  It sets time, level and message, has the formatter
    of the logger render the record, writes the bytes to the output of the
    logger (under its lock) and resets the entry; handing the entry back to
    the pool is the [releaseEntry] of the calling [Logger] method.
    [callDepth] only reaches the formatter. *)
Definition Entry_log (env : CallEnv) (entry : loc) (callDepth : Z)
    (level : Level) (msg : string) : M unit :=
  st <~ get_state ;;
  let e := finalized (lookup_entry st entry) (env_now env) level msg in
  let lg := lookup_logger st (entry_Logger e) in
  modify (fun st => set_eheap (<[entry := e]> (eheap st)) st) ;;;
  rendered <~ lift (Format (logger_Formatter lg) (env_sinceStart env)
                           (Entry_input e) callDepth) ;;
  Write (logger_Out lg) (fst rendered) ;;;
  modify (fun st => set_eheap (<[entry := reset_Entry e]> (eheap st)) st).

End Core.

Section LoggerMethods.
Context `{GoLib} `{PackageDecls}.

(** *** [With*] methods of [Logger].  The deferred [releaseEntry] runs once
    the result has been computed. *)

Definition Logger_WithJsonRaw (env : CallEnv) (logger : loc) (bs : option string) : M loc :=
  entry <~ Logger_newEntry env logger ;;
  result <~ Entry_WithJsonRaw entry bs ;;
  Logger_releaseEntry logger entry ;;;
  ret result.

Definition Logger_WithField (env : CallEnv) (logger : loc) (key : string) (value : Value) : M loc :=
  entry <~ Logger_newEntry env logger ;;
  result <~ Entry_WithField entry key value ;;
  Logger_releaseEntry logger entry ;;;
  ret result.

Definition Logger_WithFields (env : CallEnv) (logger : loc) (fields : Fields) : M loc :=
  entry <~ Logger_newEntry env logger ;;
  result <~ Entry_WithFields entry fields ;;
  Logger_releaseEntry logger entry ;;;
  ret result.

Definition Logger_WithError (env : CallEnv) (logger : loc) (err : error) : M loc :=
  entry <~ Logger_newEntry env logger ;;
  result <~ Entry_WithError entry err ;;
  Logger_releaseEntry logger entry ;;;
  ret result.

Definition Logger_WithStruct (env : CallEnv) (logger : loc) (value : Value) : M loc :=
  let '(bs, err) := json_Marshal value in
  match err with
  | Some err => Logger_WithError env logger err
  | None => Logger_WithJsonRaw env logger bs
  end.

(** The loop of [WithMultiLines] and [WithLongString]: every non-empty
    line is stored under [key-index]. *)
Fixpoint lines_to_fields (key : string) (index : Z) (lns : list string) (fields : Fields)
  : Fields :=
  match lns with
  | [] => fields
  | ln :: lns =>
      if len ln <=? 0 then lines_to_fields key (index + 1) lns fields
      else lines_to_fields key (index + 1) lns
             (<[key +:+ "-" +:+ fmt_d index := VString ln]> fields)
  end.

Definition Logger_WithMultiLines (env : CallEnv) (logger : loc) (key longStr : string) : M loc :=
  entry <~ Logger_newEntry env logger ;;
  let fields : Fields := ∅ in
  let lns := strings_Split longStr LF in
  let fields := lines_to_fields key 0 lns fields in
  result <~ Entry_WithFields entry fields ;;
  Logger_releaseEntry logger entry ;;;
  ret result.

Definition Logger_WithLongString (env : CallEnv) (logger : loc) (key longStr sep : string) : M loc :=
  entry <~ Logger_newEntry env logger ;;
  let fields : Fields := ∅ in
  let lns := strings_Split longStr sep in
  let fields := lines_to_fields key 0 lns fields in
  result <~ Entry_WithFields entry fields ;;
  Logger_releaseEntry logger entry ;;;
  ret result.

(** *** Severity methods of [Logger] *)

Definition Logger_Debugf (env : CallEnv) (logger : loc) (format : string) (args : list Value) : M unit :=
  st <~ get_state ;;
  if level_ge (logger_Level (lookup_logger st logger)) DebugLevel then
    entry <~ Logger_newEntry env logger ;;
    Entry_log env entry 0 DebugLevel (fmt_Sprintf format args) ;;;
    Logger_releaseEntry logger entry
  else ret tt.

Definition Logger_Infof (env : CallEnv) (logger : loc) (format : string) (args : list Value) : M unit :=
  st <~ get_state ;;
  if level_ge (logger_Level (lookup_logger st logger)) InfoLevel then
    entry <~ Logger_newEntry env logger ;;
    Entry_log env entry 0 InfoLevel (fmt_Sprintf format args) ;;;
    Logger_releaseEntry logger entry
  else ret tt.

Definition Logger_Printf (env : CallEnv) (logger : loc) (format : string) (args : list Value) : M unit :=
  st <~ get_state ;;
  entry <~ Logger_newEntry env logger ;;
  Entry_log env entry 0 (logger_Level (lookup_logger st logger)) (fmt_Sprintf format args) ;;;
  Logger_releaseEntry logger entry.

Definition loggerDefaultCallDepth : Z := 6.

Definition Logger_highlight (env : CallEnv) (logger : loc) (callDepth : Z) (args : list Value) : M unit :=
  entry <~ Logger_newEntry env logger ;;
  Entry_log env entry callDepth ErrorLevel (fmt_Sprint args) ;;;
  Logger_releaseEntry logger entry.

Definition Logger_Highlightf (env : CallEnv) (logger : loc) (format : string) (args : list Value) : M unit :=
  Logger_highlight env logger loggerDefaultCallDepth [VString (fmt_Sprintf format args)].

Definition Logger_Highlight (env : CallEnv) (logger : loc) (args : list Value) : M unit :=
  Logger_highlight env logger loggerDefaultCallDepth args.

Definition Logger_Warnf (env : CallEnv) (logger : loc) (format : string) (args : list Value) : M unit :=
  st <~ get_state ;;
  if level_ge (logger_Level (lookup_logger st logger)) WarnLevel then
    entry <~ Logger_newEntry env logger ;;
    Entry_log env entry 0 WarnLevel (fmt_Sprintf format args) ;;;
    Logger_releaseEntry logger entry
  else ret tt.

Definition Logger_Warningf (env : CallEnv) (logger : loc) (format : string) (args : list Value) : M unit :=
  st <~ get_state ;;
  if level_ge (logger_Level (lookup_logger st logger)) WarnLevel then
    entry <~ Logger_newEntry env logger ;;
    Entry_log env entry 0 WarnLevel (fmt_Sprintf format args) ;;;
    Logger_releaseEntry logger entry
  else ret tt.

Definition Logger_Errorf (env : CallEnv) (logger : loc) (format : string) (args : list Value) : M unit :=
  st <~ get_state ;;
  if level_ge (logger_Level (lookup_logger st logger)) ErrorLevel then
    entry <~ Logger_newEntry env logger ;;
    Entry_log env entry 0 ErrorLevel (fmt_Sprintf format args) ;;;
    Logger_releaseEntry logger entry
  else ret tt.

Definition Logger_Fatalf (env : CallEnv) (logger : loc) (format : string) (args : list Value) : M unit :=
  st <~ get_state ;;
  if level_ge (logger_Level (lookup_logger st logger)) FatalLevel then
    entry <~ Logger_newEntry env logger ;;
    Entry_log env entry 0 FatalLevel (fmt_Sprintf format args) ;;;
    Logger_releaseEntry logger entry
  else ret tt.

Definition Logger_Panicf (env : CallEnv) (logger : loc) (format : string) (args : list Value) : M unit :=
  st <~ get_state ;;
  if level_ge (logger_Level (lookup_logger st logger)) PanicLevel then
    entry <~ Logger_newEntry env logger ;;
    Entry_log env entry 0 PanicLevel (fmt_Sprintf format args) ;;;
    Logger_releaseEntry logger entry
  else ret tt.

Definition Logger_Debug (env : CallEnv) (logger : loc) (args : list Value) : M unit :=
  st <~ get_state ;;
  if level_ge (logger_Level (lookup_logger st logger)) DebugLevel then
    entry <~ Logger_newEntry env logger ;;
    Entry_log env entry 0 DebugLevel (fmt_Sprint args) ;;;
    Logger_releaseEntry logger entry
  else ret tt.

Definition Logger_Passf (env : CallEnv) (logger : loc) (format : string) (args : list Value) : M unit :=
  entry <~ Logger_newEntry env logger ;;
  Entry_log env entry 0 InfoLevel (fmt_Sprintf ("[PASS]" +:+ format) args) ;;;
  Logger_releaseEntry logger entry.

Definition Logger_Pass (env : CallEnv) (logger : loc) (args : list Value) : M unit :=
  entry <~ Logger_newEntry env logger ;;
  let args := [VString "[PASS]"] ++ args in
  Entry_log env entry 0 InfoLevel (fmt_Sprint args) ;;;
  Logger_releaseEntry logger entry.

Definition Logger_Failedf (env : CallEnv) (logger : loc) (format : string) (args : list Value) : M unit :=
  entry <~ Logger_newEntry env logger ;;
  Entry_log env entry 0 ErrorLevel (fmt_Sprintf ("[FAIL]" +:+ format) args) ;;;
  Logger_releaseEntry logger entry.

Definition Logger_Failed (env : CallEnv) (logger : loc) (args : list Value) : M unit :=
  entry <~ Logger_newEntry env logger ;;
  let args := [VString "[FAIL]"] ++ args in
  Entry_log env entry 0 ErrorLevel (fmt_Sprint args) ;;;
  Logger_releaseEntry logger entry.

Definition Logger_Successf (env : CallEnv) (logger : loc) (format : string) (args : list Value) : M unit :=
  entry <~ Logger_newEntry env logger ;;
  Entry_log env entry 0 InfoLevel (fmt_Sprintf ("[OK]" +:+ format) args) ;;;
  Logger_releaseEntry logger entry.

Definition Logger_Success (env : CallEnv) (logger : loc) (args : list Value) : M unit :=
  entry <~ Logger_newEntry env logger ;;
  let args := [VString "[OK]"] ++ args in
  Entry_log env entry 0 InfoLevel (fmt_Sprint args) ;;;
  Logger_releaseEntry logger entry.

Definition Logger_Info (env : CallEnv) (logger : loc) (args : list Value) : M unit :=
  st <~ get_state ;;
  if level_ge (logger_Level (lookup_logger st logger)) InfoLevel then
    entry <~ Logger_newEntry env logger ;;
    Entry_log env entry 0 InfoLevel (fmt_Sprint args) ;;;
    Logger_releaseEntry logger entry
  else ret tt.

Definition Logger_Print (env : CallEnv) (logger : loc) (args : list Value) : M unit :=
  st <~ get_state ;;
  entry <~ Logger_newEntry env logger ;;
  Entry_log env entry 0 (logger_Level (lookup_logger st logger)) (fmt_Sprint args) ;;;
  Logger_releaseEntry logger entry.

Definition Logger_Warn (env : CallEnv) (logger : loc) (args : list Value) : M unit :=
  st <~ get_state ;;
  if level_ge (logger_Level (lookup_logger st logger)) WarnLevel then
    entry <~ Logger_newEntry env logger ;;
    Entry_log env entry 0 WarnLevel (fmt_Sprint args) ;;;
    Logger_releaseEntry logger entry
  else ret tt.

Definition Logger_Error (env : CallEnv) (logger : loc) (args : list Value) : M unit :=
  st <~ get_state ;;
  if level_ge (logger_Level (lookup_logger st logger)) ErrorLevel then
    entry <~ Logger_newEntry env logger ;;
    Entry_log env entry 0 ErrorLevel (fmt_Sprint args) ;;;
    Logger_releaseEntry logger entry
  else ret tt.

Definition Logger_Fatal (env : CallEnv) (logger : loc) (args : list Value) : M unit :=
  st <~ get_state ;;
  if level_ge (logger_Level (lookup_logger st logger)) FatalLevel then
    entry <~ Logger_newEntry env logger ;;
    Entry_log env entry 0 FatalLevel (fmt_Sprint args) ;;;
    Logger_releaseEntry logger entry
  else ret tt.

Definition Logger_Panic (env : CallEnv) (logger : loc) (args : list Value) : M unit :=
  st <~ get_state ;;
  if level_ge (logger_Level (lookup_logger st logger)) PanicLevel then
    entry <~ Logger_newEntry env logger ;;
    Entry_log env entry 0 PanicLevel (fmt_Sprint args) ;;;
    Logger_releaseEntry logger entry
  else ret tt.

Definition Logger_Debugln (env : CallEnv) (logger : loc) (args : list Value) : M unit :=
  st <~ get_state ;;
  if level_ge (logger_Level (lookup_logger st logger)) DebugLevel then
    entry <~ Logger_newEntry env logger ;;
    Entry_log env entry 0 DebugLevel (fmt_Sprintln args) ;;;
    Logger_releaseEntry logger entry
  else ret tt.

Definition Logger_Infoln (env : CallEnv) (logger : loc) (args : list Value) : M unit :=
  st <~ get_state ;;
  if level_ge (logger_Level (lookup_logger st logger)) InfoLevel then
    entry <~ Logger_newEntry env logger ;;
    Entry_log env entry 0 InfoLevel (fmt_Sprintln args) ;;;
    Logger_releaseEntry logger entry
  else ret tt.

Definition Logger_Println (env : CallEnv) (logger : loc) (args : list Value) : M unit :=
  st <~ get_state ;;
  entry <~ Logger_newEntry env logger ;;
  Entry_log env entry 0 (logger_Level (lookup_logger st logger)) (fmt_Sprintln args) ;;;
  Logger_releaseEntry logger entry.

Definition Logger_Warnln (env : CallEnv) (logger : loc) (args : list Value) : M unit :=
  st <~ get_state ;;
  if level_ge (logger_Level (lookup_logger st logger)) WarnLevel then
    entry <~ Logger_newEntry env logger ;;
    Entry_log env entry 0 WarnLevel (fmt_Sprintln args) ;;;
    Logger_releaseEntry logger entry
  else ret tt.

Definition Logger_Warningln (env : CallEnv) (logger : loc) (args : list Value) : M unit :=
  st <~ get_state ;;
  if level_ge (logger_Level (lookup_logger st logger)) WarnLevel then
    entry <~ Logger_newEntry env logger ;;
    Entry_log env entry 0 WarnLevel (fmt_Sprintln args) ;;;
    Logger_releaseEntry logger entry
  else ret tt.

Definition Logger_Errorln (env : CallEnv) (logger : loc) (args : list Value) : M unit :=
  st <~ get_state ;;
  if level_ge (logger_Level (lookup_logger st logger)) ErrorLevel then
    entry <~ Logger_newEntry env logger ;;
    Entry_log env entry 0 ErrorLevel (fmt_Sprintln args) ;;;
    Logger_releaseEntry logger entry
  else ret tt.

Definition Logger_Fatalln (env : CallEnv) (logger : loc) (args : list Value) : M unit :=
  st <~ get_state ;;
  if level_ge (logger_Level (lookup_logger st logger)) FatalLevel then
    entry <~ Logger_newEntry env logger ;;
    Entry_log env entry 0 FatalLevel (fmt_Sprintln args) ;;;
    Logger_releaseEntry logger entry
  else ret tt.

Definition Logger_Panicln (env : CallEnv) (logger : loc) (args : list Value) : M unit :=
  st <~ get_state ;;
  if level_ge (logger_Level (lookup_logger st logger)) PanicLevel then
    entry <~ Logger_newEntry env logger ;;
    Entry_log env entry 0 PanicLevel (fmt_Sprintln args) ;;;
    Logger_releaseEntry logger entry
  else ret tt.

End LoggerMethods.

(** ** Package-level wrappers (exported.go) *)

Section Exported.
Context `{GoLib} `{PackageDecls}.

Definition WithField (env : CallEnv) (key : string) (value : Value) : M loc :=
  logger <~ StandardLogger ;;
  Logger_WithField env logger key value.

Definition WithError (env : CallEnv) (err : error) : M loc :=
  logger <~ StandardLogger ;;
  Logger_WithField env logger ErrorKey (VError err).

Definition WithFields (env : CallEnv) (fields : Fields) : M loc :=
  logger <~ StandardLogger ;;
  Logger_WithFields env logger fields.

Definition WithJsonRaw (env : CallEnv) (bs : option string) : M loc :=
  logger <~ StandardLogger ;;
  Logger_WithJsonRaw env logger bs.

Definition WithStruct (env : CallEnv) (value : Value) : M loc :=
  let '(bs, err) := json_Marshal value in
  match err with
  | Some err => WithError env err
  | None => WithJsonRaw env bs
  end.

End Exported.

(** ** The trace aggregator (tracer.go) *)

Section Tracer.
Context `{GoLib} `{PackageDecls}.

Definition newTraceChain (color : Z) : TraceChain :=
  {| chain_blocks := []; chain_color := color |}.

Definition addBlock (tc : TraceChain) (block : TraceBlock) : TraceChain :=
  {| chain_blocks := chain_blocks tc ++ [block]; chain_color := chain_color tc |}.

Definition newTraceBlock (color : Z) (args : list Value) (obj : Value) (fields : Fields)
  : TraceBlock :=
  {| block_Fields := fields; block_Obj := obj; block_args := args; block_color := color |}.

(** One round of [for color, used := range colors] in [generateNewChain]. *)
Definition claim_color (acc : TraceChain * gmap Z bool) (color : Z)
  : TraceChain * gmap Z bool :=
  let '(chain, cols) := acc in
  match cols !! color with
  | Some false =>
      ({| chain_blocks := chain_blocks chain; chain_color := color |},
       <[color := true]> cols)
  | _ => (chain, cols)
  end.

(** [generateNewChain]; [order] is the order in which the [range] over the
    colour table visits its keys. *)
Definition generateNewChain (order : list Z) : M TraceChain :=
  st <~ get_state ;;
  let chain := newTraceChain nocolor in
  let '(chain, cols) := fold_left claim_color order (chain, colors st) in
  modify (set_colors cols) ;;;
  ret chain.

Definition Trace (order : list Z) (index : Z) (fields : Fields) (obj : Value)
    (args : list Value) : M unit :=
  st <~ get_state ;;
  chain <~ match chains st !! index with
           | Some chain => ret chain
           | None =>
               chain <~ generateNewChain order ;;
               modify (fun st => set_chains (<[index := chain]> (chains st)) st) ;;;
               ret chain
           end ;;
  let block := newTraceBlock (chain_color chain) args obj fields in
  modify (fun st => set_chains (<[index := addBlock chain block]> (chains st)) st).

(** One round of the loop over the fields of a block in [printBlock]. *)
Definition printBlock_field (block : TraceBlock) (k : string) : Outcome string :=
  let v := index_fields (block_Fields block) k in
  let value := fmt_plus_v v in
  value <- (if 128 <? len value
            then cut <- slice value 0 128 ;; Returned (cut +:+ "...")
            else Returned value) ;;
  Returned (LF +:+ "     " +:+ ESC +:+ "[" +:+ fmt_d (block_color block) +:+ "m- "
            +:+ pad_right 8 k +:+ " = " +:+ value +:+ " " +:+ ESC +:+ "[0m").

Definition trace_rule : string :=
  LF +:+ "---------------------------------------------------" +:+ LF.

(** The bytes [printBlock] has in its buffer once the payload is
    marshalled into [jsonRaw]. *)
Definition block_bytes (block : TraceBlock) (lines : string) (jsonRaw : option string)
  : string :=
  let message := fmt_Sprint (block_args block) in
  ESC +:+ "[" +:+ fmt_d (block_color block) +:+ "m msg: " +:+ pad_right 44 message
  +:+ " " +:+ ESC +:+ "[0m"
  +:+ lines
  +:+ match jsonRaw with
      | Some jsonRaw => ESC +:+ "[" +:+ fmt_d (block_color block) +:+ "m " +:+ LF
                        +:+ prettyJSON jsonRaw +:+ " " +:+ ESC +:+ "[0m"
      | None => ""
      end
  +:+ trace_rule.

Definition printBlock (block : TraceBlock) : M unit :=
  lines <~ lift (format_each (printBlock_field block)
                             (range_fields (block_Fields block))) ;;
  let '(jsonRaw, err) := json_Marshal (block_Obj block) in
  match err with
  | Some err => panic (PanicError err)
  | None =>
      let b := block_bytes block lines jsonRaw in
      logger <~ StandardLogger ;;
      st <~ get_state ;;
      Write (logger_Out (lookup_logger st logger)) b
  end.

(** The walk from [Front()] along [Next()]. *)
Fixpoint printBlocks (blocks : list TraceBlock) : M unit :=
  match blocks with
  | [] => ret tt
  | block :: blocks => printBlock block ;;; printBlocks blocks
  end.

Definition TraceEnd (index : Z) : M unit :=
  st <~ get_state ;;
  match chains st !! index with
  | None => ret tt
  | Some chain => printBlocks (chain_blocks chain)
  end.

End Tracer.

(** ** The calls a client makes on a logger *)

(** The gated severity methods of logger.go: [Debug], [Info], [Warn],
    [Error], [Fatal], [Panic] with their [-f] and [-ln] variants, and the
    [Warning-] spellings the file has. *)
Inductive SeverityCall :=
| CallDebug (args : list Value)
| CallDebugf (format : string) (args : list Value)
| CallDebugln (args : list Value)
| CallInfo (args : list Value)
| CallInfof (format : string) (args : list Value)
| CallInfoln (args : list Value)
| CallWarn (args : list Value)
| CallWarnf (format : string) (args : list Value)
| CallWarnln (args : list Value)
| CallWarningf (format : string) (args : list Value)
| CallWarningln (args : list Value)
| CallError (args : list Value)
| CallErrorf (format : string) (args : list Value)
| CallErrorln (args : list Value)
| CallFatal (args : list Value)
| CallFatalf (format : string) (args : list Value)
| CallFatalln (args : list Value)
| CallPanic (args : list Value)
| CallPanicf (format : string) (args : list Value)
| CallPanicln (args : list Value).

(** The severity a method is named after. *)
Definition severity (c : SeverityCall) : Level :=
  match c with
  | CallDebug _ | CallDebugf _ _ | CallDebugln _ => DebugLevel
  | CallInfo _ | CallInfof _ _ | CallInfoln _ => InfoLevel
  | CallWarn _ | CallWarnf _ _ | CallWarnln _
  | CallWarningf _ _ | CallWarningln _ => WarnLevel
  | CallError _ | CallErrorf _ _ | CallErrorln _ => ErrorLevel
  | CallFatal _ | CallFatalf _ _ | CallFatalln _ => FatalLevel
  | CallPanic _ | CallPanicf _ _ | CallPanicln _ => PanicLevel
  end.

(** [Print], [Printf], [Println]. *)
Inductive PrintCall :=
| CallPrint (args : list Value)
| CallPrintf (format : string) (args : list Value)
| CallPrintln (args : list Value).

(** The ungated methods with a fixed severity. *)
Inductive MarkCall :=
| CallHighlight (args : list Value)
| CallHighlightf (format : string) (args : list Value)
| CallPass (args : list Value)
| CallPassf (format : string) (args : list Value)
| CallFailed (args : list Value)
| CallFailedf (format : string) (args : list Value)
| CallSuccess (args : list Value)
| CallSuccessf (format : string) (args : list Value).

(** The [With*] methods of [Logger]. *)
Inductive WithCall :=
| CallWithField (key : string) (value : Value)
| CallWithFields (fields : Fields)
| CallWithError (err : error)
| CallWithJsonRaw (bs : option string)
| CallWithStruct (value : Value)
| CallWithMultiLines (key longStr : string)
| CallWithLongString (key longStr sep : string).

(** Any call on a logger, with what it draws from its environment. *)
Inductive Call :=
| Severity (env : CallEnv) (c : SeverityCall)
| Print (env : CallEnv) (c : PrintCall)
| Mark (env : CallEnv) (c : MarkCall)
| With (env : CallEnv) (c : WithCall)
| SetLevel (level : Level)
| SetOutput (out : Writer)
| SetNoLock.

Section Calls.
Context `{GoLib} `{PackageDecls}.

(** The message a severity method hands to [log]. *)
Definition severity_message (c : SeverityCall) : string :=
  match c with
  | CallDebug args | CallInfo args | CallWarn args | CallError args
  | CallFatal args | CallPanic args => fmt_Sprint args
  | CallDebugf format args | CallInfof format args | CallWarnf format args
  | CallWarningf format args | CallErrorf format args | CallFatalf format args
  | CallPanicf format args => fmt_Sprintf format args
  | CallDebugln args | CallInfoln args | CallWarnln args | CallWarningln args
  | CallErrorln args | CallFatalln args | CallPanicln args => fmt_Sprintln args
  end.

Definition print_message (c : PrintCall) : string :=
  match c with
  | CallPrint args => fmt_Sprint args
  | CallPrintf format args => fmt_Sprintf format args
  | CallPrintln args => fmt_Sprintln args
  end.

Definition run_severity (env : CallEnv) (logger : loc) (c : SeverityCall) : M unit :=
  match c with
  | CallDebug args => Logger_Debug env logger args
  | CallDebugf format args => Logger_Debugf env logger format args
  | CallDebugln args => Logger_Debugln env logger args
  | CallInfo args => Logger_Info env logger args
  | CallInfof format args => Logger_Infof env logger format args
  | CallInfoln args => Logger_Infoln env logger args
  | CallWarn args => Logger_Warn env logger args
  | CallWarnf format args => Logger_Warnf env logger format args
  | CallWarnln args => Logger_Warnln env logger args
  | CallWarningf format args => Logger_Warningf env logger format args
  | CallWarningln args => Logger_Warningln env logger args
  | CallError args => Logger_Error env logger args
  | CallErrorf format args => Logger_Errorf env logger format args
  | CallErrorln args => Logger_Errorln env logger args
  | CallFatal args => Logger_Fatal env logger args
  | CallFatalf format args => Logger_Fatalf env logger format args
  | CallFatalln args => Logger_Fatalln env logger args
  | CallPanic args => Logger_Panic env logger args
  | CallPanicf format args => Logger_Panicf env logger format args
  | CallPanicln args => Logger_Panicln env logger args
  end.

Definition run_print (env : CallEnv) (logger : loc) (c : PrintCall) : M unit :=
  match c with
  | CallPrint args => Logger_Print env logger args
  | CallPrintf format args => Logger_Printf env logger format args
  | CallPrintln args => Logger_Println env logger args
  end.

Definition run_mark (env : CallEnv) (logger : loc) (c : MarkCall) : M unit :=
  match c with
  | CallHighlight args => Logger_Highlight env logger args
  | CallHighlightf format args => Logger_Highlightf env logger format args
  | CallPass args => Logger_Pass env logger args
  | CallPassf format args => Logger_Passf env logger format args
  | CallFailed args => Logger_Failed env logger args
  | CallFailedf format args => Logger_Failedf env logger format args
  | CallSuccess args => Logger_Success env logger args
  | CallSuccessf format args => Logger_Successf env logger format args
  end.

Definition run_with (env : CallEnv) (logger : loc) (c : WithCall) : M loc :=
  match c with
  | CallWithField key value => Logger_WithField env logger key value
  | CallWithFields fields => Logger_WithFields env logger fields
  | CallWithError err => Logger_WithError env logger err
  | CallWithJsonRaw bs => Logger_WithJsonRaw env logger bs
  | CallWithStruct value => Logger_WithStruct env logger value
  | CallWithMultiLines key longStr => Logger_WithMultiLines env logger key longStr
  | CallWithLongString key longStr sep =>
      Logger_WithLongString env logger key longStr sep
  end.

(** A call; the entry a [With*] call returns is its value. *)
Definition run_call (logger : loc) (c : Call) : M (option loc) :=
  match c with
  | Severity env c => run_severity env logger c ;;; ret None
  | Print env c => run_print env logger c ;;; ret None
  | Mark env c => run_mark env logger c ;;; ret None
  | With env c => entry <~ run_with env logger c ;; ret (Some entry)
  | SetLevel level => Logger_SetLevel logger level ;;; ret None
  | SetOutput out => Logger_SetOutput logger out ;;; ret None
  | SetNoLock => Logger_SetNoLock logger ;;; ret None
  end.

(** A sequence of calls, one after the other. *)
Fixpoint run_calls (logger : loc) (cs : list Call) (st : State) : State :=
  match cs with
  | [] => st
  | c :: cs => run_calls logger cs (state_of (run_call logger c st))
  end.

(** The fields and the JSON payload a [With*] call asks for. *)
Definition with_fields (c : WithCall) : Fields :=
  match c with
  | CallWithField key value => {[ key := value ]}
  | CallWithFields fields => fields
  | CallWithError err => {[ ErrorKey := VError err ]}
  | CallWithJsonRaw _ => ∅
  | CallWithStruct value =>
      match json_Marshal value with
      | (_, Some err) => {[ ErrorKey := VError err ]}
      | (_, None) => ∅
      end
  | CallWithMultiLines key longStr =>
      lines_to_fields key 0 (strings_Split longStr LF) ∅
  | CallWithLongString key longStr sep =>
      lines_to_fields key 0 (strings_Split longStr sep) ∅
  end.

Definition with_json (c : WithCall) : option string :=
  match c with
  | CallWithJsonRaw bs => bs
  | CallWithStruct value =>
      match json_Marshal value with
      | (_, Some err) => None
      | (bs, None) => bs
      end
  | _ => None
  end.

(** The entry a caller expects from a [With*] call on a logger: a record of
    that logger with the data of this call and nothing else. *)
Definition with_entry (logger : loc) (moduleName : string) (c : WithCall) : Entry :=
  {| entry_Logger := logger; entry_Module := moduleName;
     entry_Data := with_fields c;
     entry_Time := 0; entry_Level := PanicLevel; entry_Message := "";
     entry_JsonRaw := with_json c; entry_Buffer := None |}.

(** Two entries that no operation on entries tells apart before a field is
    added: same logger, module path, fields, JSON payload and buffer.  Time,
    level and message are not compared; [log] sets the three before the
    record is rendered and the views of [With*] do not inherit them. *)
Definition indistinguishable (e1 e2 : Entry) : Prop :=
  entry_Logger e1 = entry_Logger e2 /\
  entry_Module e1 = entry_Module e2 /\
  entry_Data e1 = entry_Data e2 /\
  entry_JsonRaw e1 = entry_JsonRaw e2 /\
  entry_Buffer e1 = entry_Buffer e2.

(** Every entry the pool of the logger holds is like a fresh one. *)
Definition pool_ok (st : State) (logger : loc) : Prop :=
  Forall
    (fun x => exists e, eheap st !! x = Some e /\
       indistinguishable e
         (fresh_Entry logger (logger_moduleName (lookup_logger st logger))))
    (logger_entryPool (lookup_logger st logger)).

(** The record a logger renders for a message at a level. *)
Definition record_of (st : State) (logger : loc) (env : CallEnv)
    (level : Level) (msg : string) : Outcome (string * option error) :=
  let lg := lookup_logger st logger in
  Format (logger_Formatter lg) (env_sinceStart env)
    (Entry_input (finalized (fresh_Entry logger (logger_moduleName lg))
                            (env_now env) level msg)) 0.

Definition record_bytes (o : Outcome (string * option error)) : string :=
  match o with
  | Returned (bytes, _) => bytes
  | Panicked _ => ""
  end.

End Calls.

(** ** Trace calls *)

Record TraceCall := {
  trace_order : list Z;
  trace_index : Z;
  trace_fields : Fields;
  trace_obj : Value;
  trace_args : list Value
}.

Section TraceCalls.
Context `{GoLib} `{PackageDecls}.

Definition run_trace (c : TraceCall) (st : State) : State :=
  state_of (Trace (trace_order c) (trace_index c) (trace_fields c)
                  (trace_obj c) (trace_args c) st).

Definition run_traces (cs : list TraceCall) (st : State) : State :=
  fold_left (fun st c => run_trace c st) cs st.

(** The buffer of a channel. *)
Definition channel_blocks (st : State) (index : Z) : list TraceBlock :=
  match chains st !! index with
  | Some chain => chain_blocks chain
  | None => []
  end.

Definition channel_color (st : State) (index : Z) : Z :=
  match chains st !! index with
  | Some chain => chain_color chain
  | None => nocolor
  end.

(** The blocks the calls of a sequence append to one channel, in the order
    of the calls. *)
Definition appended (index color : Z) (cs : list TraceCall) : list TraceBlock :=
  map (fun c => newTraceBlock color (trace_args c) (trace_obj c) (trace_fields c))
      (filter (fun c => trace_index c = index) cs).

(** The output of the standard logger, [os.Stderr] when it is yet to be
    created. *)
Definition std_Out (st : State) : Writer :=
  match std st with
  | Some l => logger_Out (lookup_logger st l)
  | None => Stderr
  end.

Definition serializable (block : TraceBlock) : bool :=
  match json_Marshal (block_Obj block) with
  | (_, None) => true
  | (_, Some _) => false
  end.

(** The blocks of a buffer before the first one whose payload
    [json.Marshal] refuses. *)
Fixpoint serializable_prefix (blocks : list TraceBlock) : list TraceBlock :=
  match blocks with
  | [] => []
  | block :: blocks =>
      if serializable block then block :: serializable_prefix blocks else []
  end.

(** What [printBlock] writes for a block. *)
Definition block_record (block : TraceBlock) : string :=
  match format_each (printBlock_field block) (range_fields (block_Fields block)) with
  | Returned lines => block_bytes block lines (fst (json_Marshal (block_Obj block)))
  | Panicked _ => ""
  end.

End TraceCalls.

(** ** Shapes the properties below speak about *)


(** The three statements every emitting method of [Logger] runs once its
    gate is passed. *)
Definition emit `{GoLib} `{PackageDecls} (env : CallEnv) (logger : loc)
    (callDepth : Z) (level : Level) (msg : string) : M unit :=
  entry <~ Logger_newEntry env logger ;;
  Entry_log env entry callDepth level msg ;;;
  Logger_releaseEntry logger entry.

(** The three statements every [With*] method of [Logger] runs around the
    view it builds, and the view each call builds. *)
Definition with_view `{GoLib} `{PackageDecls} (env : CallEnv) (logger : loc)
    (view : loc -> M loc) : M loc :=
  entry <~ Logger_newEntry env logger ;;
  result <~ view entry ;;
  Logger_releaseEntry logger entry ;;;
  ret result.

Definition view_of `{GoLib} `{PackageDecls} (c : WithCall) (entry : loc) : M loc :=
  match c with
  | CallWithJsonRaw bs => Entry_WithJsonRaw entry bs
  | CallWithStruct value =>
      match json_Marshal value with
      | (_, Some err) => Entry_WithError entry err
      | (bs, None) => Entry_WithJsonRaw entry bs
      end
  | CallWithField key value => Entry_WithField entry key value
  | CallWithError err => Entry_WithError entry err
  | _ => Entry_WithFields entry (with_fields c)
  end.

(** The entries a sequence of calls hands to its caller, each with the
    call that returned it, and the state the sequence ends in. *)
Fixpoint collect `{GoLib} `{PackageDecls} (logger : loc) (cs : list Call)
    (st : State) : list (loc * WithCall) * State :=
  match cs with
  | [] => ([], st)
  | c :: cs =>
      let r := run_call logger c st in
      let rest := collect logger cs (state_of r) in
      (match c, value_of r with
       | With _ w, Some (Some x) => (x, w) :: rest.1
       | _, _ => rest.1
       end, rest.2)
  end.

(** The pool of the standard logger, once there is one, is in order. *)
Definition std_pool_ok (st : State) : Prop :=
  match std st with
  | Some l => pool_ok st l
  | None => True
  end.

(** What [WithStruct] leaves in the entry it returns: the JSON payload,
    or the error of [json.Marshal] as the one field, under [ErrorKey]. *)
Definition struct_entry `{GoLib} `{PackageDecls} (value : Value) (e : Entry) : Prop :=
  match json_Marshal value with
  | (_, Some err) => entry_Data e = {[ ErrorKey := VError err ]} /\ entry_JsonRaw e = None
  | (bs, None) => entry_Data e = ∅ /\ entry_JsonRaw e = bs
  end.

(** What a logger is configured with: everything but its pool. *)
Definition config (lg : Logger) : Writer * TextFormatter * Level * MutexWrap * string :=
  (logger_Out lg, logger_Formatter lg, logger_Level lg, logger_mu lg,
   logger_moduleName lg).

(** No colour of the table is left unused. *)
Definition exhausted (cols : gmap Z bool) : Prop :=
  forall color, cols !! color <> Some false.

(** The palette [init] of tracer.go enters in the colour table. *)
Definition palette : list Z := [red; green; yellow; blue].

(** ** More of the text formatter: [needsQuoting] *)

(** The test [needsQuoting] applies to one rune: letters, digits, [-]
    and [.] pass. *)
Definition quoting_free (ch : ascii) : bool :=
  let c := Z.of_N (N_of_ascii ch) in
  ((97 <=? c) && (c <=? 122)) || ((65 <=? c) && (c <=? 90))
  || ((48 <=? c) && (c <=? 57)) || (c =? 45) || (c =? 46).

(** [needsQuoting].  The [range] of the source visits runes.  A byte below
    0x80 is a rune of its own; a rune decoded from bytes at or above 0x80
    (U+FFFD for an invalid sequence included) fails the test, as each of
    those bytes does, so the loop returns the same over the bytes. *)
Fixpoint needsQuoting (text : string) : bool :=
  match text with
  | EmptyString => false
  | String ch text => if negb (quoting_free ch) then true else needsQuoting text
  end.

(** ** [RegexpParser] (logger.go) *)

(** [\w] of Go's [regexp]: the ASCII class [[0-9A-Za-z_]]. *)
Definition word_byte (ch : ascii) : bool :=
  let c := Z.of_N (N_of_ascii ch) in
  ((48 <=? c) && (c <=? 57)) || ((65 <=? c) && (c <=? 90))
  || ((97 <=? c) && (c <=? 122)) || (c =? 95).

(** The longest run of word bytes at the head of a string, and the rest. *)
Fixpoint word_run (s : string) : string * string :=
  match s with
  | EmptyString => (EmptyString, EmptyString)
  | String ch rest =>
      if word_byte ch
      then let '(w, tl) := word_run rest in (String ch w, tl)
      else (EmptyString, s)
  end.

(** [r.Find(b)] for the one expression [prefixRegex] compiles, [^\[\w+\]]:
    the match, or nil.  No word byte is a bracket, so the greedy [\w+] never
    has to give a byte back. *)
Definition bracket_word_Find (s : string) : option string :=
  match s with
  | String "["%char rest =>
      match word_run rest with
      | (String ch w, String "]"%char _) => Some ("[" +:+ String ch w +:+ "]")
      | _ => None
      end
  | _ => None
  end.

(** The field [r] is nil until [prefixRegex] has run. *)
Record RegexpParser := { parser_r : bool }.

Definition RegexpParser_prefixRegex (pr : RegexpParser) : RegexpParser :=
  {| parser_r := true |}.

Section RegexpParsing.
(** [ParseLevel] ([logrus.go]) is not part of the available sources. *)
Variable ParseLevel : string -> Level * option error.

(** [RegexpParser.Parse]: [string(b)[1 : len(b)-1]] of the match [b];
    [len] and [string] of a nil slice are 0 and the empty string. *)
Definition RegexpParser_Parse (pr : RegexpParser) (s : string)
  : Outcome (Level * option error) :=
  if negb (parser_r pr)
  then Panicked (RuntimeError "invalid memory address or nil pointer dereference")
  else
    let b := default EmptyString (bracket_word_Find s) in
    inner <- slice b 1 (len b - 1) ;;
    Returned (ParseLevel inner).

End RegexpParsing.

(** ** [formatShortFile] (text_formatter.go) *)

(** The loop [for i := len(file) - 1; i > 0; i--]: the text after the
    slash found first, walking down from [i]; index 0 is not looked at. *)
Fixpoint short_from (file : string) (i : nat) : string :=
  match i with
  | O => EmptyString
  | S j =>
      match String.get i file with
      | Some "/"%char => substring (i + 1) (String.length file - (i + 1)) file
      | _ => short_from file j
      end
  end.

(** [formatShortFile]; [caller] is what [runtime.Caller(4)] returns: file,
    line and [ok].  [%-3d] pads the line number on the right to three
    bytes. *)
Definition formatShortFile (caller : string * Z * bool) : string :=
  let '(file, line, ok) := caller in
  if negb ok then "???:0"
  else
    let short := short_from file (String.length file - 1) in
    short +:+ ":" +:+ fmt_d line
    +:+ repeat_string (3 - String.length (fmt_d line)) " ".

(** A path without a slash. *)
Definition slash_free (s : string) : Prop :=
  Forall (fun ch => ch <> "/"%char) (list_ascii_of_string s).

(** ** The text formatter of text_formatter.go *)

(** text_formatter.go holds another [Format] of [TextFormatter], with its
    own [printColored] and [prettyJSON]: it prints the caller in front,
    writes the head of an uncoloured record with [appendKeyValue] and cuts
    long values to a prefix. *)
Module Legacy.
Section TextFormatter.
Context `{GoLib} `{PackageDecls}.
(** [fmt.Sprintf("%q", v)] *)
Variable fmt_verb_q : Value -> string.

Definition appendKeyValue (b : string) (key : string) (value : Value) : string :=
  let b := if 0 <? len key then b +:+ key +:+ "=" else b in
  let b :=
    match value with
    | VString value =>
        if negb (needsQuoting value) then b +:+ value
        else b +:+ fmt_verb_q (VString value)
    | VError errmsg =>
        if negb (needsQuoting errmsg) then b +:+ errmsg
        else b +:+ fmt_verb_q (VError errmsg)
    | _ => b +:+ fmt_Sprint [value]
    end in
  b +:+ " ".

Definition prettyJSON (js : string) : string :=
  match json_Indent js "" "  " with
  | inr err => "JSON parse error: " +:+ err
  | inl buf => buf
  end.

(** [value[:128] + "..."] under [len(value) > 128]. *)
Definition cut_value (value : string) : Outcome string :=
  if 128 <? len value
  then cut <- slice value 0 128 ;; Returned (cut +:+ "...")
  else Returned value.

(** One round of the loop over [keys] in the uncoloured branch. *)
Definition format_field (data : Fields) (key : string) : Outcome string :=
  value <- cut_value (fmt_plus_v (index_fields data key)) ;;
  Returned (LF +:+ "              - " +:+ pad_right 8 key +:+ " = " +:+ value).

(** One round of the loop over [keys] in [printColored]. *)
Definition printColored_field (data : Fields) (k : string) : Outcome string :=
  value <- cut_value (fmt_plus_v (index_fields data k)) ;;
  Returned (LF +:+ "              " +:+ ESC +:+ "[" +:+ fmt_d gray +:+ "m- "
            +:+ pad_right 8 k +:+ ESC +:+ "[0m = " +:+ value).

Definition printColored (f : TextFormatter) (sinceStart : Z)
    (entry : FormatterInput) (data : Fields) (keys : list string)
    (timestampFormat fileInfo : string) : Outcome string :=
  let levelColor :=
    if (GetLevel entry =? DebugLevel)%N then gray
    else if (GetLevel entry =? WarnLevel)%N then yellow
    else if ((GetLevel entry =? ErrorLevel) || (GetLevel entry =? FatalLevel)
             || (GetLevel entry =? PanicLevel))%N then red
    else blue in
  levelText <- slice (strings_ToUpper (Level_String (GetLevel entry))) 0 4 ;;
  let head :=
    if negb (FullTimestamp f)
    then ESC +:+ "[" +:+ fmt_d levelColor +:+ "m " +:+ fileInfo +:+ " " +:+ levelText
         +:+ "[" +:+ fmt_04d sinceStart +:+ "] " +:+ pad_right 44 (GetMessage entry)
         +:+ " " +:+ ESC +:+ "[0m"
    else ESC +:+ "[" +:+ fmt_d levelColor +:+ "m " +:+ fileInfo +:+ " " +:+ levelText
         +:+ "[" +:+ time_Format (GetTime entry) timestampFormat +:+ "] "
         +:+ pad_right 44 (GetMessage entry) +:+ " " +:+ ESC +:+ "[0m" in
  lines <- format_each (printColored_field data) keys ;;
  let json :=
    match GetJsonRaw entry with
    | Some jsonRaw => LF +:+ prettyJSON jsonRaw
    | None => ""
    end in
  Returned (head +:+ lines +:+ json).

(** [Format]; [sinceStart] is [miniTS()] and [caller] what
    [runtime.Caller(4)] returns inside [formatShortFile]. *)
Definition Format (f : TextFormatter) (sinceStart : Z) (caller : string * Z * bool)
    (entry : FormatterInput) : Outcome (string * option error) :=
  let keys := range_fields (GetData entry) in
  let keys := if negb (DisableSorting f) then sort_Strings keys else keys in
  let b := match GetBuffer entry with Some b => b | None => "" end in
  let data := prefixFieldClashes (GetData entry) in
  let isColorTerminal := isTerminal && negb (String.eqb GOOS "windows") in
  let isColored := (ForceColors f || isColorTerminal) && negb (DisableColors f) in
  let timestampFormat := TimestampFormat f in
  let timestampFormat :=
    if String.eqb timestampFormat "" then DefaultTimestampFormat
    else timestampFormat in
  let fileInfo := formatShortFile caller in
  b <-
    (if isColored
     then body <- printColored f sinceStart entry data keys timestampFormat fileInfo ;;
          Returned (b +:+ body)
     else
       let b :=
         if negb (DisableTimestamp f)
         then appendKeyValue b "time"
                (VString (time_Format (GetTime entry) timestampFormat))
         else b in
       let b := appendKeyValue b "" (VString fileInfo) in
       let b := appendKeyValue b "level" (VString (Level_String (GetLevel entry))) in
       let b :=
         if negb (String.eqb (GetMessage entry) "")
         then appendKeyValue b "msg" (VString (GetMessage entry))
         else b in
       lines <- format_each (format_field data) keys ;;
       let json :=
         match GetJsonRaw entry with
         | Some jsonRaw => LF +:+ prettyJSON jsonRaw
         | None => ""
         end in
       Returned (b +:+ lines +:+ json)) ;;
  Returned (b +:+ LF, None).

End TextFormatter.
End Legacy.

(** ** The rest of exported.go *)

Module zlog.
Section Package.
Context `{GoLib} `{PackageDecls}.

(** [for _, logger := range loggers { logger.SetOutput(out) }] *)
Fixpoint SetOutput_each (ls : list loc) (out : Writer) : M unit :=
  match ls with
  | [] => ret tt
  | logger :: ls => Logger_SetOutput logger out ;;; SetOutput_each ls out
  end.

Definition SetOutput (out : Writer) : M unit :=
  st <~ get_state ;;
  SetOutput_each (loggers st) out.

Definition SetLevel (level : Level) : M unit :=
  logger <~ StandardLogger ;;
  Logger_SetLevel logger level.

Definition GetLevel : M Level :=
  logger <~ StandardLogger ;;
  st <~ get_state ;;
  ret (logger_Level (lookup_logger st logger)).

(** The loop of the package-level [WithMultiLines] and [WithLongString]:
    each non-empty line goes through [logger.WithField] and only the entry
    of the last such call is kept; [entry] stays nil when there is none.
    [envs] is what the call for each line draws from its environment. *)
Fixpoint WithLines_loop (envs : Z -> CallEnv) (logger : loc) (key : string)
    (index : Z) (lns : list string) (entry : option loc) : M (option loc) :=
  match lns with
  | [] => ret entry
  | ln :: lns =>
      if len ln <=? 0 then WithLines_loop envs logger key (index + 1) lns entry
      else
        e <~ Logger_WithField (envs index) logger
               (key +:+ "-" +:+ fmt_d index) (VString ln) ;;
        WithLines_loop envs logger key (index + 1) lns (Some e)
  end.

Definition WithMultiLines (envs : Z -> CallEnv) (key longStr : string)
  : M (option loc) :=
  logger <~ StandardLogger ;;
  let lns := strings_Split longStr LF in
  WithLines_loop envs logger key 0 lns None.

Definition WithLongString (envs : Z -> CallEnv) (key longStr sep : string)
  : M (option loc) :=
  logger <~ StandardLogger ;;
  let lns := strings_Split longStr sep in
  WithLines_loop envs logger key 0 lns None.

(** The loop of [AddFields] over the pairs of an argument list of even
    length; [args[i].(string)] panics on a key that is not a string. *)
Fixpoint AddFields_loop (args : list Value) (data : Fields) : Outcome Fields :=
  match args with
  | k :: v :: rest =>
      match k with
      | VString key => AddFields_loop rest (<[key := v]> data)
      | _ => Panicked (RuntimeError "interface conversion: interface {} is not string")
      end
  | _ => Returned data
  end.

Definition AddFields (env : CallEnv) (args : list Value) : M loc :=
  if Z.of_nat (length args) <=? 0 then WithFields env ∅
  else
    let args :=
      if negb (rem (Z.of_nat (length args)) 2 =? 0)
      then args ++ [VString ""] else args in
    data <~ lift (AddFields_loop args ∅) ;;
    WithFields env data.


Definition print_call (env : CallEnv) (c : PrintCall) : M unit :=
  logger <~ StandardLogger ;;
  run_print env logger c.

Definition exportedDefaultCallDepth : Z := 6.

Definition Highlight (env : CallEnv) (args : list Value) : M unit :=
  logger <~ StandardLogger ;;
  Logger_highlight env logger exportedDefaultCallDepth args.

Definition Highlightf (env : CallEnv) (format : string) (args : list Value) : M unit :=
  logger <~ StandardLogger ;;
  Logger_highlight env logger exportedDefaultCallDepth
    [VString (fmt_Sprintf format args)].

Definition PrettyJson (env : CallEnv) (j : string) : M unit :=
  logger <~ StandardLogger ;;
  Logger_Println env logger [VString (prettyJSON j)].

End Package.
End zlog.

(** ** The rest of tracer.go *)

Section TracerWrappers.
Context `{GoLib} `{PackageDecls}.
(** A [[]interface{}] passed where one [interface{}] is expected: the
    slice boxed as a single value. *)
Variable slice_value : list Value -> Value.

(** A [nil] in the variadic position is one nil argument; a nil map of
    fields has no key. *)
Definition TraceWithStructDefault (order : list Z) (obj : Value) : M unit :=
  Trace order 0 ∅ obj [VNil].

Definition TraceFiledsDefault (order : list Z) (fields : Fields) : M unit :=
  Trace order 0 fields VNil [VNil].

(** [args] is handed on without [...]: the callee sees one argument. *)
Definition TraceArgsDefault (order : list Z) (args : list Value) : M unit :=
  Trace order 0 ∅ VNil [slice_value args].

Definition TraceDefault (order : list Z) (fields : Fields) (obj : Value)
    (args : list Value) : M unit :=
  let index := 0 in
  st <~ get_state ;;
  chain <~ match chains st !! index with
           | Some chain => ret chain
           | None =>
               chain <~ generateNewChain order ;;
               modify (fun st => set_chains (<[index := chain]> (chains st)) st) ;;;
               ret chain
           end ;;
  let block := newTraceBlock (chain_color chain) args obj fields in
  modify (fun st => set_chains (<[index := addBlock chain block]> (chains st)) st).

Definition TraceWithStruct (order : list Z) (index : Z) (obj : Value) : M unit :=
  Trace order index ∅ obj [VNil].

Definition TraceFileds (order : list Z) (index : Z) (fields : Fields) : M unit :=
  Trace order index fields VNil [VNil].

Definition TraceArgs (order : list Z) (index : Z) (args : list Value) : M unit :=
  Trace order index ∅ VNil [slice_value args].

Definition TraceEndDefault : M unit :=
  st <~ get_state ;;
  match chains st !! 0 with
  | None => ret tt
  | Some chain => printBlocks (chain_blocks chain)
  end.

End TracerWrappers.

(** ** What the ungated methods and the package-level functions log *)

(** The threshold of the standard logger, [DebugLevel] (that of [New])
    when it is yet to be created. *)
Definition std_Level (st : State) : Level :=
  match std st with
  | Some l => logger_Level (lookup_logger st l)
  | None => DebugLevel
  end.

(** The severity each ungated marking method passes to [log]. *)
Definition mark_level (c : MarkCall) : Level :=
  match c with
  | CallHighlight _ | CallHighlightf _ _ | CallFailed _ | CallFailedf _ _ => ErrorLevel
  | CallPass _ | CallPassf _ _ | CallSuccess _ | CallSuccessf _ _ => InfoLevel
  end.

(** The message each of them passes to [log]. *)
Definition mark_message `{GoLib} (c : MarkCall) : string :=
  match c with
  | CallHighlight args => fmt_Sprint args
  | CallHighlightf format args => fmt_Sprint [VString (fmt_Sprintf format args)]
  | CallPass args => fmt_Sprint (VString "[PASS]" :: args)
  | CallPassf format args => fmt_Sprintf ("[PASS]" +:+ format) args
  | CallFailed args => fmt_Sprint (VString "[FAIL]" :: args)
  | CallFailedf format args => fmt_Sprintf ("[FAIL]" +:+ format) args
  | CallSuccess args => fmt_Sprint (VString "[OK]" :: args)
  | CallSuccessf format args => fmt_Sprintf ("[OK]" +:+ format) args
  end.

(** ** What the package-level field helpers keep *)

(** The last non-empty line of a list, with its position counted from
    [index]. *)
Fixpoint last_line (index : Z) (lns : list string) : option (Z * string) :=
  match lns with
  | [] => None
  | ln :: lns =>
      match last_line (index + 1) lns with
      | Some found => Some found
      | None => if len ln <=? 0 then None else Some (index, ln)
      end
  end.

(** The arguments of [AddFields] taken two by two as key and value, when
    every key is a string. *)
Fixpoint string_pairs (args : list Value) : option (list (string * Value)) :=
  match args with
  | k :: v :: rest =>
      match k, string_pairs rest with
      | VString key, Some kvs => Some ((key, v) :: kvs)
      | _, _ => None
      end
  | _ => Some []
  end.

(** The arguments [AddFields] works on: an odd list gets an empty string
    as the value of its last key. *)
Definition padded (args : list Value) : list Value :=
  if Nat.even (length args) then args else args ++ [VString ""].

(** ** Shapes the further properties speak about *)

(** A string that starts with a non-empty word in brackets. *)
Definition bracketed (s w : string) : Prop :=
  exists tail,
    s = "[" +:+ w +:+ "]" +:+ tail /\ w <> EmptyString /\
    Forall (fun ch => word_byte ch = true) (list_ascii_of_string w).


(** The calls that hand a record to [log]: the severity methods, the
    [Print] family and the marking methods. *)
Definition logs (c : Call) : bool :=
  match c with
  | Severity _ _ | Print _ _ | Mark _ _ => true
  | _ => false
  end.

(** ** A library instance to run the definitions on examples *)

(** Opaque values stand for channels here, which [encoding/json] refuses
    with an [UnsupportedTypeError]; the other values print and marshal as
    themselves.  Runes are counted as bytes (ASCII examples). *)
Definition sample_plus_v (v : Value) : string :=
  match v with
  | VNil => "<nil>"
  | VString s => s
  | VError e => e
  | VOpaque _ => "0xc000012345"
  end.

Definition sample_Marshal (v : Value) : option string * option error :=
  match v with
  | VNil => (Some "null", None)
  | VString s => (Some (String (ascii_of_nat 34) s +:+ String (ascii_of_nat 34) ""), None)
  | VError _ => (Some "{}", None)
  | VOpaque _ => (None, Some "json: unsupported type: chan int")
  end.

Definition sampleLib : GoLib :=
  {| fmt_Sprint := fun args => concat_strings (map sample_plus_v args);
     fmt_Sprintln := fun args => concat_strings (map sample_plus_v args) +:+ LF;
     fmt_Sprintf := fun format args => format;
     fmt_plus_v := sample_plus_v;
     fmt_verb_s := sample_plus_v;
     utf8_RuneCountInString := String.length;
     strings_ToUpper := fun s => s;
     strings_Split := fun s sep => [s];
     sort_Strings := merge_sort String.le;
     json_Marshal := sample_Marshal;
     json_Indent := fun src prefix indent => inl src;
     time_Format := fun t layout => fmt_d t;
     range_fields := fun data => map fst (map_to_list data);
     isTerminal := false;
     GOOS := "linux" |}.

Definition sampleDecls : PackageDecls :=
  {| moduleKey := "module";
     ErrorKey := "error";
     DefaultTimestampFormat := "2006-01-02T15:04:05Z07:00";
     prefixFieldClashes := fun data => data |}.

Definition sample_env : CallEnv :=
  {| env_pick := Some 0%nat; env_now := 1530000000; env_sinceStart := 7 |}.

(** A logger made by [New("app")] that has logged one record, handed out
    one entry and then had its threshold set to Warn. *)
Definition sample_logger : loc :=
  default 1%positive (value_of (New ["app"%string] initial_state)).

Definition sample_calls : list Call :=
  [ With sample_env (CallWithField "user" (VString "ann"));
    Severity sample_env (CallWarn [VString "slow"]);
    With sample_env (CallWithStruct (VOpaque 1));
    With sample_env (CallWithField "user" (VString "bob")) ].

Definition sample_state : State :=
  @run_calls sampleLib sampleDecls sample_logger
    [ Severity sample_env (CallInfo [VString "ready"]);
      With sample_env (CallWithField "user" (VString "ann"));
      SetLevel WarnLevel ]
    (state_of (New ["app"%string] initial_state)).

(** * Properties *)

(** ** Strings and slices *)

Lemma length_append (s1 s2 : string) :
  String.length (s1 +:+ s2) = (String.length s1 + String.length s2)%nat.
Proof.
  induction s1 as [|c s1 IH]; simpl; [reflexivity|]. now rewrite IH.
Qed.

Lemma length_substring (s : string) :
  forall n m, String.length (substring n m s) = Nat.min m (String.length s - n).
Proof.
  induction s as [|c s IH]; intros [|n] [|m]; simpl; try reflexivity.
  - now rewrite IH, Nat.sub_0_r.
  - now rewrite IH.
  - now rewrite IH.
Qed.

Lemma len_nonneg (s : string) : 0 <= len s.
Proof. unfold len. lia. Qed.

Lemma slice_in_range (s : string) (lo hi : Z) :
  0 <= lo -> lo <= hi -> hi <= len s ->
  slice s lo hi = Returned (substring (Z.to_nat lo) (Z.to_nat (hi - lo)) s).
Proof.
  intros H1 H2 H3. unfold slice.
  destruct (Z.leb_spec 0 lo); [|lia].
  destruct (Z.leb_spec lo hi); [|lia].
  destruct (Z.leb_spec hi (len s)); [|lia].
  reflexivity.
Qed.

Lemma slice_out_of_range (s : string) (lo hi : Z) :
  len s < hi ->
  slice s lo hi = Panicked (RuntimeError "slice bounds out of range").
Proof.
  intros Hlt. unfold slice.
  destruct (Z.leb_spec hi (len s)); [lia|].
  now rewrite andb_false_r.
Qed.

(** ** [PrefixStrCmp.Parse] *)

(** C8.  [Parse] gives each of the six recognized 7-byte prefixes its level
    with a nil error, and every other input of at least 7 bytes the Debug
    level with a nil error. *)
Theorem Parse_recognized_or_debug (s : string) (Hlen : 7 <= len s) :
  (forall prefix level, In (prefix, level) recognized_prefixes ->
     substring 0 7 s = prefix ->
     PrefixStrCmp_Parse s = Returned (level, None)) /\
  ((forall prefix level, In (prefix, level) recognized_prefixes ->
      substring 0 7 s <> prefix) ->
   PrefixStrCmp_Parse s = Returned (DebugLevel, None)).
Proof.
  unfold PrefixStrCmp_Parse.
  rewrite slice_in_range by (pose proof (len_nonneg s); lia).
  change (Z.to_nat 0) with 0%nat. change (Z.to_nat (7 - 0)) with 7%nat.
  cbn [bind]. split.
  - intros prefix level Hin Heq. rewrite Heq.
    unfold recognized_prefixes in Hin. cbn [In] in Hin.
    repeat (destruct Hin as [Hin|Hin];
            [injection Hin as <- <-; reflexivity|]).
    destruct Hin.
  - intros Hother.
    repeat match goal with
    | |- context [String.eqb (substring 0 7 s) ?p] =>
        let E := fresh "E" in
        destruct (String.eqb_spec (substring 0 7 s) p) as [E|E];
        [ exfalso; revert E; eapply Hother; unfold recognized_prefixes;
          cbn [In]; eauto 10 | ]
    end.
    reflexivity.
Qed.

Lemma Parse_recognized_or_debug_witness :
  7 <= len "[WARN] disk almost full" /\
  PrefixStrCmp_Parse "[WARN] disk almost full" = Returned (WarnLevel, None) /\
  7 <= len "[TRACE] entering" /\
  PrefixStrCmp_Parse "[TRACE] entering" = Returned (DebugLevel, None).
Proof.
  assert (H1 : 7 <= len "[WARN] disk almost full") by (vm_compute; discriminate).
  assert (H2 : 7 <= len "[TRACE] entering") by (vm_compute; discriminate).
  split; [exact H1|]. split.
  - apply (proj1 (Parse_recognized_or_debug _ H1) "[WARN] " WarnLevel).
    + unfold recognized_prefixes. cbn [In]. auto.
    + reflexivity.
  - split; [exact H2|].
    apply (proj2 (Parse_recognized_or_debug _ H2)).
    intros prefix level Hin. unfold recognized_prefixes in Hin. cbn [In] in Hin.
    repeat (destruct Hin as [Hin|Hin]; [injection Hin as <- <-; discriminate|]).
    destruct Hin.
Defined.

(** C10.  On an input shorter than 7 bytes the slice [str[:7]] is out of
    range: [Parse] panics and returns neither a level nor an error. *)
Theorem Parse_short_input_panics (s : string) (Hshort : len s < 7) :
  PrefixStrCmp_Parse s = Panicked (RuntimeError "slice bounds out of range").
Proof.
  unfold PrefixStrCmp_Parse. now rewrite slice_out_of_range.
Qed.

Lemma Parse_short_input_panics_witness :
  len "[INFO]" < 7 /\
  PrefixStrCmp_Parse "[INFO]" = Panicked (RuntimeError "slice bounds out of range").
Proof.
  assert (H : len "[INFO]" < 7) by (vm_compute; reflexivity).
  split; [exact H|]. exact (Parse_short_input_panics "[INFO]" H).
Defined.

(** ** Truncation of long field values *)

Lemma tripHeadAndTail_long (value : string) :
  128 < len value ->
  tripHeadAndTail value 128 =
    Returned (substring 0 64 value +:+ "..."
              +:+ substring (String.length value - 64) 63 value).
Proof.
  intros Hlong. unfold tripHeadAndTail.
  destruct (Z.leb_spec (len value) 128); [lia|].
  change (rem 128 2 =? 0) with true. cbn [negb].
  change (div 128 2) with 64.
  rewrite !slice_in_range by lia. cbn [bind].
  change (Z.to_nat 0) with 0%nat. change (Z.to_nat (64 - 0)) with 64%nat.
  replace (Z.to_nat (len value - 64)) with (String.length value - 64)%nat
    by (unfold len; lia).
  replace (Z.to_nat (len value - 1 - (len value - 64))) with 63%nat by lia.
  reflexivity.
Qed.

Lemma tripHeadAndTail_short (value : string) :
  len value <= 128 -> tripHeadAndTail value 128 = Returned value.
Proof.
  intros Hshort. unfold tripHeadAndTail.
  destruct (Z.leb_spec (len value) 128); [reflexivity|lia].
Qed.

(** With the width 128 of the formatter, [tripHeadAndTail] always returns. *)
Lemma tripHeadAndTail_returns (value : string) :
  exists shown, tripHeadAndTail value 128 = Returned shown.
Proof.
  destruct (Z.le_gt_cases (len value) 128).
  - eexists. now apply tripHeadAndTail_short.
  - eexists. apply tripHeadAndTail_long. lia.
Qed.





(** ** The trace aggregator *)

Ltac run_step :=
  cbv beta iota delta [sbind ret modify get_state panic lift Write];
  cbn [state_of value_of].

Section TracerFacts.
Context `{GoLib} `{PackageDecls}.

Lemma printBlock_field_returns (block : TraceBlock) (k : string) :
  exists piece, printBlock_field block k = Returned piece.
Proof.
  unfold printBlock_field.
  destruct (Z.ltb_spec 128 (len (fmt_plus_v (index_fields (block_Fields block) k)))).
  - rewrite slice_in_range by lia. cbn [bind]. eauto.
  - cbn [bind]. eauto.
Qed.

Lemma format_each_returns (body : string -> Outcome string) (keys : list string) :
  (forall k, exists piece, body k = Returned piece) ->
  exists lines, format_each body keys = Returned lines.
Proof.
  intros Hbody. induction keys as [|k keys [rest IH]]; cbn [format_each].
  - eauto.
  - destruct (Hbody k) as [piece ->]. cbn [bind]. rewrite IH. cbn [bind]. eauto.
Qed.

Lemma StandardLogger_spec (st : State) :
  exists l st1,
    StandardLogger st = Ok l st1 /\
    logger_Out (lookup_logger st1 l) = std_Out st /\
    std st1 = Some l /\
    written st1 = written st /\
    chains st1 = chains st /\
    colors st1 = colors st /\
    eheap st1 = eheap st.
Proof.
  unfold StandardLogger, std_Out. destruct (std st) as [l|] eqn:Hstd.
  - exists l, st. repeat split; assumption || reflexivity.
  - unfold New. run_step. cbn [length Z.of_nat Z.leb Z.compare].
    eexists _, _. split; [reflexivity|].
    repeat split.
    unfold lookup_logger. cbn [lheap set_loggers set_std set_lheap].
    now rewrite lookup_insert_eq.
Qed.

Lemma std_Out_after_StandardLogger (st st1 : State) (l : loc) :
  StandardLogger st = Ok l st1 -> std_Out st1 = std_Out st.
Proof.
  intros Hrun. destruct (StandardLogger_spec st) as (l' & st' & Heq & Hout & Hstd & _).
  rewrite Heq in Hrun. injection Hrun as -> ->.
  unfold std_Out at 1. now rewrite Hstd.
Qed.

(** What one [printBlock] does: it writes the record of the block to the
    output of the standard logger, or panics with the error of
    [json.Marshal] before anything is written. *)
Lemma printBlock_spec (block : TraceBlock) (st : State) :
  if serializable block then
    exists st1,
      printBlock block st = Ok tt st1 /\
      written st1 = written st ++ [(std_Out st, block_record block)] /\
      chains st1 = chains st /\ colors st1 = colors st /\
      std_Out st1 = std_Out st
  else
    exists err,
      snd (json_Marshal (block_Obj block)) = Some err /\
      printBlock block st = Unwind (PanicError err) st.
Proof.
  unfold serializable, printBlock, block_record.
  destruct (format_each_returns (printBlock_field block)
              (range_fields (block_Fields block)) (printBlock_field_returns block))
    as [lines ->].
  run_step.
  destruct (json_Marshal (block_Obj block)) as [jsonRaw [err|]]; cbn [fst snd].
  - eauto.
  - destruct (StandardLogger_spec st)
      as (l & st1 & Hrun & Hout & Hstd & Hw & Hch & Hco & _).
    rewrite Hrun. eexists. split; [reflexivity|].
    cbn [written chains colors set_written]. rewrite Hout, Hw.
    repeat split; try assumption.
    unfold std_Out in *. cbn [std set_written]. rewrite Hstd.
    unfold lookup_logger in *. cbn [lheap set_written]. exact Hout.
Qed.

Lemma serializable_prefix_all (blocks : list TraceBlock) :
  forallb serializable blocks = true -> serializable_prefix blocks = blocks.
Proof.
  induction blocks as [|b blocks IH]; cbn [forallb serializable_prefix];
    [reflexivity|].
  intros [Hb Hrest]%andb_prop. rewrite Hb. f_equal. auto.
Qed.

Lemma printBlocks_spec (blocks : list TraceBlock) :
  forall st,
    written (state_of (printBlocks blocks st))
    = written st ++ map (fun b => (std_Out st, block_record b))
                        (serializable_prefix blocks) /\
    chains (state_of (printBlocks blocks st)) = chains st /\
    colors (state_of (printBlocks blocks st)) = colors st /\
    std_Out (state_of (printBlocks blocks st)) = std_Out st /\
    (value_of (printBlocks blocks st) = Some tt <->
     forallb serializable blocks = true).
Proof.
  induction blocks as [|b blocks IH]; intros st;
    cbn [printBlocks serializable_prefix forallb map].
  - run_step. rewrite app_nil_r. repeat split; reflexivity.
  - pose proof (printBlock_spec b st) as Hb. unfold sbind.
    destruct (serializable b).
    + destruct Hb as (st1 & -> & Hw & Hch & Hco & Hout).
      destruct (IH st1) as (IHw & IHch & IHco & IHout & IHval).
      rewrite IHw, IHch, IHco, IHout, Hw, Hch, Hco, Hout.
      cbn [map andb]. rewrite <- app_assoc. repeat split; try reflexivity; apply IHval.
    + destruct Hb as (err & _ & ->). cbn [state_of value_of map andb].
      rewrite app_nil_r. repeat split; try reflexivity; discriminate.
Qed.

Lemma TraceEnd_spec (index : Z) (st : State) :
  written (state_of (TraceEnd index st))
  = written st ++ map (fun b => (std_Out st, block_record b))
                      (serializable_prefix (channel_blocks st index)) /\
  chains (state_of (TraceEnd index st)) = chains st /\
  colors (state_of (TraceEnd index st)) = colors st /\
  std_Out (state_of (TraceEnd index st)) = std_Out st /\
  (value_of (TraceEnd index st) = Some tt <->
   forallb serializable (channel_blocks st index) = true).
Proof.
  assert (Hrun : TraceEnd index st = printBlocks (channel_blocks st index) st).
  { unfold TraceEnd, channel_blocks. run_step.
    now destruct (chains st !! index). }
  rewrite Hrun. apply printBlocks_spec.
Qed.

End TracerFacts.

Section TraceFacts.
Context `{GoLib} `{PackageDecls}.

Lemma generateNewChain_spec (order : list Z) (st : State) :
  generateNewChain order st
  = Ok (fst (fold_left claim_color order (newTraceChain nocolor, colors st)))
       (set_colors (snd (fold_left claim_color order
                                   (newTraceChain nocolor, colors st))) st).
Proof.
  unfold generateNewChain. run_step.
  now destruct (fold_left claim_color order (newTraceChain nocolor, colors st)).
Qed.

Lemma claim_color_blocks (order : list Z) :
  forall acc,
    chain_blocks (fst (fold_left claim_color order acc)) = chain_blocks (fst acc).
Proof.
  induction order as [|color order IH]; intros [chain cols]; cbn [fold_left];
    [reflexivity|].
  rewrite IH. unfold claim_color.
  now destruct (cols !! color) as [[|]|].
Qed.

(** [Trace] never unwinds; it leaves the output and the loggers alone and
    appends one block, carrying the colour of its chain, to its channel. *)
Lemma Trace_spec (order : list Z) (index : Z) (fields : Fields) (obj : Value)
    (args : list Value) (st : State) :
  exists st1,
    Trace order index fields obj args st = Ok tt st1 /\
    written st1 = written st /\ std st1 = std st /\ lheap st1 = lheap st /\
    channel_blocks st1 index
    = channel_blocks st index
      ++ [newTraceBlock (channel_color st1 index) args obj fields] /\
    (forall j, j <> index -> chains st1 !! j = chains st !! j) /\
    (is_Some (chains st !! index) ->
     channel_color st1 index = channel_color st index /\ colors st1 = colors st) /\
    is_Some (chains st1 !! index).
Proof.
  unfold Trace, channel_blocks, channel_color. run_step.
  destruct (chains st !! index) as [chain|] eqn:Hchain.
  - eexists. split; [reflexivity|]. cbn [written std lheap chains colors set_chains].
    rewrite lookup_insert_eq. cbn [addBlock chain_blocks chain_color].
    split_and!; try reflexivity.
    + intros j Hj. now rewrite lookup_insert_ne.
    + intros _. split; reflexivity.
    + eauto.
  - rewrite generateNewChain_spec. run_step.
    eexists. split; [reflexivity|].
    cbn [written std lheap chains colors set_chains set_colors].
    rewrite lookup_insert_eq. cbn [addBlock chain_blocks chain_color].
    rewrite claim_color_blocks. cbn [fst newTraceChain chain_blocks app].
    split_and!; try reflexivity.
    + intros j Hj. rewrite !lookup_insert_ne by congruence. reflexivity.
    + intros [? [=]].
    + eauto.
Qed.

Lemma run_trace_spec (c : TraceCall) (st : State) :
  written (run_trace c st) = written st /\
  std (run_trace c st) = std st /\ lheap (run_trace c st) = lheap st /\
  channel_blocks (run_trace c st) (trace_index c)
  = channel_blocks st (trace_index c)
    ++ [newTraceBlock (channel_color (run_trace c st) (trace_index c))
                      (trace_args c) (trace_obj c) (trace_fields c)] /\
  (forall j, j <> trace_index c -> chains (run_trace c st) !! j = chains st !! j) /\
  (is_Some (chains st !! trace_index c) ->
   channel_color (run_trace c st) (trace_index c) = channel_color st (trace_index c)) /\
  is_Some (chains (run_trace c st) !! trace_index c).
Proof.
  unfold run_trace.
  destruct (Trace_spec (trace_order c) (trace_index c) (trace_fields c)
              (trace_obj c) (trace_args c) st)
    as (st1 & -> & Hw & Hstd & Hl & Hb & Hother & Hcol & Hsome).
  cbn [state_of]. split_and!; try assumption. intros Hs. now apply Hcol.
Qed.

Lemma run_traces_frame (cs : list TraceCall) :
  forall st,
    written (run_traces cs st) = written st /\
    std_Out (run_traces cs st) = std_Out st.
Proof.
  induction cs as [|c cs IH]; intros st; cbn [run_traces fold_left];
    [split; reflexivity|].
  destruct (IH (run_trace c st)) as [IHw IHo].
  destruct (run_trace_spec c st) as (Hw & Hstd & Hl & _).
  unfold run_traces in *. rewrite IHw, IHo, Hw. split; [reflexivity|].
  unfold std_Out, lookup_logger. now rewrite Hstd, Hl.
Qed.

Lemma channel_color_stable (cs : list TraceCall) (index : Z) :
  forall st,
    is_Some (chains st !! index) ->
    channel_color (run_traces cs st) index = channel_color st index /\
    is_Some (chains (run_traces cs st) !! index).
Proof.
  induction cs as [|c cs IH]; intros st Hsome; cbn [run_traces fold_left];
    [split; [reflexivity|assumption]|].
  destruct (run_trace_spec c st) as (_ & _ & _ & _ & Hother & Hcol & Hnew).
  assert (Hstep : channel_color (run_trace c st) index = channel_color st index
                  /\ is_Some (chains (run_trace c st) !! index)).
  { destruct (decide (index = trace_index c)) as [->|Hne].
    - split; [now apply Hcol|assumption].
    - unfold channel_color. rewrite Hother by assumption. split; [reflexivity|assumption]. }
  destruct Hstep as [Hc Hs]. destruct (IH _ Hs) as [IHc IHs].
  unfold run_traces in *. rewrite IHc, Hc. split; [reflexivity|assumption].
Qed.

(** After any sequence of [Trace] calls, the buffer of a channel holds what
    it held before, followed by one block per call on that channel, in the
    order of the calls; calls on other channels add nothing to it. *)
Lemma run_traces_blocks (cs : list TraceCall) (index : Z) :
  forall st,
    channel_blocks (run_traces cs st) index
    = channel_blocks st index
      ++ appended index (channel_color (run_traces cs st) index) cs.
Proof.
  induction cs as [|c cs IH]; intros st; cbn [run_traces fold_left].
  - unfold appended. cbn. now rewrite app_nil_r.
  - specialize (IH (run_trace c st)). unfold run_traces in *. rewrite IH.
    destruct (run_trace_spec c st) as (_ & _ & _ & Hb & Hother & _ & Hnew).
    unfold appended. rewrite filter_cons.
    destruct (decide (trace_index c = index)) as [<-|Hne].
    + rewrite Hb, <- app_assoc. cbn [map app]. do 3 f_equal.
      symmetry. now apply (channel_color_stable cs).
    + f_equal. unfold channel_blocks. rewrite Hother by congruence. reflexivity.
Qed.

End TraceFacts.

(** C4, as the code has it.  After any interleaving of [Trace] calls,
    [TraceEnd i] writes, in insertion order, the records of the blocks
    appended to channel [i], up to the first block whose payload
    [json.Marshal] refuses, where [printBlock] panics: all of them when every
    payload of the channel serializes.  It writes nothing for the calls on
    another channel and leaves the buffer as it is, so a second [TraceEnd i]
    writes the same records again in the same order. *)
Theorem TraceEnd_renders_own_channel_in_order `{GoLib} `{PackageDecls}
    (cs : list TraceCall) (st0 : State) (i : Z) :
  let st := run_traces cs st0 in
  let blocks := channel_blocks st0 i ++ appended i (channel_color st i) cs in
  let shown := map (fun b => (std_Out st0, block_record b))
                   (serializable_prefix blocks) in
  let once := state_of (TraceEnd i st) in
  let twice := state_of (TraceEnd i once) in
  channel_blocks st i = blocks /\
  written once = written st0 ++ shown /\
  channel_blocks once i = blocks /\
  written twice = written st0 ++ shown ++ shown /\
  (forallb serializable blocks = true ->
   serializable_prefix blocks = blocks /\
   value_of (TraceEnd i st) = Some tt /\
   value_of (TraceEnd i once) = Some tt) /\
  (forallb serializable blocks = false -> value_of (TraceEnd i st) = None).
Proof.
  intros st blocks shown once twice.
  assert (Hblocks : channel_blocks st i = blocks) by apply run_traces_blocks.
  destruct (run_traces_frame cs st0) as [Hw0 Hout0]. fold st in Hw0, Hout0.
  destruct (TraceEnd_spec i st) as (Hw1 & Hch1 & _ & Hout1 & Hval1).
  fold once in Hw1, Hch1, Hout1.
  assert (Hblocks1 : channel_blocks once i = blocks).
  { unfold channel_blocks in *. now rewrite Hch1. }
  destruct (TraceEnd_spec i once) as (Hw2 & _ & _ & _ & Hval2).
  fold twice in Hw2.
  rewrite Hblocks, Hw0, Hout0 in Hw1. fold shown in Hw1.
  rewrite Hblocks1, Hout1, Hout0, Hw1 in Hw2. fold shown in Hw2.
  rewrite Hblocks in Hval1. rewrite Hblocks1 in Hval2.
  split_and!; try assumption.
  - now rewrite Hw2, app_assoc.
  - intros Hall. split_and!.
    + now apply serializable_prefix_all.
    + now apply Hval1.
    + now apply Hval2.
  - intros Hnot. destruct (value_of (TraceEnd i st)) as [[]|] eqn:E; [|reflexivity].
    rewrite (proj1 Hval1 eq_refl) in Hnot. discriminate.
Qed.

(** C4, as the spec states it, fails on the code: channel 0 holds two blocks,
    the payload of the first is a channel, and [TraceEnd 0] unwinds at that
    block with nothing rendered. *)
Lemma TraceEnd_stops_at_unserializable_payload :
  let A := {| trace_order := [red; green; yellow; blue]; trace_index := 0;
              trace_fields := ∅; trace_obj := VOpaque 1;
              trace_args := [VString "A"] |} in
  let B := {| trace_order := [red; green; yellow; blue]; trace_index := 0;
              trace_fields := ∅; trace_obj := VNil;
              trace_args := [VString "B"] |} in
  let C := {| trace_order := [red; green; yellow; blue]; trace_index := 1;
              trace_fields := ∅; trace_obj := VNil;
              trace_args := [VString "C"] |} in
  let st := run_traces [A; C; B] initial_state in
  length (channel_blocks st 0) = 2%nat /\
  value_of (@TraceEnd sampleLib 0 st) = None /\
  written (state_of (@TraceEnd sampleLib 0 st)) = [].
Proof.
  vm_compute. repeat split.
Qed.

(** ** Colours of new chains *)

Lemma claim_color_exhausted (order : list Z) :
  forall chain cols,
    exhausted cols -> fold_left claim_color order (chain, cols) = (chain, cols).
Proof.
  induction order as [|color order IH]; intros chain cols Hex; cbn [fold_left];
    [reflexivity|].
  unfold claim_color at 2.
  destruct (cols !! color) as [[|]|] eqn:E; try now apply IH.
  now apply Hex in E.
Qed.

Lemma claim_color_keeps (acc : TraceChain * gmap Z bool) (c color : Z) :
  acc.2 !! color <> Some false -> (claim_color acc c).2 !! color <> Some false.
Proof.
  destruct acc as [chain cols]. unfold claim_color. cbn [snd].
  destruct (cols !! c) as [[|]|] eqn:E; cbn [snd]; try tauto.
  intros Hcolor. destruct (decide (c = color)) as [->|Hne].
  - rewrite lookup_insert_eq. discriminate.
  - now rewrite lookup_insert_ne.
Qed.

Lemma claim_color_claims (acc : TraceChain * gmap Z bool) (c : Z) :
  (claim_color acc c).2 !! c <> Some false.
Proof.
  destruct acc as [chain cols]. unfold claim_color.
  destruct (cols !! c) as [[|]|] eqn:E; cbn [snd].
  - congruence.
  - rewrite lookup_insert_eq. discriminate.
  - congruence.
Qed.

Lemma claim_color_marks (order : list Z) :
  forall acc color,
    (color ∈ order \/ acc.2 !! color <> Some false) ->
    (fold_left claim_color order acc).2 !! color <> Some false.
Proof.
  induction order as [|c order IH]; intros acc color Hin; cbn [fold_left].
  - destruct Hin as [Hin|Hin]; [inversion Hin|exact Hin].
  - apply IH. destruct Hin as [[->|Hin]%elem_of_cons|Hin].
    + right. apply claim_color_claims.
    + now left.
    + right. now apply claim_color_keeps.
Qed.

Lemma claim_color_untouched (order : list Z) :
  forall acc,
    (forall c, c ∈ order -> acc.2 !! c <> Some false) ->
    fold_left claim_color order acc = acc.
Proof.
  induction order as [|c order IH]; intros [chain cols] Hnone; cbn [fold_left];
    [reflexivity|].
  assert (Hstep : claim_color (chain, cols) c = (chain, cols)).
  { unfold claim_color. specialize (Hnone c ltac:(left)). cbn [snd] in Hnone.
    now destruct (cols !! c) as [[|]|]. }
  rewrite Hstep. apply IH. intros c' Hc'. apply Hnone. now right.
Qed.

(** While a colour of the table is unused, the chain leaves the loop
    with one of the colours the loop has visited. *)
Lemma claim_color_takes (order : list Z) :
  forall acc,
    (exists c, c ∈ order /\ acc.2 !! c = Some false) ->
    chain_color (fold_left claim_color order acc).1 ∈ order.
Proof.
  induction order as [|c order IH]; intros acc (c' & Hin & Hfalse).
  - inversion Hin.
  - cbn [fold_left].
    destruct (decide (Exists (fun x => (claim_color acc c).2 !! x = Some false) order))
      as [Hex|Hnex].
    + right. apply IH. apply Exists_exists in Hex. exact Hex.
    + rewrite claim_color_untouched.
      2:{ intros x Hx Habs. apply Hnex, Exists_exists. eauto. }
      assert (Hc : acc.2 !! c = Some false).
      { apply elem_of_cons in Hin as [->|Hin]; [assumption|].
        destruct (decide (c = c')) as [->|Hne]; [assumption|].
        exfalso. apply Hnex, Exists_exists. exists c'. split; [assumption|].
        destruct acc as [chain cols]. unfold claim_color. cbn [snd] in *.
        destruct (cols !! c) as [[|]|]; cbn [snd]; try assumption.
        now rewrite lookup_insert_ne. }
      destruct acc as [chain cols]. unfold claim_color. cbn [snd] in Hc.
      rewrite Hc. cbn [fst chain_color]. now left.
Qed.

Lemma initial_colors_unused (color : Z) :
  colors initial_state !! color = Some false <-> color ∈ palette.
Proof.
  unfold initial_state, palette. cbn [colors]. split.
  - intros Hc.
    repeat (apply lookup_insert_Some in Hc as [[<- _]|[_ Hc]];
            [set_solver|]).
    now rewrite lookup_empty in Hc.
  - intros Hin. unfold red, green, yellow, blue in *.
    repeat (apply elem_of_cons in Hin as [->|Hin]; [reflexivity|]).
    inversion Hin.
Qed.

Lemma run_trace_new_chain (c : TraceCall) (st : State) :
  chains st !! trace_index c = None ->
  channel_color (run_trace c st) (trace_index c)
  = chain_color (fold_left claim_color (trace_order c)
                           (newTraceChain nocolor, colors st)).1 /\
  colors (run_trace c st)
  = (fold_left claim_color (trace_order c) (newTraceChain nocolor, colors st)).2.
Proof.
  intros Hnone. unfold run_trace, Trace, channel_color. run_step.
  rewrite Hnone, generateNewChain_spec. run_step.
  cbn [chains colors set_chains set_colors]. rewrite lookup_insert_eq.
  split; reflexivity.
Qed.

(** C3, on the code.  The loop of [generateNewChain] has no [break]: the
    first chain claims every colour of the table and keeps the last one its
    [range] visits, so the chains created for a second and a third channel
    both receive [nocolor] although three palette colours were never
    handed out. *)
Theorem later_chains_get_no_color (c1 c2 c3 : TraceCall)
    (Horder : trace_order c1 ≡ₚ palette)
    (H12 : trace_index c1 <> trace_index c2)
    (H13 : trace_index c1 <> trace_index c3)
    (H23 : trace_index c2 <> trace_index c3) :
  let st := run_traces [c1; c2; c3] initial_state in
  exhausted (colors (run_traces [c1] initial_state)) /\
  channel_color st (trace_index c1) ∈ palette /\
  channel_color st (trace_index c2) = nocolor /\
  channel_color st (trace_index c3) = nocolor.
Proof.
  cbn [run_traces fold_left].
  set (st1 := run_trace c1 initial_state).
  set (st2 := run_trace c2 st1). set (st3 := run_trace c3 st2).
  assert (Hnone0 : forall j, chains initial_state !! j = None)
    by (intros j; apply lookup_empty).
  destruct (run_trace_new_chain c1 initial_state (Hnone0 _)) as [Hcol1 Hcols1].
  fold st1 in Hcol1, Hcols1.
  assert (Hex1 : exhausted (colors st1)).
  { intros color. rewrite Hcols1. apply claim_color_marks.
    destruct (decide (color ∈ palette)) as [Hin|Hout].
    - left. now rewrite Horder.
    - right. cbn [snd]. now rewrite initial_colors_unused. }
  assert (Hfirst : channel_color st1 (trace_index c1) ∈ palette).
  { rewrite Hcol1, <- Horder. apply claim_color_takes.
    assert (Hred : red ∈ palette) by (unfold palette; set_solver).
    exists red. split; [now rewrite Horder|].
    cbn [snd]. now apply initial_colors_unused. }
  destruct (run_trace_spec c1 initial_state) as (_ & _ & _ & _ & Ho1 & _ & Hs1).
  fold st1 in Ho1, Hs1.
  assert (Hnone2 : chains st1 !! trace_index c2 = None).
  { rewrite Ho1 by congruence. apply Hnone0. }
  destruct (run_trace_new_chain c2 st1 Hnone2) as [Hcol2 Hcols2].
  fold st2 in Hcol2, Hcols2.
  rewrite claim_color_exhausted in Hcol2, Hcols2 by assumption.
  cbn [fst snd newTraceChain chain_color] in Hcol2, Hcols2.
  destruct (run_trace_spec c2 st1) as (_ & _ & _ & _ & Ho2 & _ & Hs2).
  fold st2 in Ho2, Hs2.
  assert (Hnone3 : chains st2 !! trace_index c3 = None).
  { rewrite Ho2, Ho1 by congruence. apply Hnone0. }
  destruct (run_trace_new_chain c3 st2 Hnone3) as [Hcol3 _].
  fold st3 in Hcol3.
  rewrite claim_color_exhausted in Hcol3 by (now rewrite Hcols2).
  cbn [fst newTraceChain chain_color] in Hcol3.
  destruct (run_trace_spec c3 st2) as (_ & _ & _ & _ & Ho3 & _ & _).
  fold st3 in Ho3.
  split_and!.
  - exact Hex1.
  - unfold channel_color in *. rewrite Ho3, Ho2 by congruence. exact Hfirst.
  - unfold channel_color in *. rewrite Ho3 by congruence. exact Hcol2.
  - exact Hcol3.
Qed.

Lemma later_chains_get_no_color_witness :
  let call (index : Z) :=
    {| trace_order := [green; blue; red; yellow]; trace_index := index;
       trace_fields := ∅; trace_obj := VNil; trace_args := [] |} in
  let st := run_traces [call 0; call 1; call 2] initial_state in
  exhausted (colors (run_traces [call 0] initial_state)) /\
  channel_color st 0 ∈ palette /\
  channel_color st 1 = nocolor /\
  channel_color st 2 = nocolor.
Proof.
  intros call st.
  apply (later_chains_get_no_color (call 0) (call 1) (call 2)).
  - apply (bool_decide_unpack _). vm_compute. exact I.
  - cbn. lia.
  - cbn. lia.
  - cbn. lia.
Defined.

(** ** The text formatter always renders *)

Section FormatFacts.
Context `{GoLib} `{PackageDecls}.

Lemma format_field_returns (data : Fields) (key : string) :
  exists piece, format_field data key = Returned piece.
Proof.
  unfold format_field. destruct (String.eqb key moduleKey); [eauto|].
  destruct (tripHeadAndTail_returns (fmt_plus_v (index_fields data key))) as [shown ->].
  cbn [bind]. eauto.
Qed.

Lemma printColored_field_returns (data : Fields) (key : string) :
  exists piece, printColored_field data key = Returned piece.
Proof.
  unfold printColored_field.
  destruct (tripHeadAndTail_returns (fmt_plus_v (index_fields data key))) as [shown ->].
  cbn [bind]. eauto.
Qed.

(** [Format] returns bytes and a nil error on every input. *)
Lemma Format_returns (f : TextFormatter) (sinceStart : Z) (entry : FormatterInput)
    (callDepth : Z) :
  exists bytes, Format f sinceStart entry callDepth = Returned (bytes, None).
Proof.
  unfold Format, printColored.
  set (keys := if negb (DisableSorting f) then _ else _).
  destruct (format_each_returns (format_field (prefixFieldClashes (GetData entry))) keys
              (format_field_returns _)) as [plain ->].
  destruct (format_each_returns (printColored_field (prefixFieldClashes (GetData entry)))
              keys (printColored_field_returns _)) as [coloured ->].
  destruct ((ForceColors f || isTerminal && negb (GOOS =? "windows")%string)
            && negb (DisableColors f)); cbn [bind]; eauto.
Qed.

Lemma Format_callDepth (f : TextFormatter) (sinceStart : Z) (entry : FormatterInput)
    (d1 d2 : Z) :
  Format f sinceStart entry d1 = Format f sinceStart entry d2.
Proof. reflexivity. Qed.

End FormatFacts.

(** ** Entries and the pool *)

Section PoolFacts.
Context `{GoLib} `{PackageDecls}.

Lemma lookup_logger_insert (st : State) (l : loc) (lg : Logger) (h : gmap loc Logger) :
  lheap st = <[l := lg]> h -> lookup_logger st l = lg.
Proof. intros Hh. unfold lookup_logger. now rewrite Hh, lookup_insert_eq. Qed.

Lemma lookup_logger_set_lheap (st : State) (l : loc) (lg : Logger)
    (h : gmap loc Logger) :
  lookup_logger (set_lheap (<[l := lg]> h) st) l = lg.
Proof. unfold lookup_logger. cbn [lheap set_lheap]. now rewrite lookup_insert_eq. Qed.

Lemma lookup_logger_set_eheap (st : State) (l : loc) (h : gmap loc Entry) :
  lookup_logger (set_eheap h st) l = lookup_logger st l.
Proof. reflexivity. Qed.

Lemma lookup_logger_set_written (st : State) (l : loc) (w : list (Writer * string)) :
  lookup_logger (set_written w st) l = lookup_logger st l.
Proof. reflexivity. Qed.

Lemma indistinguishable_refl (e : Entry) : indistinguishable e e.
Proof. repeat split. Qed.

Lemma indistinguishable_reset (e fresh : Entry) (now : Time) (level : Level)
    (msg : string) :
  indistinguishable e fresh ->
  entry_Data fresh = ∅ -> entry_JsonRaw fresh = None -> entry_Buffer fresh = None ->
  indistinguishable (reset_Entry (finalized e now level msg)) fresh.
Proof.
  intros (Hl & Hm & _) Hd Hj Hb. unfold indistinguishable.
  cbn [reset_Entry finalized entry_Logger entry_Module entry_Data entry_JsonRaw
       entry_Buffer]. now rewrite Hd, Hj, Hb.
Qed.

(** Entries that are alike render alike once [log] has set time, level
    and message. *)
Lemma indistinguishable_input (e1 e2 : Entry) (now : Time) (level : Level)
    (msg : string) :
  indistinguishable e1 e2 ->
  Entry_input (finalized e1 now level msg) = Entry_input (finalized e2 now level msg).
Proof.
  intros (_ & Hm & Hd & Hj & Hb). unfold Entry_input, finalized.
  cbn [entry_Module entry_Data entry_Buffer entry_JsonRaw entry_Time entry_Level
       entry_Message]. now rewrite Hm, Hd, Hj, Hb.
Qed.

(** [newEntry]: the entry handed out is like a fresh one, nothing is
    written, no entry of the heap changes and the pool stays in order. *)
Lemma newEntry_spec (env : CallEnv) (logger : loc) (st : State) :
  pool_ok st logger ->
  exists x st1 e,
    Logger_newEntry env logger st = Ok x st1 /\
    eheap st1 !! x = Some e /\
    indistinguishable e
      (fresh_Entry logger (logger_moduleName (lookup_logger st logger))) /\
    (x ∈ logger_entryPool (lookup_logger st logger) \/ eheap st !! x = None) /\
    (forall y ey, eheap st !! y = Some ey -> eheap st1 !! y = Some ey) /\
    (forall y, y <> x -> eheap st1 !! y = eheap st !! y) /\
    pool_ok st1 logger /\
    logger_entryPool (lookup_logger st1 logger)
      ⊆ logger_entryPool (lookup_logger st logger) /\
    config (lookup_logger st1 logger) = config (lookup_logger st logger) /\
    written st1 = written st.
Proof.
  intros Hpool. unfold Logger_newEntry. run_step.
  set (lg := lookup_logger st logger) in *.
  assert (Hget : forall x pool', Pool_Get (env_pick env) (logger_entryPool lg) = (Some x, pool') ->
            x ∈ logger_entryPool lg /\ pool' ⊆ logger_entryPool lg).
  { unfold Pool_Get. intros x pool'. destruct (env_pick env) as [i|]; [|discriminate].
    destruct (logger_entryPool lg !! i) as [y|] eqn:Hi; [|discriminate].
    intros [= <- <-]. split.
    - eapply list_elem_of_lookup_2; eauto.
    - apply sublist_subseteq, sublist_delete. }
  assert (Hmiss : forall pool', Pool_Get (env_pick env) (logger_entryPool lg) = (None, pool') ->
            pool' = logger_entryPool lg).
  { unfold Pool_Get. intros pool'. destruct (env_pick env) as [i|]; [|now intros [= <-]].
    destruct (logger_entryPool lg !! i); [discriminate|now intros [= <-]]. }
  destruct (Pool_Get (env_pick env) (logger_entryPool lg)) as [[x|] pool'] eqn:Hpick.
  - destruct (Hget _ _ eq_refl) as [Hx Hsub].
    unfold update_logger. run_step. fold lg.
    pose proof Hpool as Hall. unfold pool_ok in Hall. fold lg in Hall.
    rewrite Forall_forall in Hall. destruct (Hall x Hx) as (e & He & Hind).
    eexists x, _, e. split; [reflexivity|].
    cbn [eheap set_lheap written].
    erewrite (lookup_logger_insert _ logger) by (cbn [lheap set_lheap]; reflexivity).
    cbn [with_entryPool logger_entryPool logger_moduleName config logger_Out
         logger_Formatter logger_Level logger_mu].
    split_and!; try assumption || reflexivity; auto.
    unfold pool_ok.
    erewrite (lookup_logger_insert _ logger) by (cbn [lheap set_lheap]; reflexivity).
    cbn [with_entryPool logger_entryPool logger_moduleName eheap set_lheap].
    apply Forall_forall. intros y Hy. apply Hall. now apply Hsub.
  - rewrite (Hmiss _ eq_refl).
    unfold update_logger, NewEntry, alloc_entry. run_step. fold lg.
    cbn [eheap set_lheap set_eheap written lheap].
    set (x := fresh (dom (eheap st))).
    assert (Hfresh : eheap st !! x = None).
    { apply not_elem_of_dom. apply is_fresh. }
    eexists x, _, _. split; [reflexivity|].
    cbn [eheap set_lheap set_eheap written lheap].
    rewrite lookup_insert_eq.
    assert (Hlg : forall st', lheap st' = <[logger := with_entryPool (logger_entryPool lg) lg]> (lheap st) ->
              lookup_logger st' logger = with_entryPool (logger_entryPool lg) lg).
    { intros st'. apply lookup_logger_insert. }
    rewrite !Hlg by reflexivity.
    cbn [with_entryPool logger_entryPool logger_moduleName config logger_Out
         logger_Formatter logger_Level logger_mu].
    split_and!; try reflexivity; auto.
    + apply indistinguishable_refl.
    + intros y ey Hy. rewrite lookup_insert_ne; [assumption|]. congruence.
    + intros y Hy. now rewrite lookup_insert_ne.
    + unfold pool_ok. rewrite !Hlg by reflexivity.
      cbn [with_entryPool logger_entryPool logger_moduleName eheap set_eheap set_lheap].
      unfold pool_ok in Hpool. fold lg in Hpool.
      eapply Forall_impl; [exact Hpool|]. intros y (ey & Hy & Hind).
      exists ey. split; [|assumption]. rewrite lookup_insert_ne; [assumption|]. congruence.
Qed.

End PoolFacts.

Section EmitFacts.
Context `{GoLib} `{PackageDecls}.

Lemma record_of_returned (st : State) (logger : loc) (env : CallEnv)
    (level : Level) (msg : string) :
  returned (record_of st logger env level msg) = true.
Proof.
  unfold record_of.
  now destruct (Format_returns
    (logger_Formatter (lookup_logger st logger)) (env_sinceStart env)
    (Entry_input (finalized (fresh_Entry logger
       (logger_moduleName (lookup_logger st logger))) (env_now env) level msg)) 0)
    as [bytes ->].
Qed.

(** [log] on an entry that is like a fresh one of the logger: the record
    is written to the output of the logger and the entry is left reset. *)
Lemma Entry_log_spec (env : CallEnv) (logger x : loc) (e : Entry) (callDepth : Z)
    (level : Level) (msg : string) (st : State) :
  eheap st !! x = Some e ->
  indistinguishable e
    (fresh_Entry logger (logger_moduleName (lookup_logger st logger))) ->
  Entry_log env x callDepth level msg st
  = Ok tt (set_eheap
             (<[x := reset_Entry (finalized e (env_now env) level msg)]> (eheap st))
             (set_written
                (written st ++ [(logger_Out (lookup_logger st logger),
                                 record_bytes (record_of st logger env level msg))])
                st)).
Proof.
  intros Hx Hind. unfold Entry_log. run_step.
  assert (He : lookup_entry st x = e) by (unfold lookup_entry; now rewrite Hx).
  rewrite He.
  assert (Hl : entry_Logger (finalized e (env_now env) level msg) = logger)
    by (cbn; apply Hind).
  rewrite Hl. rewrite (indistinguishable_input _ _ _ _ _ Hind).
  unfold record_of.
  rewrite (Format_callDepth _ _ _ callDepth 0).
  destruct (Format_returns
    (logger_Formatter (lookup_logger st logger)) (env_sinceStart env)
    (Entry_input (finalized (fresh_Entry logger
       (logger_moduleName (lookup_logger st logger))) (env_now env) level msg)) 0)
    as [bytes ->].
  cbn [record_bytes fst]. f_equal.
  unfold set_eheap, set_written. cbn. now rewrite insert_insert_eq.
Qed.

Lemma emit_spec (env : CallEnv) (logger : loc) (callDepth : Z) (level : Level)
    (msg : string) (st : State) :
  pool_ok st logger ->
  exists st1,
    emit env logger callDepth level msg st = Ok tt st1 /\
    written st1
    = written st ++ [(logger_Out (lookup_logger st logger),
                      record_bytes (record_of st logger env level msg))] /\
    pool_ok st1 logger /\
    config (lookup_logger st1 logger) = config (lookup_logger st logger) /\
    (forall y, is_Some (eheap st !! y) -> is_Some (eheap st1 !! y)) /\
    (forall y ey, eheap st !! y = Some ey ->
       y ∉ logger_entryPool (lookup_logger st logger) ->
       eheap st1 !! y = Some ey /\ y ∉ logger_entryPool (lookup_logger st1 logger)).
Proof.
  intros Hpool. unfold emit. unfold sbind at 1.
  destruct (newEntry_spec env logger st Hpool)
    as (x & st1 & e & -> & Hx & Hind & Horigin & Hkeep & Hsame & Hpool1 & Hsub
        & Hconf & Hw).
  assert (Hname : logger_moduleName (lookup_logger st1 logger)
                  = logger_moduleName (lookup_logger st logger))
    by (unfold config in Hconf; congruence).
  assert (Hout : logger_Out (lookup_logger st1 logger)
                 = logger_Out (lookup_logger st logger))
    by (unfold config in Hconf; congruence).
  assert (Hrec : record_of st1 logger env level msg = record_of st logger env level msg).
  { unfold record_of.
    assert (Hfmt : logger_Formatter (lookup_logger st1 logger)
                   = logger_Formatter (lookup_logger st logger))
      by (unfold config in Hconf; congruence).
    now rewrite Hfmt, Hname. }
  unfold sbind.
  rewrite (Entry_log_spec env logger x e callDepth level msg st1 Hx)
    by (now rewrite Hname).
  unfold Logger_releaseEntry, update_logger. run_step.
  eexists. split; [reflexivity|].
  set (e' := reset_Entry (finalized e (env_now env) level msg)).
  unfold pool_ok.
  rewrite !lookup_logger_set_lheap, !lookup_logger_set_eheap,
    !lookup_logger_set_written.
  cbn [written set_lheap set_eheap set_written eheap lheap].
  cbn [with_entryPool config logger_Out logger_Formatter logger_Level logger_mu
       logger_moduleName logger_entryPool Pool_Put].
  rewrite Hw, Hout, Hrec. split_and!; try reflexivity.
  - idtac.
    assert (He' : indistinguishable e'
              (fresh_Entry logger (logger_moduleName (lookup_logger st1 logger)))).
    { apply indistinguishable_reset; [|reflexivity..]. now rewrite Hname. }
    apply Forall_cons. split.
    + exists e'. split; [apply lookup_insert_eq|exact He'].
    + unfold pool_ok in Hpool1. eapply Forall_impl; [exact Hpool1|].
      intros y (ey & Hy & Hyind). destruct (decide (y = x)) as [->|Hne].
      * exists e'. split; [apply lookup_insert_eq|exact He'].
      * exists ey. split; [|assumption]. now rewrite lookup_insert_ne.
  - exact Hconf.
  - intros y Hy. destruct (decide (y = x)) as [->|Hne].
    + rewrite lookup_insert_eq. eauto.
    + rewrite lookup_insert_ne by congruence. rewrite Hsame by assumption. exact Hy.
  - intros y ey Hy Hnot.
    assert (Hne : y <> x).
    { intros ->. destruct Horigin as [Hin|Hnone]; [contradiction|congruence]. }
    split.
    + rewrite lookup_insert_ne by congruence. now apply Hkeep.
    + intros Hin. apply elem_of_cons in Hin as [->|Hin]; [congruence|].
      apply Hnot. now apply Hsub.
Qed.

Lemma run_severity_gated (env : CallEnv) (logger : loc) (c : SeverityCall) (st : State) :
  run_severity env logger c st
  = if level_ge (logger_Level (lookup_logger st logger)) (severity c)
    then emit env logger 0 (severity c) (severity_message c) st
    else Ok tt st.
Proof.
  destruct c; cbn [run_severity severity];
    unfold Logger_Debug, Logger_Debugf, Logger_Debugln, Logger_Info, Logger_Infof,
      Logger_Infoln, Logger_Warn, Logger_Warnf, Logger_Warnln, Logger_Warningf,
      Logger_Warningln, Logger_Error, Logger_Errorf, Logger_Errorln, Logger_Fatal,
      Logger_Fatalf, Logger_Fatalln, Logger_Panic, Logger_Panicf, Logger_Panicln;
    run_step; destruct (level_ge _ _); reflexivity.
Qed.

Lemma run_print_emit (env : CallEnv) (logger : loc) (c : PrintCall) (st : State) :
  run_print env logger c st
  = emit env logger 0 (logger_Level (lookup_logger st logger)) (print_message c) st.
Proof. destruct c; reflexivity. Qed.

Lemma run_mark_emit (env : CallEnv) (logger : loc) (c : MarkCall) :
  exists callDepth level msg,
    forall st, run_mark env logger c st = emit env logger callDepth level msg st.
Proof. destruct c; do 3 eexists; intros st; reflexivity. Qed.

End EmitFacts.

Section WithFacts.
Context `{GoLib} `{PackageDecls}.

Lemma run_with_view (env : CallEnv) (logger : loc) (c : WithCall) (st : State) :
  run_with env logger c st = with_view env logger (view_of c) st.
Proof.
  destruct c; try reflexivity.
  cbn [run_with]. unfold Logger_WithStruct, with_view, view_of.
  destruct (json_Marshal value) as [bs [err|]]; reflexivity.
Qed.

(** The view a [With*] call builds from an entry that is like a fresh one
    is a new entry with the data of the call and nothing else. *)
Lemma view_of_spec (logger : loc) (name : string) (c : WithCall) (x : loc)
    (e : Entry) (st : State) :
  eheap st !! x = Some e ->
  indistinguishable e (fresh_Entry logger name) ->
  view_of c x st
  = Ok (fresh (dom (eheap st)))
       (set_eheap (<[fresh (dom (eheap st)) := with_entry logger name c]> (eheap st)) st).
Proof.
  intros Hx (Hl & Hm & Hd & Hj & Hb).
  cbn [fresh_Entry entry_Logger entry_Module entry_Data entry_JsonRaw entry_Buffer]
    in Hl, Hm, Hd, Hj, Hb.
  assert (He : lookup_entry st x = e) by (unfold lookup_entry; now rewrite Hx).
  assert (Hfields : forall fields,
            Entry_WithFields x fields st
            = Ok (fresh (dom (eheap st)))
                 (set_eheap (<[fresh (dom (eheap st)) :=
                      {| entry_Logger := logger; entry_Module := name;
                         entry_Data := fields;
                         entry_Time := 0; entry_Level := PanicLevel;
                         entry_Message := ""; entry_JsonRaw := None;
                         entry_Buffer := None |}]> (eheap st)) st)).
  { intros fields. unfold Entry_WithFields, alloc_entry. run_step.
    rewrite He, Hl, Hm, Hd, Hj. now rewrite (right_id_L ∅ (∪)). }
  assert (Hjson : forall bs,
            Entry_WithJsonRaw x bs st
            = Ok (fresh (dom (eheap st)))
                 (set_eheap (<[fresh (dom (eheap st)) :=
                      {| entry_Logger := logger; entry_Module := name;
                         entry_Data := ∅;
                         entry_Time := 0; entry_Level := PanicLevel;
                         entry_Message := ""; entry_JsonRaw := bs;
                         entry_Buffer := None |}]> (eheap st)) st)).
  { intros bs. unfold Entry_WithJsonRaw, alloc_entry. run_step.
    now rewrite He, Hl, Hm, Hd. }
  unfold with_entry.
  destruct c; cbn [view_of with_fields with_json];
    unfold Entry_WithError, Entry_WithField; rewrite ?Hfields, ?Hjson; try reflexivity.
  destruct (json_Marshal value) as [bs [err|]];
    unfold Entry_WithError, Entry_WithField; rewrite ?Hfields, ?Hjson; reflexivity.
Qed.

(** A [With*] call of [Logger]: the caller receives a new entry with the
    data of this call only; nothing is written and no entry that existed
    before is changed. *)
Lemma run_with_spec (env : CallEnv) (logger : loc) (c : WithCall) (st : State) :
  pool_ok st logger ->
  exists x st1,
    run_with env logger c st = Ok x st1 /\
    eheap st !! x = None /\
    eheap st1 !! x
    = Some (with_entry logger (logger_moduleName (lookup_logger st logger)) c) /\
    (x ∉ logger_entryPool (lookup_logger st1 logger)) /\
    pool_ok st1 logger /\
    config (lookup_logger st1 logger) = config (lookup_logger st logger) /\
    written st1 = written st /\
    (forall y ey, eheap st !! y = Some ey -> eheap st1 !! y = Some ey) /\
    (forall y, y ∈ logger_entryPool (lookup_logger st1 logger) ->
       y ∈ logger_entryPool (lookup_logger st logger) \/ eheap st !! y = None).
Proof.
  intros Hpool. rewrite run_with_view. unfold with_view. unfold sbind at 1.
  destruct (newEntry_spec env logger st Hpool)
    as (x0 & st1 & e & -> & Hx & Hind & Horigin & Hkeep & Hsame & Hpool1 & Hsub
        & Hconf & Hw).
  unfold sbind at 1.
  rewrite (view_of_spec logger _ c x0 e st1 Hx Hind).
  set (x := fresh (dom (eheap st1))).
  assert (Hfresh : eheap st1 !! x = None) by (apply not_elem_of_dom, is_fresh).
  unfold Logger_releaseEntry, update_logger. run_step.
  eexists x, _. split; [reflexivity|].
  unfold pool_ok.
  rewrite !lookup_logger_set_lheap, !lookup_logger_set_eheap.
  cbn [written set_lheap set_eheap eheap lheap].
  cbn [with_entryPool config logger_Out logger_Formatter logger_Level logger_mu
       logger_moduleName logger_entryPool Pool_Put].
  assert (Hpooled : forall y, y ∈ logger_entryPool (lookup_logger st1 logger) ->
            is_Some (eheap st1 !! y)).
  { intros y Hy. unfold pool_ok in Hpool1. rewrite Forall_forall in Hpool1.
    destruct (Hpool1 y Hy) as (ey & -> & _). eauto. }
  split_and!.
  - destruct (eheap st !! x) as [ex|] eqn:E; [|reflexivity].
    apply Hkeep in E. congruence.
  - apply lookup_insert_eq.
  - intros Hin. apply elem_of_cons in Hin as [Heq|Hin].
    + rewrite Heq in Hfresh. congruence.
    + apply Hpooled in Hin as [? Hin]. congruence.
  - assert (Hname : logger_moduleName (lookup_logger st1 logger)
                    = logger_moduleName (lookup_logger st logger))
      by (unfold config in Hconf; congruence).
    apply Forall_cons. split.
    + exists e. split; [|now rewrite Hname].
      rewrite lookup_insert_ne; [assumption|]. intros <-. congruence.
    + unfold pool_ok in Hpool1. eapply Forall_impl; [exact Hpool1|].
      intros y (ey & Hy & Hyind). exists ey. split; [|assumption].
      rewrite lookup_insert_ne; [assumption|]. intros <-. congruence.
  - exact Hconf.
  - exact Hw.
  - intros y ey Hy. rewrite lookup_insert_ne; [now apply Hkeep|].
    intros <-. apply Hkeep in Hy. congruence.
  - intros y Hy. apply elem_of_cons in Hy as [->|Hy]; [exact Horigin|].
    left. now apply Hsub.
Qed.

End WithFacts.

Section CallFacts.
Context `{GoLib} `{PackageDecls}.

Lemma update_logger_frame (logger : loc) (f : Logger -> Logger) (st : State) :
  (forall lg, logger_entryPool (f lg) = logger_entryPool lg) ->
  (forall lg, logger_moduleName (f lg) = logger_moduleName lg) ->
  pool_ok st logger ->
  exists st1,
    update_logger logger f st = Ok tt st1 /\
    eheap st1 = eheap st /\ written st1 = written st /\
    lookup_logger st1 logger = f (lookup_logger st logger) /\
    pool_ok st1 logger.
Proof.
  intros Hp Hn Hpool. unfold update_logger. run_step.
  eexists. split; [reflexivity|].
  unfold pool_ok. rewrite !lookup_logger_set_lheap, Hp, Hn.
  cbn [eheap written set_lheap]. split_and!; try reflexivity. exact Hpool.
Qed.

(** What any call on a logger does to the entries. *)
Lemma run_call_spec (logger : loc) (c : Call) (st : State) :
  pool_ok st logger ->
  pool_ok (state_of (run_call logger c st)) logger /\
  logger_moduleName (lookup_logger (state_of (run_call logger c st)) logger)
  = logger_moduleName (lookup_logger st logger) /\
  (forall y, is_Some (eheap st !! y) ->
     is_Some (eheap (state_of (run_call logger c st)) !! y)) /\
  (forall y ey, eheap st !! y = Some ey ->
     y ∉ logger_entryPool (lookup_logger st logger) ->
     eheap (state_of (run_call logger c st)) !! y = Some ey /\
     y ∉ logger_entryPool (lookup_logger (state_of (run_call logger c st)) logger)) /\
  match c with
  | With _ w =>
      exists x,
        value_of (run_call logger c st) = Some (Some x) /\
        eheap st !! x = None /\
        eheap (state_of (run_call logger c st)) !! x
        = Some (with_entry logger (logger_moduleName (lookup_logger st logger)) w) /\
        x ∉ logger_entryPool (lookup_logger (state_of (run_call logger c st)) logger)
  | _ => value_of (run_call logger c st) = Some None
  end.
Proof.
  intros Hpool.
  assert (Hemit : forall env callDepth level msg (m : M unit),
            m st = emit env logger callDepth level msg st ->
            let r := (m ;;; ret None) st in
            pool_ok (state_of r) logger /\
            logger_moduleName (lookup_logger (state_of r) logger)
            = logger_moduleName (lookup_logger st logger) /\
            (forall y, is_Some (eheap st !! y) -> is_Some (eheap (state_of r) !! y)) /\
            (forall y ey, eheap st !! y = Some ey ->
               y ∉ logger_entryPool (lookup_logger st logger) ->
               eheap (state_of r) !! y = Some ey /\
               y ∉ logger_entryPool (lookup_logger (state_of r) logger)) /\
            value_of r = Some (@None loc)).
  { intros env callDepth level msg m Hm. unfold sbind. rewrite Hm.
    destruct (emit_spec env logger callDepth level msg st Hpool)
      as (st1 & -> & _ & Hp1 & Hconf & Hdom & Hframe).
    run_step. split_and!; try assumption || reflexivity.
    unfold config in Hconf. congruence. }
  assert (Hset : forall f,
            (forall lg, logger_entryPool (f lg) = logger_entryPool lg) ->
            (forall lg, logger_moduleName (f lg) = logger_moduleName lg) ->
            let r := (update_logger logger f ;;; ret None) st in
            pool_ok (state_of r) logger /\
            logger_moduleName (lookup_logger (state_of r) logger)
            = logger_moduleName (lookup_logger st logger) /\
            (forall y, is_Some (eheap st !! y) -> is_Some (eheap (state_of r) !! y)) /\
            (forall y ey, eheap st !! y = Some ey ->
               y ∉ logger_entryPool (lookup_logger st logger) ->
               eheap (state_of r) !! y = Some ey /\
               y ∉ logger_entryPool (lookup_logger (state_of r) logger)) /\
            value_of r = Some (@None loc)).
  { intros f Hp Hn. unfold sbind.
    destruct (update_logger_frame logger f st Hp Hn Hpool)
      as (st1 & -> & He & _ & Hlg & Hp1).
    run_step. rewrite Hlg, He, Hp, Hn. split_and!; auto. }
  destruct c as [env c|env c|env c|env c|level|out|]; cbn [run_call].
  - destruct (level_ge (logger_Level (lookup_logger st logger)) (severity c)) eqn:Hgate.
    + apply (Hemit env 0 (severity c) (severity_message c)).
      now rewrite run_severity_gated, Hgate.
    + unfold sbind. rewrite run_severity_gated, Hgate. run_step.
      split_and!; auto.
  - apply (Hemit env 0 (logger_Level (lookup_logger st logger)) (print_message c)).
    apply run_print_emit.
  - destruct (run_mark_emit env logger c) as (callDepth & level & msg & Hm).
    apply (Hemit env callDepth level msg). apply Hm.
  - unfold sbind.
    destruct (run_with_spec env logger c st Hpool)
      as (x & st1 & -> & Hnew & Hx & Hnot & Hp1 & Hconf & _ & Hkeep & Horigin).
    run_step. split_and!.
    + exact Hp1.
    + unfold config in Hconf. congruence.
    + intros y [ey Hy]. apply Hkeep in Hy. eauto.
    + intros y ey Hy Hnotin. split; [now apply Hkeep|].
      intros Hin. apply Horigin in Hin as [Hin|Hin]; [contradiction|congruence].
    + exists x. split_and!; auto.
  - apply Hset; reflexivity.
  - apply Hset; reflexivity.
  - apply Hset; reflexivity.
Qed.

Lemma collect_final (logger : loc) (cs : list Call) :
  forall st, (collect logger cs st).2 = run_calls logger cs st.
Proof.
  induction cs as [|c cs IH]; intros st; cbn [collect run_calls snd]; auto.
Qed.

Lemma run_calls_pool_ok (logger : loc) (cs : list Call) :
  forall st, pool_ok st logger -> pool_ok (run_calls logger cs st) logger.
Proof.
  induction cs as [|c cs IH]; intros st Hpool; cbn [run_calls]; [assumption|].
  apply IH. now apply run_call_spec.
Qed.

(** Along any sequence of calls: the pool stays in order, an entry outside
    the pool is never touched, and each entry handed to the caller is new
    and carries the data of its own call. *)
Lemma collect_spec (logger : loc) (cs : list Call) :
  forall st,
    pool_ok st logger ->
    pool_ok (collect logger cs st).2 logger /\
    logger_moduleName (lookup_logger (collect logger cs st).2 logger)
    = logger_moduleName (lookup_logger st logger) /\
    (forall y, is_Some (eheap st !! y) ->
       is_Some (eheap (collect logger cs st).2 !! y)) /\
    (forall y ey, eheap st !! y = Some ey ->
       y ∉ logger_entryPool (lookup_logger st logger) ->
       eheap (collect logger cs st).2 !! y = Some ey /\
       y ∉ logger_entryPool (lookup_logger (collect logger cs st).2 logger)) /\
    Forall (fun xw =>
              eheap st !! xw.1 = None /\
              eheap (collect logger cs st).2 !! xw.1
              = Some (with_entry logger
                        (logger_moduleName (lookup_logger st logger)) xw.2))
           (collect logger cs st).1 /\
    NoDup (collect logger cs st).1.*1.
Proof.
  induction cs as [|c cs IH]; intros st Hpool.
  - cbn [collect fst snd fmap list_fmap]. split_and!; auto using NoDup_nil_2.
  - destruct (run_call_spec logger c st Hpool)
      as (Hp1 & Hname1 & Hdom1 & Hframe1 & Hret).
    set (st1 := state_of (run_call logger c st)) in *.
    destruct (IH st1 Hp1) as (Hp2 & Hname2 & Hdom2 & Hframe2 & Hhanded & Hnodup).
    cbn [collect snd fst]. fold st1.
    set (rest := collect logger cs st1) in *.
    assert (Hrest : Forall (fun xw =>
              eheap st !! xw.1 = None /\
              eheap rest.2 !! xw.1
              = Some (with_entry logger
                        (logger_moduleName (lookup_logger st logger)) xw.2)) rest.1).
    { eapply Forall_impl; [exact Hhanded|]. intros [x w] [Hnone Hsome].
      cbn [fst snd] in *. rewrite <- Hname1. split; [|assumption].
      destruct (eheap st !! x) as [ex|] eqn:E; [|reflexivity].
      destruct (Hdom1 x) as [? Habs]; [eauto|]. congruence. }
    split_and!.
    + exact Hp2.
    + now rewrite Hname2.
    + intros y Hy. apply Hdom2, Hdom1, Hy.
    + intros y ey Hy Hnot. destruct (Hframe1 y ey Hy Hnot) as [Hy1 Hnot1].
      now apply Hframe2.
    + destruct c as [env c|env c|env c|env w|level|out|]; try exact Hrest.
      destruct Hret as (x & -> & Hnone & Hsome & Hnot).
      apply Forall_cons. split; [|exact Hrest].
      cbn [fst snd]. split; [assumption|]. now apply Hframe2.
    + destruct c as [env c|env c|env c|env w|level|out|]; try exact Hnodup.
      destruct Hret as (x & -> & Hnone & Hsome & Hnot).
      cbn [fmap list_fmap fst]. apply NoDup_cons. split; [|exact Hnodup].
      intros Hin. apply list_elem_of_fmap in Hin as ([x' w'] & Hx' & Hin).
      cbn [fst] in Hx'. subst x'.
      rewrite Forall_forall in Hhanded. destruct (Hhanded _ Hin) as [Habs _].
      cbn [fst] in Habs. congruence.
Qed.

End CallFacts.

(** ** [New] *)

Lemma New_spec (moduleNames : list string) (st : State) :
  exists l st1,
    New moduleNames st = Ok l st1 /\
    lheap st !! l = None /\
    lookup_logger st1 l
    = {| logger_Out := Stderr; logger_Formatter := new_TextFormatter;
         logger_Level := DebugLevel; logger_mu := {| disabled := false |};
         logger_entryPool := [];
         logger_moduleName :=
           strings_Join (if Z.of_nat (length moduleNames) <=? 0
                         then ["main"%string] else moduleNames) "/" |} /\
    eheap st1 = eheap st /\ written st1 = written st /\
    loggers st1 = loggers st ++ [l] /\ std st1 = std st.
Proof.
  unfold New. eexists _, _. split; [reflexivity|].
  split; [apply not_elem_of_dom, is_fresh|].
  split; [apply (lookup_logger_insert _ _ _ (lheap st)); reflexivity|].
  split_and!; reflexivity.
Qed.

Lemma New_pool_ok (moduleNames : list string) (st st1 : State)
    (l : loc) :
  New moduleNames st = Ok l st1 -> pool_ok st1 l.
Proof.
  intros Hnew. destruct (New_spec moduleNames st) as (l' & st' & Heq & _ & Hlg & _).
  rewrite Heq in Hnew. injection Hnew as -> ->.
  unfold pool_ok. rewrite Hlg. cbn [logger_entryPool]. constructor.
Qed.

Lemma sample_state_pool_ok : pool_ok sample_state sample_logger.
Proof.
  unfold sample_state. apply run_calls_pool_ok.
  apply (New_pool_ok ["app"%string] initial_state). reflexivity.
Qed.

Lemma written_grows (w : list (Writer * string)) (record : Writer * string) :
  w ++ [record] <> w.
Proof.
  intros Heq. apply (f_equal length) in Heq. rewrite length_app in Heq.
  cbn [length] in Heq. lia.
Qed.

(** ** Severity gating *)

(** C1.  Under the fixed order Panic < Fatal < Error < Warn < Info < Debug,
    a severity method of severity [S] called on a logger with threshold
    [T] writes one rendered record to the output of the logger when
    [T >= S], and does nothing at all otherwise: it writes iff [T >= S]. *)
Theorem severity_call_writes_iff_enabled `{GoLib} `{PackageDecls}
    (env : CallEnv) (logger : loc) (c : SeverityCall) (st : State)
    (Hpool : pool_ok st logger) :
  ((PanicLevel < FatalLevel)%N /\ (FatalLevel < ErrorLevel)%N /\
   (ErrorLevel < WarnLevel)%N /\ (WarnLevel < InfoLevel)%N /\
   (InfoLevel < DebugLevel)%N) /\
  (if level_ge (logger_Level (lookup_logger st logger)) (severity c)
   then
     returned (record_of st logger env (severity c) (severity_message c)) = true /\
     written (state_of (run_severity env logger c st))
     = written st
       ++ [(logger_Out (lookup_logger st logger),
            record_bytes (record_of st logger env (severity c) (severity_message c)))]
   else run_severity env logger c st = Ok tt st) /\
  (written (state_of (run_severity env logger c st)) <> written st
   <-> (severity c <= logger_Level (lookup_logger st logger))%N).
Proof.
  split; [repeat split|].
  rewrite run_severity_gated. unfold level_ge.
  destruct (N.leb_spec (severity c) (logger_Level (lookup_logger st logger)))
    as [Hle|Hgt].
  - destruct (emit_spec env logger 0 (severity c) (severity_message c) st Hpool)
      as (st1 & -> & Hw & _). cbn [state_of]. rewrite Hw.
    split; [split; [apply record_of_returned|reflexivity]|].
    split; [intros _; assumption|intros _; apply written_grows].
  - cbn [state_of]. split; [reflexivity|].
    split; [intros Hne; now contradiction Hne|intros Hle; lia].
Qed.

Lemma severity_call_writes_iff_enabled_witness :
  pool_ok sample_state sample_logger /\
  logger_Level (lookup_logger sample_state sample_logger) = WarnLevel /\
  written (state_of (@run_severity sampleLib sampleDecls sample_env sample_logger
                       (CallErrorf "disk full" []) sample_state))
  = written sample_state
    ++ [(Stderr,
         record_bytes (@record_of sampleLib sampleDecls sample_state sample_logger
                         sample_env ErrorLevel "disk full"))] /\
  @run_severity sampleLib sampleDecls sample_env sample_logger
    (CallDebug [VString "probe"]) sample_state = Ok tt sample_state.
Proof.
  split; [exact sample_state_pool_ok|]. split; [vm_compute; reflexivity|]. split.
  - pose proof (@severity_call_writes_iff_enabled sampleLib sampleDecls sample_env
                  sample_logger (CallErrorf "disk full" []) sample_state
                  sample_state_pool_ok) as (_ & Hgate & _).
    assert (Hon : level_ge (logger_Level (lookup_logger sample_state sample_logger))
                    (severity (CallErrorf "disk full" [])) = true)
      by (vm_compute; reflexivity).
    rewrite Hon in Hgate. destruct Hgate as [_ Hw]. rewrite Hw. reflexivity.
  - pose proof (@severity_call_writes_iff_enabled sampleLib sampleDecls sample_env
                  sample_logger (CallDebug [VString "probe"]) sample_state
                  sample_state_pool_ok) as (_ & Hgate & _).
    assert (Hoff : level_ge (logger_Level (lookup_logger sample_state sample_logger))
                     (severity (CallDebug [VString "probe"])) = false)
      by (vm_compute; reflexivity).
    rewrite Hoff in Hgate. exact Hgate.
Defined.

(** C9.  [Print], [Printf] and [Println] have no gate: whatever the
    threshold, they write one record, and the severity of that record is
    the threshold of the logger itself. *)
Theorem print_call_always_writes_at_threshold `{GoLib} `{PackageDecls}
    (env : CallEnv) (logger : loc) (c : PrintCall) (st : State)
    (Hpool : pool_ok st logger) :
  returned (record_of st logger env (logger_Level (lookup_logger st logger))
                      (print_message c)) = true /\
  written (state_of (run_print env logger c st))
  = written st
    ++ [(logger_Out (lookup_logger st logger),
         record_bytes (record_of st logger env
                         (logger_Level (lookup_logger st logger)) (print_message c)))] /\
  value_of (run_print env logger c st) = Some tt.
Proof.
  rewrite run_print_emit.
  destruct (emit_spec env logger 0 (logger_Level (lookup_logger st logger))
              (print_message c) st Hpool) as (st1 & -> & Hw & _).
  cbn [state_of value_of]. rewrite Hw.
  split; [apply record_of_returned|]. split; reflexivity.
Qed.

Lemma print_call_always_writes_at_threshold_witness :
  pool_ok sample_state sample_logger /\
  written (state_of (@run_print sampleLib sampleDecls sample_env sample_logger
                       (CallPrintln [VString "hello"]) sample_state))
  = written sample_state
    ++ [(Stderr,
         record_bytes (@record_of sampleLib sampleDecls sample_state sample_logger
                         sample_env WarnLevel ("hello" +:+ LF)))].
Proof.
  split; [exact sample_state_pool_ok|].
  pose proof (@print_call_always_writes_at_threshold sampleLib sampleDecls sample_env
                sample_logger (CallPrintln [VString "hello"]) sample_state
                sample_state_pool_ok) as (_ & Hw & _).
  rewrite Hw. reflexivity.
Defined.

(** ** Defaults of [New] *)

Lemma DebugLevel_enables_all (c : SeverityCall) :
  level_ge DebugLevel (severity c) = true.
Proof. destruct c; reflexivity. Qed.

(** C2.  [New] returns a logger that writes to standard error through the
    text formatter, but its threshold is Debug, not Info: every severity
    method, [Debug] included, writes its record on a logger fresh from
    [New]. *)
Theorem New_threshold_is_Debug `{GoLib} `{PackageDecls}
    (moduleNames : list string) (st : State) :
  exists l st1,
    New moduleNames st = Ok l st1 /\
    logger_Out (lookup_logger st1 l) = Stderr /\
    logger_Formatter (lookup_logger st1 l) = new_TextFormatter /\
    logger_Level (lookup_logger st1 l) = DebugLevel /\
    logger_Level (lookup_logger st1 l) <> InfoLevel /\
    forall env c,
      written (state_of (run_severity env l c st1))
      = written st1
        ++ [(Stderr, record_bytes (record_of st1 l env (severity c) (severity_message c)))].
Proof.
  destruct (New_spec moduleNames st) as (l & st1 & Hnew & _ & Hlg & _).
  exists l, st1. split; [exact Hnew|].
  rewrite Hlg. cbn [logger_Out logger_Formatter logger_Level].
  split_and!; try reflexivity; try discriminate.
  intros env c. rewrite run_severity_gated, Hlg. cbn [logger_Level].
  rewrite DebugLevel_enables_all.
  destruct (emit_spec env l 0 (severity c) (severity_message c) st1
              (New_pool_ok moduleNames st st1 l Hnew)) as (st2 & -> & Hw & _).
  cbn [state_of]. rewrite Hw, Hlg. reflexivity.
Qed.

(** ** Entries of the pool *)




(** ** Serialization failures *)

Lemma StandardLogger_pool (st : State) :
  std_pool_ok st ->
  exists l st1,
    StandardLogger st = Ok l st1 /\ pool_ok st1 l /\ written st1 = written st.
Proof.
  unfold std_pool_ok, StandardLogger. intros Hstd.
  destruct (std st) as [l|] eqn:Estd.
  - exists l, st. split_and!; [reflexivity|assumption|reflexivity].
  - destruct (New_spec [] st) as (l & st1 & Hnew & _ & Hlg & _ & Hw & _).
    run_step. rewrite Hnew. cbn [state_of value_of]. eexists _, _.
    split; [reflexivity|]. split; [|exact Hw].
    unfold pool_ok.
    change (lookup_logger (set_loggers (loggers st1 ++ [l]) (set_std (Some l) st1)) l)
      with (lookup_logger st1 l).
    rewrite Hlg. cbn [logger_entryPool]. constructor.
Qed.

Lemma run_with_struct `{GoLib} `{PackageDecls} (env : CallEnv) (logger : loc)
    (value : Value) (st : State) :
  pool_ok st logger ->
  exists x st1,
    Logger_WithStruct env logger value st = Ok x st1 /\
    written st1 = written st /\
    struct_entry value (lookup_entry st1 x).
Proof.
  intros Hpool.
  destruct (run_with_spec env logger (CallWithStruct value) st Hpool)
    as (x & st1 & Hrun & _ & Hx & _ & _ & _ & Hw & _).
  exists x, st1. split; [exact Hrun|]. split; [exact Hw|].
  unfold lookup_entry. rewrite Hx. cbn [default].
  unfold struct_entry, with_entry. cbn [entry_Data entry_JsonRaw with_fields with_json].
  destruct (json_Marshal value) as [bs [err|]]; split; reflexivity.
Qed.

(** C6.  A failure of [json.Marshal] is recovered in both [WithStruct]s:
    the call returns an entry, writes nothing, and the entry carries the
    error as its one field, under [ErrorKey] (the JSON payload when there is
    no failure).  It is not recovered when a trace block is rendered:
    [printBlock] panics with the error, before anything is written. *)
Theorem marshal_failure_recovered_except_in_printBlock `{GoLib} `{PackageDecls}
    (env : CallEnv) (logger : loc) (value : Value) (block : TraceBlock) (st : State)
    (Hpool : pool_ok st logger) (Hstd : std_pool_ok st) :
  (exists x st1,
     Logger_WithStruct env logger value st = Ok x st1 /\
     written st1 = written st /\
     struct_entry value (lookup_entry st1 x)) /\
  (exists x st1,
     WithStruct env value st = Ok x st1 /\
     written st1 = written st /\
     struct_entry value (lookup_entry st1 x)) /\
  match json_Marshal (block_Obj block) with
  | (_, Some err) => printBlock block st = Unwind (PanicError err) st
  | (_, None) =>
      exists st1,
        printBlock block st = Ok tt st1 /\
        written st1 = written st ++ [(std_Out st, block_record block)]
  end.
Proof.
  split_and!.
  - now apply run_with_struct.
  - destruct (StandardLogger_pool st Hstd) as (l & st0 & Hl & Hpool0 & Hw0).
    destruct (run_with_struct env l value st0 Hpool0) as (x & st1 & Hrun & Hw & Hx).
    exists x, st1. split; [|split; [congruence|exact Hx]].
    rewrite <- Hrun. unfold WithStruct, Logger_WithStruct.
    destruct (json_Marshal value) as [bs [err|]];
      unfold WithError, WithJsonRaw, Logger_WithError; run_step; rewrite Hl;
      reflexivity.
  - pose proof (printBlock_spec block st) as Hprint. unfold serializable in Hprint.
    destruct (json_Marshal (block_Obj block)) as [bs [err|]].
    + destruct Hprint as (err' & Herr & Hrun). cbn [snd] in Herr. congruence.
    + destruct Hprint as (st1 & Hrun & Hw & _). now exists st1.
Qed.

Lemma marshal_failure_recovered_except_in_printBlock_witness :
  pool_ok sample_state sample_logger /\ std_pool_ok sample_state /\
  (exists x st1,
     @Logger_WithStruct sampleLib sampleDecls sample_env sample_logger (VOpaque 1)
       sample_state = Ok x st1 /\
     written st1 = written sample_state /\
     @struct_entry sampleLib sampleDecls (VOpaque 1) (lookup_entry st1 x)).
Proof.
  split; [exact sample_state_pool_ok|]. split; [exact I|].
  exact (proj1 (@marshal_failure_recovered_except_in_printBlock sampleLib sampleDecls
                  sample_env sample_logger (VOpaque 1)
                  {| block_Fields := ∅; block_Obj := VOpaque 1; block_args := [];
                     block_color := nocolor |}
                  sample_state sample_state_pool_ok I)).
Defined.

(** C6, as the spec states it, fails on the code: a trace block whose
    payload is a channel makes [printBlock], and with it [TraceEnd], panic
    with the error of [json.Marshal]; no error-valued field is rendered and
    nothing is written. *)
Lemma TraceEnd_panics_on_marshal_failure :
  let block := {| block_Fields := ∅; block_Obj := VOpaque 1;
                  block_args := [VString "request"]; block_color := nocolor |} in
  let T := {| trace_order := [red; green; yellow; blue]; trace_index := 7;
              trace_fields := ∅; trace_obj := VOpaque 1;
              trace_args := [VString "request"] |} in
  @printBlock sampleLib block initial_state
  = Unwind (PanicError "json: unsupported type: chan int") initial_state /\
  @TraceEnd sampleLib 7 (run_traces [T] initial_state)
  = Unwind (PanicError "json: unsupported type: chan int")
           (run_traces [T] initial_state).
Proof.
  vm_compute. split; reflexivity.
Qed.

(** * Further properties of the code *)

(** ** [tripHeadAndTail] at any width *)

Lemma wrap_int_in_range (z : Z) : - 2 ^ 63 <= z < 2 ^ 63 -> wrap_int z = z.
Proof.
  intros Hz. unfold wrap_int.
  rewrite Z.mod_small by lia. lia.
Qed.

(** The width [tripHeadAndTail] works with, rounded up to an even number. *)
Lemma tripHeadAndTail_width (src : string) (count : Z) :
  len src < 2 ^ 63 -> - 2 ^ 63 <= count -> count < len src ->
  (if negb (rem count 2 =? 0) then wrap_int (count + 1) else count)
  = count + Z.abs (Z.rem count 2).
Proof.
  intros Hlen Hlo Hlt. unfold rem.
  destruct (Z.rem count 2 =? 0) eqn:E; cbn [negb].
  - apply Z.eqb_eq in E. rewrite E. cbn. lia.
  - apply Z.eqb_neq in E. rewrite wrap_int_in_range by lia.
    pose proof (Z.rem_bound_abs count 2). 
    assert (Z.abs (Z.rem count 2) = 1) by lia. lia.
Qed.

(** X1.  [tripHeadAndTail] returns exactly when the value fits the width or
    the width is at least 1: with a width of 0 or less a value that does not
    fit makes one of the two slice expressions fail its bounds check. *)
Theorem tripHeadAndTail_returns_iff (src : string) (count : Z)
    (Hlen : len src < 2 ^ 63) (Hcount : - 2 ^ 63 <= count < 2 ^ 63) :
  returned (tripHeadAndTail src count) = true <-> (len src <= count \/ 1 <= count).
Proof.
  unfold tripHeadAndTail.
  destruct (Z.leb_spec (len src) count) as [Hfit|Hlong].
  - cbn. split; [intros _; now left|reflexivity].
  - rewrite (tripHeadAndTail_width src) by lia. unfold div, slice.
    pose proof (len_nonneg src) as Hnn.
    pose proof (Z.rem_bound_abs count 2) as Hrem.
    assert (Heven : count + Z.abs (Z.rem count 2)
                    = 2 * (Z.quot (count + Z.abs (Z.rem count 2)) 2))
      by (Z.to_euclidean_division_equations; lia).
    set (h := Z.quot (count + Z.abs (Z.rem count 2)) 2) in *.
    destruct (Z.leb_spec 0 h) as [H0|H0]; cbn [andb].
    + destruct (Z.leb_spec h (len src)) as [H1|H1]; [|lia]. cbn [bind].
      destruct (Z.leb_spec 0 (len src - h)) as [H2|H2]; [|lia]. cbn [andb].
      destruct (Z.leb_spec (len src - h) (len src - 1)) as [H3|H3]; cbn [andb].
      * destruct (Z.leb_spec (len src - 1) (len src)) as [H4|H4]; [|lia].
        cbn. split; [intros _; right; lia|reflexivity].
      * cbn. split; [discriminate|intros [?|?]; lia].
    + cbn. split; [discriminate|intros [?|?]; lia].
Qed.

Lemma tripHeadAndTail_returns_iff_witness :
  len "abcdef" < 2 ^ 63 /\ - 2 ^ 63 <= 0 < 2 ^ 63 /\
  (returned (tripHeadAndTail "abcdef" 0) = true <-> (len "abcdef" <= 0 \/ 1 <= 0)).
Proof.
  assert (Hlen : len "abcdef" < 2 ^ 63) by (vm_compute; reflexivity).
  assert (Hcount : - 2 ^ 63 <= 0 < 2 ^ 63) by lia.
  split; [exact Hlen|]. split; [exact Hcount|].
  exact (tripHeadAndTail_returns_iff "abcdef" 0 Hlen Hcount).
Defined.

(** X2.  For a width of at least 1 and a value that does not fit it:
    [tripHeadAndTail] keeps the first [h] bytes and the [h - 1] bytes before
    the last one, [h] being half the width rounded up.  The last byte of
    the value is dropped and the result is 2 or 3 bytes longer than the
    width. *)
Theorem tripHeadAndTail_cut (src : string) (count : Z)
    (Hcount : 1 <= count) (Hlong : count < len src) (Hlen : len src < 2 ^ 63) :
  exists shown,
    tripHeadAndTail src count = Returned shown /\
    shown = substring 0 (Z.to_nat ((count + 1) / 2)) src +:+ "..."
            +:+ substring (String.length src - Z.to_nat ((count + 1) / 2))
                          (Z.to_nat ((count + 1) / 2) - 1) src /\
    len shown = 2 * ((count + 1) / 2) + 2 /\
    count + 2 <= len shown <= count + 3.
Proof.
  pose proof (len_nonneg src) as Hnn.
  assert (Hh : Z.quot (count + Z.abs (Z.rem count 2)) 2 = (count + 1) / 2)
    by (Z.to_euclidean_division_equations; lia).
  assert (Hhalf : 1 <= (count + 1) / 2 <= len src)
    by (Z.to_euclidean_division_equations; lia).
  eexists. split.
  - unfold tripHeadAndTail.
    destruct (Z.leb_spec (len src) count) as [Hfit|_]; [lia|].
    rewrite (tripHeadAndTail_width src) by lia. unfold div. rewrite Hh.
    rewrite !slice_in_range by lia. cbn [bind]. reflexivity.
  - assert (Hnat : (Z.to_nat ((count + 1) / 2) <= String.length src)%nat)
      by (unfold len in Hhalf; lia).
    replace (Z.to_nat (len src - (count + 1) / 2))
      with (String.length src - Z.to_nat ((count + 1) / 2))%nat
      by (unfold len; lia).
    replace (Z.to_nat (len src - 1 - (len src - (count + 1) / 2)))
      with (Z.to_nat ((count + 1) / 2) - 1)%nat by lia.
    replace (Z.to_nat ((count + 1) / 2 - 0)) with (Z.to_nat ((count + 1) / 2)) by lia.
    split; [reflexivity|].
    assert (Hl : len (substring 0 (Z.to_nat ((count + 1) / 2)) src +:+ "..."
                      +:+ substring (String.length src - Z.to_nat ((count + 1) / 2))
                            (Z.to_nat ((count + 1) / 2) - 1) src)
                 = 2 * ((count + 1) / 2) + 2).
    { unfold len. rewrite !length_append, !length_substring. cbn [String.length].
      lia. }
    change (Z.to_nat 0) with 0%nat.
    split; [exact Hl|]. rewrite Hl. Z.to_euclidean_division_equations; lia.
Qed.

Lemma tripHeadAndTail_cut_witness :
  1 <= 5 /\ 5 < len "abcdefghij" /\
  exists shown,
    tripHeadAndTail "abcdefghij" 5 = Returned shown /\ len shown = 2 * ((5 + 1) / 2) + 2.
Proof.
  assert (Hlong : 5 < len "abcdefghij") by (vm_compute; reflexivity).
  assert (Hlen : len "abcdefghij" < 2 ^ 63) by (vm_compute; reflexivity).
  split; [lia|]. split; [exact Hlong|].
  destruct (tripHeadAndTail_cut "abcdefghij" 5 ltac:(lia) Hlong Hlen)
    as (shown & Hrun & _ & Hl & _).
  exists shown. split; [exact Hrun|exact Hl].
Defined.

(** ** [needsQuoting] *)

(** X3.  [needsQuoting] holds exactly of the texts with a byte outside letters,
    digits, [-] and [.]; so it holds of a concatenation exactly when it
    holds of one of the parts, and never of the empty text. *)
Theorem needsQuoting_spec (s1 s2 : string) :
  (needsQuoting s1 = true <->
   exists ch, In ch (list_ascii_of_string s1) /\ quoting_free ch = false) /\
  needsQuoting (s1 +:+ s2) = needsQuoting s1 || needsQuoting s2 /\
  needsQuoting "" = false.
Proof.
  split_and!; [| |reflexivity].
  - induction s1 as [|ch s1 IH]; cbn [needsQuoting list_ascii_of_string In].
    + split; [discriminate|intros (? & [] & _)].
    + destruct (quoting_free ch) eqn:E; cbn [negb].
      * rewrite IH. split.
        -- intros (c & Hin & Hc). exists c. split; [now right|exact Hc].
        -- intros (c & [<-|Hin] & Hc); [congruence|]. now exists c.
      * split; [intros _; exists ch; split; [now left|exact E]|reflexivity].
  - induction s1 as [|ch s1 IH]; cbn [needsQuoting String.append];
      [reflexivity|].
    change (String ch s1 +:+ s2) with (String ch (s1 +:+ s2)).
    cbn [needsQuoting]. destruct (quoting_free ch); cbn [negb orb]; [exact IH|reflexivity].
Qed.

(** ** The text formatter and the block printer *)

Section RenderingFacts.
Context `{GoLib} `{PackageDecls}.

(** X4.  [Format] never panics and never returns an error: on every input
    the result is the content the buffer of the entry already had, the
    rendered record and a final newline.  With [DisableColors] set, neither
    [ForceColors], the terminal, [miniTS()] nor the call depth has a say. *)
Theorem Format_always_renders (f : TextFormatter) (sinceStart : Z)
    (entry : FormatterInput) (callDepth : Z) :
  (exists body,
     Format f sinceStart entry callDepth
     = Returned (default "" (GetBuffer entry) +:+ body +:+ LF, None)) /\
  (DisableColors f = true ->
   forall force sinceStart' callDepth',
     Format {| ForceColors := force; DisableColors := true;
               DisableTimestamp := DisableTimestamp f;
               FullTimestamp := FullTimestamp f;
               TimestampFormat := TimestampFormat f;
               DisableSorting := DisableSorting f |} sinceStart' entry callDepth'
     = Format f sinceStart entry callDepth).
Proof.
  split.
  - unfold Format, printColored.
    set (keys := if negb (DisableSorting f) then _ else _).
    destruct (format_each_returns (format_field (prefixFieldClashes (GetData entry))) keys
                (format_field_returns _)) as [plain ->].
    destruct (format_each_returns
                (printColored_field (prefixFieldClashes (GetData entry)))
                keys (printColored_field_returns _)) as [coloured ->].
    destruct ((ForceColors f || isTerminal && negb (GOOS =? "windows")%string)
              && negb (DisableColors f)); cbn [bind];
      destruct (GetBuffer entry); cbn [default]; eauto.
  - intros Hoff force sinceStart' callDepth'. unfold Format.
    cbn [ForceColors DisableColors DisableSorting TimestampFormat].
    rewrite Hoff. cbn [negb]. now rewrite !andb_false_r.
Qed.

(** X5.  [printBlock] cuts a long field value differently from [Format]: a
    value of more than 128 bytes is shown as its first 128 bytes and an
    ellipsis, 131 bytes in all; a shorter one is shown whole.  The slice
    never fails. *)
Theorem printBlock_field_truncates (block : TraceBlock) (k : string) :
  exists shown,
    printBlock_field block k
    = Returned (LF +:+ "     " +:+ ESC +:+ "[" +:+ fmt_d (block_color block) +:+ "m- "
                +:+ pad_right 8 k +:+ " = " +:+ shown +:+ " " +:+ ESC +:+ "[0m") /\
    (len (fmt_plus_v (index_fields (block_Fields block) k)) <= 128 ->
     shown = fmt_plus_v (index_fields (block_Fields block) k)) /\
    (128 < len (fmt_plus_v (index_fields (block_Fields block) k)) ->
     shown = substring 0 128 (fmt_plus_v (index_fields (block_Fields block) k)) +:+ "..."
     /\ len shown = 131).
Proof.
  unfold printBlock_field.
  set (value := fmt_plus_v (index_fields (block_Fields block) k)).
  destruct (Z.ltb_spec 128 (len value)) as [Hlong|Hshort].
  - rewrite slice_in_range by lia. cbn [bind].
    eexists. split; [reflexivity|]. split; [lia|]. intros _.
    split; [reflexivity|].
    unfold len in *. rewrite length_append, length_substring. cbn [String.length].
    change (Z.to_nat (128 - 0)) with 128%nat. lia.
  - cbn [bind]. eexists. split; [reflexivity|]. split; [reflexivity|lia].
Qed.

End RenderingFacts.

Lemma Format_always_renders_witness :
  let f := {| ForceColors := true; DisableColors := true; DisableTimestamp := false;
              FullTimestamp := false; TimestampFormat := ""; DisableSorting := false |} in
  let entry := {| GetData := {[ "module" := VString "app" ]}; GetBuffer := Some "kept ";
                  GetJsonRaw := None; GetTime := 0; GetLevel := InfoLevel;
                  GetMessage := "up" |} in
  (exists body,
     @Format sampleLib sampleDecls f 7 entry 0
     = Returned ("kept " +:+ body +:+ LF, None)) /\
  @Format sampleLib sampleDecls
    {| ForceColors := false; DisableColors := true; DisableTimestamp := false;
       FullTimestamp := false; TimestampFormat := ""; DisableSorting := false |}
    99 entry 6
  = @Format sampleLib sampleDecls f 7 entry 0.
Proof.
  intros f entry.
  destruct (@Format_always_renders sampleLib sampleDecls f 7 entry 0) as [Hbody Hoff].
  split; [exact Hbody|]. exact (Hoff eq_refl false 99 6).
Defined.

(** ** Invariants of the trace registry *)

Section RegistryFacts.
Context `{GoLib} `{PackageDecls}.

(** X6.  [Trace] only buffers: however many calls are made, nothing is
    written; each channel holds one block per call made on it, and every
    block of a channel carries the colour its chain was created with. *)
Theorem Trace_only_buffers (cs : list TraceCall) (index : Z) :
  written (run_traces cs initial_state) = [] /\
  length (channel_blocks (run_traces cs initial_state) index)
  = length (filter (fun c => trace_index c = index) cs) /\
  Forall (fun b => block_color b = channel_color (run_traces cs initial_state) index)
         (channel_blocks (run_traces cs initial_state) index).
Proof.
  destruct (run_traces_frame cs initial_state) as [Hw _].
  pose proof (run_traces_blocks cs index initial_state) as Hb.
  change (channel_blocks initial_state index) with (@nil TraceBlock) in Hb.
  cbn [app] in Hb. rewrite Hb. unfold appended.
  split; [exact Hw|]. split; [now rewrite length_map|].
  apply Forall_forall. intros b Hin. apply list_elem_of_fmap in Hin as (c & -> & _).
  reflexivity.
Qed.

Lemma run_trace_exhausted (c : TraceCall) (st : State) :
  exhausted (colors st) ->
  colors (run_trace c st) = colors st /\
  (chains st !! trace_index c = None ->
   channel_color (run_trace c st) (trace_index c) = nocolor).
Proof.
  intros Hex. destruct (chains st !! trace_index c) as [chain|] eqn:E.
  - split; [|discriminate].
    destruct (Trace_spec (trace_order c) (trace_index c) (trace_fields c) (trace_obj c)
                (trace_args c) st) as (st1 & Hrun & _ & _ & _ & _ & _ & Hsame & _).
    unfold run_trace. rewrite Hrun. cbn [state_of]. apply Hsame. now rewrite E.
  - destruct (run_trace_new_chain c st E) as [Hcol Hcols].
    rewrite claim_color_exhausted in Hcol, Hcols by exact Hex.
    split; [exact Hcols|]. intros _. exact Hcol.
Qed.

Lemma first_Trace_exhausts (c : TraceCall) :
  trace_order c ≡ₚ palette -> exhausted (colors (run_trace c initial_state)).
Proof.
  intros Horder color.
  destruct (run_trace_new_chain c initial_state (lookup_empty _)) as [_ ->].
  apply claim_color_marks.
  destruct (decide (color ∈ palette)) as [Hin|Hout].
  - left. now rewrite Horder.
  - right. cbn [snd]. now rewrite initial_colors_unused.
Qed.

(** X7.  No colour is ever given back.  Once the table is exhausted, no
    sequence of [Trace] calls and no [TraceEnd] changes it, and every
    channel created from then on has no colour. *)
Theorem exhausted_colors_stay_exhausted (cs : list TraceCall) (index : Z) (st : State)
    (Hex : exhausted (colors st)) :
  colors (run_traces cs st) = colors st /\
  colors (state_of (TraceEnd index (run_traces cs st))) = colors st /\
  (chains st !! index = None -> channel_color (run_traces cs st) index = nocolor).
Proof.
  revert st Hex. induction cs as [|c cs IH]; intros st Hex.
  - cbn [run_traces fold_left].
    destruct (TraceEnd_spec index st) as (_ & _ & Hc & _).
    split; [reflexivity|]. split; [exact Hc|].
    intros Hnone. unfold channel_color. now rewrite Hnone.
  - change (run_traces (c :: cs) st) with (run_traces cs (run_trace c st)).
    destruct (run_trace_exhausted c st Hex) as [Hcols Hnew].
    assert (Hex' : exhausted (colors (run_trace c st))) by now rewrite Hcols.
    destruct (IH _ Hex') as (H1 & H2 & H3).
    split; [congruence|]. split; [congruence|].
    intros Hnone. destruct (decide (trace_index c = index)) as [<-|Hne].
    + specialize (Hnew Hnone).
      destruct (run_trace_spec c st) as (_ & _ & _ & _ & _ & _ & Hsome).
      destruct (channel_color_stable cs (trace_index c) (run_trace c st) Hsome)
        as [Hstable _].
      now rewrite Hstable.
    + apply H3.
      destruct (run_trace_spec c st) as (_ & _ & _ & _ & Hother & _).
      rewrite Hother by congruence. exact Hnone.
Qed.

End RegistryFacts.

Lemma exhausted_colors_stay_exhausted_witness :
  let call (index : Z) :=
    {| trace_order := [red; green; yellow; blue]; trace_index := index;
       trace_fields := ∅; trace_obj := VNil; trace_args := [] |} in
  let st := run_trace (call 0) initial_state in
  exhausted (colors st) /\
  colors (run_traces [call 1; call 0; call 2] st) = colors st /\
  channel_color (run_traces [call 1; call 0; call 2] st) 2 = nocolor.
Proof.
  intros call st.
  assert (Hex : exhausted (colors st))
    by (apply (first_Trace_exhausts (call 0)); reflexivity).
  split; [exact Hex|].
  destruct (@exhausted_colors_stay_exhausted sampleLib
              [call 1; call 0; call 2] 2 st Hex) as (Hcols & _ & Hnew).
  split; [exact Hcols|]. apply Hnew. vm_compute. reflexivity.
Defined.

(** ** The wrappers of [Trace] *)

Section WrapperFacts.
Context `{GoLib} `{PackageDecls}.
Variable slice_value : list Value -> Value.

(** X8.  The default channel is channel 0: [TraceDefault] and
    [TraceEndDefault] do what [Trace] and [TraceEnd] do at index 0.  Each
    of the single-purpose wrappers queues one block on its channel whose
    argument list has exactly one element, a nil for [TraceWithStruct] and
    [TraceFileds] and the whole slice for [TraceArgs], however many
    arguments the caller gave. *)
Theorem Trace_wrappers_queue_one_argument (order : list Z) (index : Z)
    (fields : Fields) (obj : Value) (args : list Value) (st : State) :
  TraceDefault order fields obj args st = Trace order 0 fields obj args st /\
  TraceEndDefault st = TraceEnd 0 st /\
  (exists color,
     channel_blocks (state_of (TraceWithStruct order index obj st)) index
     = channel_blocks st index
       ++ [{| block_Fields := ∅; block_Obj := obj; block_args := [VNil];
              block_color := color |}]) /\
  (exists color,
     channel_blocks (state_of (TraceFileds order index fields st)) index
     = channel_blocks st index
       ++ [{| block_Fields := fields; block_Obj := VNil; block_args := [VNil];
              block_color := color |}]) /\
  (exists color,
     channel_blocks (state_of (TraceArgs slice_value order index args st)) index
     = channel_blocks st index
       ++ [{| block_Fields := ∅; block_Obj := VNil;
              block_args := [slice_value args]; block_color := color |}]) /\
  TraceWithStructDefault order obj st = TraceWithStruct order 0 obj st /\
  TraceFiledsDefault order fields st = TraceFileds order 0 fields st /\
  TraceArgsDefault slice_value order args st = TraceArgs slice_value order 0 args st.
Proof.
  split; [reflexivity|]. split; [reflexivity|].
  unfold TraceWithStruct, TraceFileds, TraceArgs.
  split_and!; try reflexivity.
  - destruct (Trace_spec order index ∅ obj [VNil] st) as (st1 & -> & _ & _ & _ & Hb & _).
    cbn [state_of]. rewrite Hb. eexists. reflexivity.
  - destruct (Trace_spec order index fields VNil [VNil] st)
      as (st1 & -> & _ & _ & _ & Hb & _).
    cbn [state_of]. rewrite Hb. eexists. reflexivity.
  - destruct (Trace_spec order index ∅ VNil [slice_value args] st)
      as (st1 & -> & _ & _ & _ & Hb & _).
    cbn [state_of]. rewrite Hb. eexists. reflexivity.
Qed.

End WrapperFacts.

(** ** The standard logger and the package-level functions *)

Lemma StandardLogger_full (st : State) :
  exists l st1,
    StandardLogger st = Ok l st1 /\
    std st1 = Some l /\ written st1 = written st /\ eheap st1 = eheap st /\
    (forall l', l' <> l -> lheap st1 !! l' = lheap st !! l') /\
    match std st with
    | Some l0 => l = l0 /\ st1 = st
    | None =>
        lheap st !! l = None /\
        lookup_logger st1 l
        = {| logger_Out := Stderr; logger_Formatter := new_TextFormatter;
             logger_Level := DebugLevel; logger_mu := {| disabled := false |};
             logger_entryPool := []; logger_moduleName := "main" |} /\
        loggers st1 = loggers st ++ [l; l]
    end.
Proof.
  unfold StandardLogger. destruct (std st) as [l0|] eqn:Estd.
  - exists l0, st. split_and!; auto.
  - destruct (New_spec [] st) as (l & st1 & Hnew & Hfresh & Hlg & He & Hw & Hls & Hstd).
    run_step. rewrite Hnew. cbn [state_of value_of].
    eexists _, _. split; [reflexivity|]. cbn [std set_std set_loggers written eheap lheap].
    split; [reflexivity|]. split; [exact Hw|]. split; [exact He|]. split.
    { intros l' Hne. unfold New in Hnew. injection Hnew as <- <-.
      cbn [lheap set_loggers set_lheap]. now rewrite lookup_insert_ne. }
    split; [exact Hfresh|]. split; [exact Hlg|].
    rewrite Hls, <- app_assoc. reflexivity.
Qed.

(** X9.  [StandardLogger] is a lazy singleton.  The first call makes the logger
    with the defaults of [New()], named [main], and enters it in the list
    of loggers twice, once in [New] and once more itself; every later call
    returns the same logger and changes nothing. *)
Theorem StandardLogger_is_lazy_singleton (st : State) :
  exists l st1,
    StandardLogger st = Ok l st1 /\
    StandardLogger st1 = Ok l st1 /\
    match std st with
    | Some l0 => l = l0 /\ st1 = st
    | None =>
        lheap st !! l = None /\
        logger_moduleName (lookup_logger st1 l) = "main" /\
        logger_Level (lookup_logger st1 l) = DebugLevel /\
        logger_Out (lookup_logger st1 l) = Stderr /\
        loggers st1 = loggers st ++ [l; l]
    end.
Proof.
  destruct (StandardLogger_full st) as (l & st1 & Hrun & Hstd & _ & _ & _ & Hcase).
  exists l, st1. split; [exact Hrun|].
  split; [unfold StandardLogger; now rewrite Hstd|].
  destruct (std st) as [l0|]; [exact Hcase|].
  destruct Hcase as (Hfresh & -> & Hls). now split_and!.
Qed.

Lemma SetOutput_each_spec (out : Writer) (ls : list loc) :
  forall st,
    exists st1,
      zlog.SetOutput_each ls out st = Ok tt st1 /\
      written st1 = written st /\ eheap st1 = eheap st /\
      loggers st1 = loggers st /\ std st1 = std st /\
      (forall l, l ∈ ls -> lookup_logger st1 l = with_Out out (lookup_logger st l)) /\
      (forall l, l ∉ ls -> lheap st1 !! l = lheap st !! l).
Proof.
  induction ls as [|a ls IH]; intros st.
  - exists st. cbn [zlog.SetOutput_each]. unfold ret.
    split_and!; try reflexivity. intros l Hl. inversion Hl.
  - cbn [zlog.SetOutput_each]. unfold Logger_SetOutput, update_logger. run_step.
    set (st' := set_lheap _ st).
    destruct (IH st') as (st1 & Hrun & Hw & He & Hls & Hstd & Hin & Hout).
    exists st1. split; [exact Hrun|].
    assert (Ha : lookup_logger st' a = with_Out out (lookup_logger st a))
      by (apply (lookup_logger_insert _ _ _ (lheap st)); reflexivity).
    assert (Hother : forall l, l <> a -> lheap st' !! l = lheap st !! l)
      by (intros l Hne; unfold st'; cbn [lheap set_lheap]; now rewrite lookup_insert_ne).
    split_and!; try assumption.
    + intros l Hl. destruct (decide (l ∈ ls)) as [Hls'|Hnot].
      * rewrite (Hin l Hls'). destruct (decide (l = a)) as [->|Hne].
        -- rewrite Ha. reflexivity.
        -- unfold lookup_logger at 1. rewrite (Hother l Hne). reflexivity.
      * assert (l = a) as -> by (apply elem_of_cons in Hl as [?|?]; tauto).
        unfold lookup_logger at 1. rewrite (Hout a Hnot). exact Ha.
    + intros l Hl. rewrite Hout by (intros ?; apply Hl; now right).
      apply Hother. intros ->. apply Hl. now left.
Qed.

(** X10.  The package-level [SetOutput] redirects every logger made so far, by
    [New] or as the standard logger, and changes nothing else of them; it
    writes nothing.  A logger made afterwards is not covered: it writes to
    standard error again. *)
Theorem SetOutput_redirects_registered_loggers (out : Writer) (st : State) :
  exists st1,
    zlog.SetOutput out st = Ok tt st1 /\
    written st1 = written st /\ loggers st1 = loggers st /\
    (forall l, l ∈ loggers st ->
       logger_Out (lookup_logger st1 l) = out /\
       logger_Level (lookup_logger st1 l) = logger_Level (lookup_logger st l) /\
       logger_Formatter (lookup_logger st1 l) = logger_Formatter (lookup_logger st l) /\
       logger_entryPool (lookup_logger st1 l) = logger_entryPool (lookup_logger st l) /\
       logger_moduleName (lookup_logger st1 l) = logger_moduleName (lookup_logger st l)) /\
    (forall l, l ∉ loggers st -> lheap st1 !! l = lheap st !! l) /\
    (forall names, exists l st2,
       New names st1 = Ok l st2 /\ l ∈ loggers st2 /\
       logger_Out (lookup_logger st2 l) = Stderr) /\
    (forall names0 st0 l, New names0 st0 = Ok l st -> logger_Out (lookup_logger st1 l) = out).
Proof.
  destruct (SetOutput_each_spec out (loggers st) st)
    as (st1 & Hrun & Hw & _ & Hls & _ & Hin & Hout).
  exists st1. split; [unfold zlog.SetOutput; run_step; exact Hrun|].
  assert (Hall : forall l, l ∈ loggers st -> logger_Out (lookup_logger st1 l) = out)
    by (intros l Hl; now rewrite (Hin l Hl)).
  split_and!; try assumption.
  - intros l Hl. rewrite (Hin l Hl). now split_and!.
  - intros names. destruct (New_spec names st1) as (l & st2 & Hnew & _ & Hlg & _ & _ & Hls2 & _).
    exists l, st2. split; [exact Hnew|]. split; [rewrite Hls2; set_solver|].
    now rewrite Hlg.
  - intros names0 st0 l Hnew. apply Hall.
    destruct (New_spec names0 st0) as (l' & st' & Hnew' & _ & _ & _ & _ & Hls' & _).
    rewrite Hnew' in Hnew. injection Hnew as -> ->. rewrite Hls'. set_solver.
Qed.

(** X11.  The package-level [SetLevel] sets the threshold of the standard logger,
    which it creates when there is none, and [GetLevel] reads it back.  No
    other logger is touched and nothing is written. *)
Theorem SetLevel_then_GetLevel (level : Level) (st : State) :
  exists l st1,
    zlog.SetLevel level st = Ok tt st1 /\
    std st1 = Some l /\
    zlog.GetLevel st1 = Ok level st1 /\
    written st1 = written st /\
    (forall l', l' <> l -> lheap st1 !! l' = lheap st !! l') /\
    (forall l0, std st = Some l0 -> l = l0).
Proof.
  destruct (StandardLogger_full st) as (l & st0 & Hrun & Hstd & Hw & _ & Hother & Hcase).
  unfold zlog.SetLevel, zlog.GetLevel, Logger_SetLevel, update_logger. run_step.
  rewrite Hrun. cbn [state_of value_of].
  eexists l, _. split; [reflexivity|].
  cbn [std set_lheap written lheap].
  split; [exact Hstd|]. split.
  - unfold StandardLogger. cbn [std set_lheap]. rewrite Hstd. cbn [state_of value_of].
    rewrite lookup_logger_set_lheap. reflexivity.
  - split; [exact Hw|]. split.
    + intros l' Hne. rewrite lookup_insert_ne by congruence. now apply Hother.
    + intros l0 Hl0. rewrite Hl0 in Hcase. tauto.
Qed.

(** ** Ungated methods and package-level logging *)

Section UngatedFacts.
Context `{GoLib} `{PackageDecls}.

Lemma run_mark_as_emit (env : CallEnv) (logger : loc) (c : MarkCall) (st : State) :
  exists callDepth,
    run_mark env logger c st
    = emit env logger callDepth (mark_level c) (mark_message c) st.
Proof.
  destruct c;
    [exists loggerDefaultCallDepth|exists loggerDefaultCallDepth|exists 0..];
    reflexivity.
Qed.

(** X12.  [Highlight], [Pass], [Failed], [Success] and their [f] forms have no
    gate: whatever the threshold of the logger, each writes one record, at
    Error level for [Highlight] and [Failed] and at Info level for [Pass]
    and [Success], the latter three with their tag in front of the
    message.  The configuration of the logger stays as it was. *)
Theorem mark_call_always_writes (env : CallEnv) (logger : loc) (c : MarkCall)
    (st : State) (Hpool : pool_ok st logger) :
  value_of (run_mark env logger c st) = Some tt /\
  written (state_of (run_mark env logger c st))
  = written st
    ++ [(logger_Out (lookup_logger st logger),
         record_bytes (record_of st logger env (mark_level c) (mark_message c)))] /\
  config (lookup_logger (state_of (run_mark env logger c st)) logger)
  = config (lookup_logger st logger).
Proof.
  destruct (run_mark_as_emit env logger c st) as [callDepth ->].
  destruct (emit_spec env logger callDepth (mark_level c) (mark_message c) st Hpool)
    as (st1 & -> & Hw & _ & Hconf & _).
  cbn [state_of value_of]. now split_and!.
Qed.

Lemma StandardLogger_threshold (st st1 : State) (l : loc) :
  StandardLogger st = Ok l st1 ->
  logger_Level (lookup_logger st1 l) = std_Level st /\
  logger_Out (lookup_logger st1 l) = std_Out st.
Proof.
  intros Hrun.
  destruct (StandardLogger_full st) as (l' & st' & Hrun' & _ & _ & _ & _ & Hcase).
  rewrite Hrun' in Hrun. injection Hrun as -> ->.
  unfold std_Level, std_Out. destruct (std st) as [l0|].
  - destruct Hcase as [-> ->]. now split.
  - destruct Hcase as (_ & -> & _). now split.
Qed.


End UngatedFacts.

Lemma mark_call_always_writes_witness :
  pool_ok sample_state sample_logger /\
  logger_Level (lookup_logger sample_state sample_logger) = WarnLevel /\
  written (state_of (@run_mark sampleLib sampleDecls sample_env sample_logger
                       (CallPass [VString "step 1"]) sample_state))
  = written sample_state
    ++ [(Stderr,
         record_bytes (@record_of sampleLib sampleDecls sample_state sample_logger
                         sample_env InfoLevel "[PASS]step 1"))].
Proof.
  split; [exact sample_state_pool_ok|]. split; [vm_compute; reflexivity|].
  destruct (@mark_call_always_writes sampleLib sampleDecls sample_env sample_logger
              (CallPass [VString "step 1"]) sample_state sample_state_pool_ok)
    as (_ & Hw & _).
  rewrite Hw. reflexivity.
Defined.


(** ** Long strings split into fields *)

Lemma append_cancel_l (p a b : string) : p +:+ a = p +:+ b -> a = b.
Proof.
  induction p as [|ch p IH]; cbn; [auto|]. intros [= Heq]. now apply IH.
Qed.

Lemma fmt_d_inj (a b : Z) : fmt_d a = fmt_d b -> a = b.
Proof.
  unfold fmt_d. intros Heq.
  assert (Hnonnil : forall z, Z.to_int z <> Decimal.Pos Decimal.Nil /\
                              Z.to_int z <> Decimal.Neg Decimal.Nil).
  { intros z. destruct z; cbn; split; try discriminate; intros [= E];
      now apply DecimalPos.Unsigned.to_uint_nonnil in E. }
  pose proof (NilZero.isi (Z.to_int a) (proj1 (Hnonnil a)) (proj2 (Hnonnil a))) as Ha.
  pose proof (NilZero.isi (Z.to_int b) (proj1 (Hnonnil b)) (proj2 (Hnonnil b))) as Hb.
  rewrite Heq, Hb in Ha. injection Ha as Ha.
  rewrite <- (DecimalZ.of_to a), <- (DecimalZ.of_to b). now rewrite Ha.
Qed.

Lemma line_key_inj (key : string) (a b : Z) :
  key +:+ "-" +:+ fmt_d a = key +:+ "-" +:+ fmt_d b -> a = b.
Proof.
  intros Heq. apply append_cancel_l in Heq. apply (append_cancel_l "-") in Heq.
  now apply fmt_d_inj.
Qed.

Lemma lines_to_fields_lookup (key : string) (lns : list string) :
  forall (start : Z) (fields : Fields) (i : Z),
    lines_to_fields key start lns fields !! (key +:+ "-" +:+ fmt_d i)
    = if (start <=? i) && (i <? start + Z.of_nat (length lns))
      then match lns !! Z.to_nat (i - start) with
           | Some ln =>
               if len ln <=? 0 then fields !! (key +:+ "-" +:+ fmt_d i)
               else Some (VString ln)
           | None => None
           end
      else fields !! (key +:+ "-" +:+ fmt_d i).
Proof.
  induction lns as [|ln lns IH]; intros start fields i; cbn [lines_to_fields length].
  - destruct (Z.leb_spec start i), (Z.ltb_spec i (start + Z.of_nat 0));
      cbn [andb]; try reflexivity; lia.
  - assert (Hstep : forall fields',
              (i <> start -> fields' !! (key +:+ "-" +:+ fmt_d i)
                             = fields !! (key +:+ "-" +:+ fmt_d i)) ->
              (i = start -> fields' !! (key +:+ "-" +:+ fmt_d i)
                            = if len ln <=? 0 then fields !! (key +:+ "-" +:+ fmt_d i)
                              else Some (VString ln)) ->
              lines_to_fields key (start + 1) lns fields' !! (key +:+ "-" +:+ fmt_d i)
              = if (start <=? i) && (i <? start + Z.of_nat (S (length lns)))
                then match (ln :: lns) !! Z.to_nat (i - start) with
                     | Some ln0 =>
                         if len ln0 <=? 0 then fields !! (key +:+ "-" +:+ fmt_d i)
                         else Some (VString ln0)
                     | None => None
                     end
                else fields !! (key +:+ "-" +:+ fmt_d i)).
    { intros fields' Hne Heq. rewrite IH.
      destruct (Z.eq_dec i start) as [->|Hi].
      - destruct (Z.leb_spec (start + 1) start); [lia|]. cbn [andb].
        destruct (Z.leb_spec start start); [|lia].
        destruct (Z.ltb_spec start (start + Z.of_nat (S (length lns)))); [|lia].
        cbn [andb]. rewrite Z.sub_diag. cbn [Z.to_nat lookup list_lookup].
        now apply Heq.
      - rewrite (Hne Hi).
        destruct (Z.leb_spec (start + 1) i), (Z.leb_spec start i),
          (Z.ltb_spec i (start + 1 + Z.of_nat (length lns))),
          (Z.ltb_spec i (start + Z.of_nat (S (length lns))));
          cbn [andb]; try reflexivity; try lia.
        replace (Z.to_nat (i - start)) with (S (Z.to_nat (i - (start + 1)))) by lia.
        reflexivity. }
    destruct (Z.leb_spec (len ln) 0) as [Hempty|Hfull].
    + apply Hstep; [reflexivity|]. intros _.
      destruct (Z.leb_spec (len ln) 0); [reflexivity|lia].
    + apply Hstep.
      * intros Hi. rewrite lookup_insert_ne; [reflexivity|].
        intros Heq. apply line_key_inj in Heq. congruence.
      * intros ->. rewrite lookup_insert_eq.
        destruct (Z.leb_spec (len ln) 0); [lia|reflexivity].
Qed.

Lemma lines_to_fields_keys (key : string) (lns : list string) :
  forall (start : Z) (fields : Fields) (k : string) (v : Value),
    lines_to_fields key start lns fields !! k = Some v ->
    fields !! k = Some v \/
    exists (n : nat) (ln : string),
      k = key +:+ "-" +:+ fmt_d (start + Z.of_nat n) /\ lns !! n = Some ln /\
      v = VString ln /\ 0 < len ln.
Proof.
  induction lns as [|ln lns IH]; intros start fields k v; cbn [lines_to_fields].
  - now left.
  - destruct (Z.leb_spec (len ln) 0) as [Hempty|Hfull]; intros Hk;
      apply IH in Hk as [Hk|(n & ln' & -> & Hn & -> & Hlen)].
    + now left.
    + right. exists (S n), ln'. split_and!; auto. do 3 f_equal. lia.
    + apply lookup_insert_Some in Hk as [[<- <-]|[_ Hk]]; [|now left].
      right. exists 0%nat, ln. split_and!; auto. now rewrite Z.add_0_r.
    + right. exists (S n), ln'. split_and!; auto. do 3 f_equal. lia.
Qed.

Section SplitFacts.
Context `{GoLib} `{PackageDecls}.

(** X14.  The entry [Logger.WithLongString] returns holds the pieces of the
    split string by position: piece [i] is the field [key-i] when it is not
    empty, an empty piece leaves its position out (the numbering does not
    close up), and there is no other field.  Nothing is written.
    [WithMultiLines] is the same with the newline as separator. *)
Theorem WithLongString_fields_by_position (env : CallEnv) (logger : loc)
    (key longStr sep : string) (st : State) (Hpool : pool_ok st logger) :
  Logger_WithMultiLines env logger key longStr st
  = Logger_WithLongString env logger key longStr LF st /\
  exists x st1,
    Logger_WithLongString env logger key longStr sep st = Ok x st1 /\
    written st1 = written st /\
    (forall i,
       0 <= i ->
       entry_Data (lookup_entry st1 x) !! (key +:+ "-" +:+ fmt_d i)
       = match strings_Split longStr sep !! Z.to_nat i with
         | Some ln => if len ln <=? 0 then None else Some (VString ln)
         | None => None
         end) /\
    (forall k v,
       entry_Data (lookup_entry st1 x) !! k = Some v ->
       exists (n : nat) (ln : string),
         k = key +:+ "-" +:+ fmt_d (Z.of_nat n) /\
         strings_Split longStr sep !! n = Some ln /\ v = VString ln /\ 0 < len ln).
Proof.
  split; [reflexivity|].
  destruct (run_with_spec env logger (CallWithLongString key longStr sep) st Hpool)
    as (x & st1 & Hrun & _ & Hx & _ & _ & _ & Hw & _).
  exists x, st1. split; [exact Hrun|]. split; [exact Hw|].
  assert (He : lookup_entry st1 x
               = with_entry logger (logger_moduleName (lookup_logger st logger))
                   (CallWithLongString key longStr sep))
    by (unfold lookup_entry; now rewrite Hx).
  rewrite He. cbn [with_entry entry_Data with_fields].
  split.
  - intros i Hi. rewrite lines_to_fields_lookup.
    destruct (Z.leb_spec 0 i); [|lia]. cbn [andb]. rewrite Z.sub_0_r.
    destruct (Z.ltb_spec i (0 + Z.of_nat (length (strings_Split longStr sep))))
      as [Hin|Hout].
    + destruct (strings_Split longStr sep !! Z.to_nat i) as [ln|]; [|reflexivity].
      now rewrite lookup_empty.
    + rewrite lookup_empty. rewrite (proj2 (lookup_ge_None _ _)) by lia. reflexivity.
  - intros k v Hk. apply lines_to_fields_keys in Hk as [Hk|Hk].
    + now rewrite lookup_empty in Hk.
    + destruct Hk as (n & ln & -> & Hn & -> & Hlen). exists n, ln.
      now rewrite Z.add_0_l.
Qed.

End SplitFacts.

Lemma WithLongString_fields_by_position_witness :
  pool_ok sample_state sample_logger /\
  exists x st1,
    @Logger_WithLongString sampleLib sample_env sample_logger "part" "a,b" ","
      sample_state = Ok x st1 /\
    written st1 = written sample_state.
Proof.
  split; [exact sample_state_pool_ok|].
  destruct (@WithLongString_fields_by_position sampleLib sampleDecls sample_env
              sample_logger "part" "a,b" "," sample_state sample_state_pool_ok)
    as (_ & x & st1 & Hrun & Hw & _).
  exists x, st1. split; [exact Hrun|exact Hw].
Defined.

(** ** The package-level field helpers *)

Section PackageFieldFacts.
Context `{GoLib} `{PackageDecls}.

Lemma WithLines_loop_spec (envs : Z -> CallEnv) (logger : loc) (key : string)
    (lns : list string) :
  forall (index : Z) (entry : option loc) (st : State),
    pool_ok st logger ->
    match last_line index lns with
    | None => zlog.WithLines_loop envs logger key index lns entry st = Ok entry st
    | Some (i, ln) =>
        exists x st1,
          zlog.WithLines_loop envs logger key index lns entry st = Ok (Some x) st1 /\
          written st1 = written st /\
          eheap st1 !! x
          = Some (with_entry logger (logger_moduleName (lookup_logger st logger))
                    (CallWithField (key +:+ "-" +:+ fmt_d i) (VString ln)))
    end.
Proof.
  induction lns as [|ln lns IH]; intros index entry st Hpool;
    cbn [last_line zlog.WithLines_loop]; [reflexivity|].
  destruct (Z.leb_spec (len ln) 0) as [Hempty|Hfull].
  - specialize (IH (index + 1) entry st Hpool).
    destruct (last_line (index + 1) lns) as [[i ln']|]; exact IH.
  - destruct (run_with_spec (envs index) logger
                (CallWithField (key +:+ "-" +:+ fmt_d index) (VString ln)) st Hpool)
      as (x & st0 & Hrun & _ & Hx & _ & Hpool0 & Hconf & Hw & _).
    cbn [run_with] in Hrun.
    assert (Hname : logger_moduleName (lookup_logger st0 logger)
                    = logger_moduleName (lookup_logger st logger))
      by (unfold config in Hconf; congruence).
    unfold sbind at 1. rewrite Hrun.
    specialize (IH (index + 1) (Some x) st0 Hpool0).
    destruct (last_line (index + 1) lns) as [[i ln']|].
    + destruct IH as (y & st1 & Hloop & Hw1 & Hy). exists y, st1.
      split; [exact Hloop|]. split; [congruence|]. now rewrite <- Hname.
    + exists x, st0. split; [exact IH|]. split; [exact Hw|exact Hx].
Qed.

(** X15.  Unlike the method of [Logger], the package-level [WithMultiLines]
    keeps one line only: the entry it returns has a single field, the last
    non-empty line under its position; the entries of the lines before are
    dropped.  When the text has no non-empty line the result is nil.
    Nothing is written.  [WithLongString] does the same for its
    separator. *)
Theorem package_WithMultiLines_keeps_last_line (envs : Z -> CallEnv)
    (key longStr sep : string) (st : State) (Hstd : std_pool_ok st) :
  zlog.WithMultiLines envs key longStr st = zlog.WithLongString envs key longStr LF st /\
  match last_line 0 (strings_Split longStr sep) with
  | None =>
      exists st1,
        zlog.WithLongString envs key longStr sep st = Ok None st1 /\
        written st1 = written st
  | Some (i, ln) =>
      exists x st1,
        zlog.WithLongString envs key longStr sep st = Ok (Some x) st1 /\
        written st1 = written st /\
        entry_Data (lookup_entry st1 x) = {[ key +:+ "-" +:+ fmt_d i := VString ln ]} /\
        0 <= i /\ 0 < len ln
  end.
Proof.
  split; [reflexivity|].
  destruct (StandardLogger_pool st Hstd) as (l & st0 & Hrun & Hpool & Hw).
  pose proof (WithLines_loop_spec envs l key (strings_Split longStr sep) 0 None st0 Hpool)
    as Hloop.
  assert (Hcall : zlog.WithLongString envs key longStr sep st
                  = zlog.WithLines_loop envs l key 0 (strings_Split longStr sep) None st0)
    by (unfold zlog.WithLongString; unfold sbind at 1; now rewrite Hrun).
  assert (Hfound : forall lns index i ln,
            last_line index lns = Some (i, ln) -> index <= i /\ 0 < len ln).
  { induction lns as [|ln0 lns IHl]; intros index i ln; cbn [last_line]; [discriminate|].
    destruct (last_line (index + 1) lns) as [[i' ln']|] eqn:E.
    - intros [= -> ->]. apply IHl in E. lia.
    - destruct (Z.leb_spec (len ln0) 0); [discriminate|]. intros [= -> ->]. lia. }
  destruct (last_line 0 (strings_Split longStr sep)) as [[i ln]|] eqn:E.
  - destruct Hloop as (x & st1 & Hl & Hw1 & Hx). exists x, st1.
    split; [congruence|]. split; [congruence|].
    split; [unfold lookup_entry; rewrite Hx; reflexivity|].
    now apply (Hfound _ _ _ _ E).
  - exists st0. split; [congruence|exact Hw].
Qed.

End PackageFieldFacts.

Lemma package_WithMultiLines_keeps_last_line_witness :
  std_pool_ok initial_state /\
  exists x st1,
    @zlog.WithLongString sampleLib (fun _ => sample_env) "line" "only" ","
      initial_state = Ok (Some x) st1 /\
    entry_Data (lookup_entry st1 x) = {[ "line-0" := VString "only" ]}.
Proof.
  split; [exact I|].
  pose proof (@package_WithMultiLines_keeps_last_line sampleLib sampleDecls
                (fun _ => sample_env) "line" "only" "," initial_state I) as [_ Hlast].
  change (last_line 0 (@strings_Split sampleLib "only" ","))
    with (Some (0, "only")) in Hlast.
  destruct Hlast as (x & st1 & Hrun & _ & Hdata & _).
  exists x, st1. split; [exact Hrun|exact Hdata].
Defined.

(** ** [AddFields] *)

Lemma rem_even (n : nat) : (Go.rem (Z.of_nat n) 2 =? 0) = Nat.even n.
Proof.
  unfold Go.rem. rewrite Z.rem_mod_nonneg by lia.
  destruct (Nat.even n) eqn:E.
  - apply Nat.even_spec in E. destruct E as [k ->]. apply Z.eqb_eq.
    rewrite Nat2Z.inj_mul. change (Z.of_nat 2) with 2. rewrite Z.mul_comm.
    apply Z_mod_mult.
  - apply Z.eqb_neq. intros Hz.
    assert (Nat.even n = true); [|congruence].
    apply Nat.even_spec. exists (Z.to_nat (Z.of_nat n / 2)).
    pose proof (Z.div_mod (Z.of_nat n) 2). lia.
Qed.

Lemma AddFields_loop_spec (n : nat) :
  forall (args : list Value) (data : Fields),
    (length args <= n)%nat ->
    zlog.AddFields_loop args data
    = match string_pairs args with
      | Some kvs => Returned (fold_left (fun d kv => <[kv.1 := kv.2]> d) kvs data)
      | None => Panicked (RuntimeError "interface conversion: interface {} is not string")
      end.
Proof.
  induction n as [|n IH]; intros args data Hlen.
  - destruct args; [reflexivity|cbn in Hlen; lia].
  - destruct args as [|k [|v rest]]; [reflexivity..|].
    cbn [zlog.AddFields_loop string_pairs].
    destruct k as [|key| |]; try reflexivity.
    rewrite IH by (cbn in Hlen; lia).
    destruct (string_pairs rest) as [kvs|]; reflexivity.
Qed.

Lemma fold_insert_list_to_map (kvs : list (string * Value)) :
  forall data : Fields,
    fold_left (fun d kv => <[kv.1 := kv.2]> d) kvs data
    = list_to_map (reverse kvs) ∪ data.
Proof.
  induction kvs as [|[k v] kvs IH]; intros data; cbn [fold_left].
  - cbn. now rewrite (left_id_L ∅ (∪)).
  - rewrite IH, reverse_cons, list_to_map_app. cbn [list_to_map foldr fst snd].
    rewrite <- (assoc_L (∪)). f_equal.
    rewrite insert_union_singleton_l, insert_empty. reflexivity.
Qed.

Section AddFieldsFacts.
Context `{GoLib} `{PackageDecls}.

(** X16.  [AddFields] takes its arguments two by two as key and value, an odd
    list getting the empty string as its last value.  When every key is a
    string the entry returned holds each key with the value of its last
    occurrence; nothing is written.  When one is not, the type assertion
    panics before the standard logger is reached and the state is as it
    was.  Without arguments the entry has no field. *)
Theorem AddFields_pairs_or_panics (env : CallEnv) (args : list Value) (st : State)
    (Hstd : std_pool_ok st) :
  match string_pairs (padded args) with
  | Some kvs =>
      exists x st1,
        zlog.AddFields env args st = Ok x st1 /\
        written st1 = written st /\
        entry_Data (lookup_entry st1 x) = list_to_map (reverse kvs) /\
        entry_JsonRaw (lookup_entry st1 x) = None
  | None =>
      zlog.AddFields env args st
      = Unwind (RuntimeError "interface conversion: interface {} is not string") st
  end.
Proof.
  assert (Hwith : forall fields,
            exists x st1,
              WithFields env fields st = Ok x st1 /\ written st1 = written st /\
              entry_Data (lookup_entry st1 x) = fields /\
              entry_JsonRaw (lookup_entry st1 x) = None).
  { intros fields.
    destruct (StandardLogger_pool st Hstd) as (l & st0 & Hrun & Hpool & Hw).
    destruct (run_with_spec env l (CallWithFields fields) st0 Hpool)
      as (x & st1 & Hcall & _ & Hx & _ & _ & _ & Hw1 & _).
    exists x, st1. split.
    - unfold WithFields. unfold sbind at 1. rewrite Hrun. exact Hcall.
    - split; [congruence|]. unfold lookup_entry. rewrite Hx. now split. }
  unfold zlog.AddFields, padded.
  destruct args as [|a args].
  - cbn [length Nat.even string_pairs]. cbn. destruct (Hwith ∅) as (x & st1 & ? & ? & ? & ?).
    exists x, st1. now split_and!.
  - destruct (Z.leb_spec (Z.of_nat (length (a :: args))) 0) as [Hlen|_];
      [cbn [length] in Hlen; lia|].
    rewrite rem_even.
    set (args' := if negb (Nat.even (length (a :: args)))
                  then (a :: args) ++ [VString ""] else a :: args).
    assert (Hsame : (if Nat.even (length (a :: args)) then a :: args
                     else (a :: args) ++ [VString ""]) = args')
      by (unfold args'; now destruct (Nat.even (length (a :: args)))).
    rewrite Hsame.
    rewrite (AddFields_loop_spec (length args') args' ∅ (le_n _)).
    destruct (string_pairs args') as [kvs|].
    + unfold lift. run_step. rewrite fold_insert_list_to_map, (right_id_L ∅ (∪)).
      destruct (Hwith (list_to_map (reverse kvs))) as (x & st1 & ? & ? & ? & ?).
      exists x, st1. now split_and!.
    + reflexivity.
Qed.

End AddFieldsFacts.

Lemma AddFields_pairs_or_panics_witness :
  std_pool_ok initial_state /\
  zlog.AddFields sample_env [VString "user"; VString "ann"; VNil; VString "x"]
    initial_state
  = Unwind (RuntimeError "interface conversion: interface {} is not string")
           initial_state /\
  exists x st1,
    zlog.AddFields sample_env [VString "user"; VString "ann"; VString "id"] initial_state
    = Ok x st1 /\
    entry_Data (lookup_entry st1 x)
    = list_to_map [("id"%string, VString ""); ("user"%string, VString "ann")].
Proof.
  split; [exact I|]. split.
  - exact (@AddFields_pairs_or_panics sampleLib sampleDecls sample_env
             [VString "user"; VString "ann"; VNil; VString "x"] initial_state I).
  - destruct (@AddFields_pairs_or_panics sampleLib sampleDecls sample_env
                [VString "user"; VString "ann"; VString "id"] initial_state I)
      as (x & st1 & Hrun & _ & Hdata & _).
    exists x, st1. split; [exact Hrun|exact Hdata].
Defined.

(** ** The two level parsers *)

Lemma substring_append_prefix (s rest : string) :
  forall n, (n <= String.length s)%nat -> substring 0 n (s +:+ rest) = substring 0 n s.
Proof.
  induction s as [|ch s IH]; intros [|n] Hn; cbn [String.length] in Hn; try lia.
  - now destruct rest.
  - change (String ch s +:+ rest) with (String ch (s +:+ rest)). reflexivity.
  - change (String ch s +:+ rest) with (String ch (s +:+ rest)).
    cbn [substring]. now rewrite IH by lia.
Qed.

(** X17.  [PrefixStrCmp.Parse] reads the first seven bytes and nothing else:
    whatever follows them, the level is the same. *)
Theorem Parse_reads_seven_bytes (s rest : string) (Hlen : 7 <= len s) :
  PrefixStrCmp_Parse (s +:+ rest) = PrefixStrCmp_Parse s.
Proof.
  unfold PrefixStrCmp_Parse.
  assert (Hlen' : 7 <= len (s +:+ rest))
    by (unfold len in *; rewrite length_append; lia).
  rewrite !slice_in_range by lia.
  change (Z.to_nat 0) with 0%nat. change (Z.to_nat (7 - 0)) with 7%nat.
  rewrite substring_append_prefix by (unfold len in Hlen; lia). reflexivity.
Qed.

Lemma Parse_reads_seven_bytes_witness :
  7 <= len "[WARN] " /\
  PrefixStrCmp_Parse ("[WARN] " +:+ "disk almost full") = PrefixStrCmp_Parse "[WARN] ".
Proof.
  assert (Hlen : 7 <= len "[WARN] ") by (vm_compute; discriminate).
  split; [exact Hlen|]. exact (Parse_reads_seven_bytes "[WARN] " "disk almost full" Hlen).
Defined.

Lemma word_run_spec (s : string) :
  forall w tl,
    word_run s = (w, tl) ->
    s = w +:+ tl /\
    Forall (fun ch => word_byte ch = true) (list_ascii_of_string w) /\
    match tl with
    | String ch _ => word_byte ch = false
    | EmptyString => True
    end.
Proof.
  induction s as [|ch s IH]; intros w tl; cbn [word_run].
  - intros [= <- <-]. now split_and!.
  - destruct (word_byte ch) eqn:E.
    + destruct (word_run s) as [w' tl'] eqn:Hrun. intros [= <- <-].
      destruct (IH w' tl' eq_refl) as (-> & Hall & Htl).
      split_and!; [reflexivity| |exact Htl].
      cbn [list_ascii_of_string]. now constructor.
    + intros [= <- <-]. split_and!; [reflexivity|constructor|exact E].
Qed.

Lemma word_run_word (w tail : string) :
  Forall (fun ch => word_byte ch = true) (list_ascii_of_string w) ->
  word_run (w +:+ "]" +:+ tail) = (w, "]" +:+ tail).
Proof.
  induction w as [|ch w IH]; cbn [list_ascii_of_string]; intros Hall.
  - reflexivity.
  - inversion Hall as [|? ? Hch Hrest]; subst.
    change (String ch w +:+ "]" +:+ tail) with (String ch (w +:+ "]" +:+ tail)).
    cbn [word_run]. rewrite Hch, (IH Hrest). reflexivity.
Qed.

Lemma bracket_word_Find_spec (s : string) :
  match bracket_word_Find s with
  | Some m => exists w, m = "[" +:+ w +:+ "]" /\ bracketed s w
  | None => forall w, ~ bracketed s w
  end.
Proof.
  unfold bracket_word_Find.
  assert (Hno : forall w, bracketed s w ->
            exists tail, s = String "["%char (w +:+ "]" +:+ tail) /\
              word_run (w +:+ "]" +:+ tail) = (w, "]" +:+ tail) /\ w <> EmptyString).
  { intros w (tail & -> & Hne & Hall). exists tail.
    split; [reflexivity|]. split; [now apply word_run_word|exact Hne]. }
  destruct s as [|c s]; [intros w Hw; destruct (Hno w Hw) as (? & [=] & _)|].
  destruct (Ascii.eqb_spec c "["%char) as [->|Hc].
  2:{ assert (Hnone : forall w, ~ bracketed (String c s) w).
      { intros w Hw. destruct (Hno w Hw) as (? & [= -> _] & _). congruence. }
      destruct c as [[] [] [] [] [] [] [] []]; try exact Hnone. congruence. }
  destruct (word_run s) as [w tl] eqn:Hrun.
  destruct (word_run_spec s w tl Hrun) as (-> & Hall & Htl).
  assert (Hother : forall w', bracketed (String "[" (w +:+ tl)) w' ->
            w' = w /\ exists tail, tl = "]" +:+ tail).
  { intros w' Hw'. destruct (Hno w' Hw') as (tail & [= Heq] & Hrun' & _).
    rewrite <- Heq, Hrun in Hrun'. injection Hrun' as -> ->. eauto. }
  destruct w as [|ch w].
  - intros w' Hw'. destruct (Hno w' Hw') as (_ & _ & _ & Hne).
    destruct (Hother w' Hw') as [-> _]. congruence.
  - destruct tl as [|c tl].
    + intros w' Hw'. destruct (Hother w' Hw') as [_ (? & [=])].
    + destruct (Ascii.eqb_spec c "]"%char) as [->|Hc].
      * exists (String ch w). split; [reflexivity|]. exists tl.
        split; [reflexivity|]. split; [discriminate|exact Hall].
      * assert (Hnone : forall w', ~ bracketed (String "[" (String ch w +:+ String c tl)) w').
        { intros w' Hw'. destruct (Hother w' Hw') as [_ (? & [= -> _])]. congruence. }
        destruct c as [[] [] [] [] [] [] [] []]; try exact Hnone. congruence.
Qed.

Lemma substring_inner (w : string) :
  substring 1 (String.length w) ("[" +:+ w +:+ "]") = w.
Proof.
  change ("[" +:+ w +:+ "]") with (String "["%char (w +:+ "]")). cbn [substring].
  induction w as [|ch w IH]; [reflexivity|].
  change (String ch w +:+ "]") with (String ch (w +:+ "]")).
  cbn [String.length substring]. now rewrite IH.
Qed.

(** X18.  [RegexpParser.Parse] has no error path of its own.  Once
    [prefixRegex] has run, a string that starts with a non-empty word in
    brackets gives what [ParseLevel] makes of the word; any other string
    makes the slice of the empty match fail its bounds check, a panic.
    Before [prefixRegex] the expression is nil and every call panics. *)
Theorem RegexpParser_Parse_word_or_panic
    (ParseLevel : string -> Level * option error) (pr : RegexpParser) (s : string) :
  (forall w,
     bracketed s w ->
     RegexpParser_Parse ParseLevel (RegexpParser_prefixRegex pr) s
     = Returned (ParseLevel w)) /\
  ((forall w, ~ bracketed s w) ->
   RegexpParser_Parse ParseLevel (RegexpParser_prefixRegex pr) s
   = Panicked (RuntimeError "slice bounds out of range")) /\
  ((exists w, bracketed s w) \/ (forall w, ~ bracketed s w)) /\
  returned (RegexpParser_Parse ParseLevel {| parser_r := false |} s) = false.
Proof.
  pose proof (bracket_word_Find_spec s) as Hfind.
  unfold RegexpParser_Parse, RegexpParser_prefixRegex. cbn [parser_r negb].
  destruct (bracket_word_Find s) as [m|].
  - destruct Hfind as (w & -> & Hw).
    assert (Hrun : (inner <- slice (default EmptyString (Some ("[" +:+ w +:+ "]"))) 1
                               (len (default EmptyString (Some ("[" +:+ w +:+ "]"))) - 1) ;;
                    Returned (ParseLevel inner)) = Returned (ParseLevel w)).
    { cbn [default from_option id].
      assert (Hl : len ("[" +:+ w +:+ "]") = len w + 2)
        by (unfold len; rewrite !length_append; cbn [String.length]; lia).
      pose proof (len_nonneg w).
      rewrite slice_in_range by lia. rewrite Hl.
      replace (Z.to_nat (len w + 2 - 1 - 1)) with (String.length w) by (unfold len; lia).
      change (Z.to_nat 1) with 1%nat. now rewrite substring_inner. }
    split_and!.
    + intros w' Hw'. rewrite Hrun. do 2 f_equal.
      destruct Hw as (t1 & Hs1 & _ & Hall1), Hw' as (t2 & Hs2 & _ & Hall2).
      rewrite Hs1 in Hs2. injection Hs2 as Hs2.
      change (w +:+ "]" +:+ t1 = w' +:+ "]" +:+ t2) in Hs2.
      pose proof (word_run_word w t1 Hall1) as H1.
      rewrite Hs2, (word_run_word w' t2 Hall2) in H1. congruence.
    + intros Hnone. now destruct (Hnone w).
    + left. eauto.
    + reflexivity.
  - split_and!.
    + intros w Hw. now destruct (Hfind w).
    + intros _. reflexivity.
    + now right.
    + reflexivity.
Qed.

Lemma RegexpParser_Parse_word_or_panic_witness :
  bracketed "[INFO] service up" "INFO" /\
  RegexpParser_Parse (fun w => (if String.eqb w "INFO" then InfoLevel else DebugLevel, None))
    (RegexpParser_prefixRegex {| parser_r := false |}) "[INFO] service up"
  = Returned (InfoLevel, None) /\
  RegexpParser_Parse (fun w => (DebugLevel, None))
    (RegexpParser_prefixRegex {| parser_r := false |}) "service up"
  = Panicked (RuntimeError "slice bounds out of range").
Proof.
  assert (Hw : bracketed "[INFO] service up" "INFO").
  { exists " service up". split; [reflexivity|]. split; [discriminate|].
    cbn. repeat constructor. }
  split; [exact Hw|]. split.
  - exact (proj1 (RegexpParser_Parse_word_or_panic _ _ "[INFO] service up") "INFO" Hw).
  - apply (RegexpParser_Parse_word_or_panic (fun w => (DebugLevel, None))
             {| parser_r := false |} "service up").
    intros w (tail & Heq & _). discriminate Heq.
Defined.

(** ** Entries are recycled *)

Section RecycleFacts.
Context `{GoLib} `{PackageDecls}.





End RecycleFacts.


(** ** [PrettyJson] *)

Section PrettyJsonFacts.
Context `{GoLib} `{PackageDecls}.

(** X20.  [PrettyJson] always prints, whatever the threshold and whatever the
    bytes: it goes through [Println] of the standard logger, and bytes that
    are not JSON do not fail the call, they are logged as the message
    [JSON parse error: ...].  Valid JSON is logged indented, behind the
    six-space prefix. *)
Theorem PrettyJson_always_prints (env : CallEnv) (j : string) (st : State)
    (Hstd : std_pool_ok st) :
  exists l st1,
    StandardLogger st = Ok l st1 /\
    value_of (zlog.PrettyJson env j st) = Some tt /\
    written (state_of (zlog.PrettyJson env j st))
    = written st
      ++ [(std_Out st,
           record_bytes
             (record_of st1 l env (std_Level st)
                (fmt_Sprintln
                   [VString match json_Indent j "      " "  " with
                            | inl buf => "      " +:+ buf
                            | inr err => "JSON parse error: " +:+ err
                            end])))].
Proof.
  destruct (StandardLogger_pool st Hstd) as (l & st1 & Hrun & Hpool & Hw).
  destruct (StandardLogger_threshold st st1 l Hrun) as [Hlevel Hout].
  exists l, st1. split; [exact Hrun|].
  assert (Hcall : zlog.PrettyJson env j st
                  = run_print env l (CallPrintln [VString (prettyJSON j)]) st1)
    by (unfold zlog.PrettyJson; unfold sbind at 1; now rewrite Hrun).
  rewrite Hcall, run_print_emit.
  destruct (emit_spec env l 0 (logger_Level (lookup_logger st1 l))
              (print_message (CallPrintln [VString (prettyJSON j)])) st1 Hpool)
    as (st2 & -> & Hw2 & _).
  cbn [state_of value_of]. split; [reflexivity|].
  rewrite Hw2, Hw, Hout, Hlevel. cbn [print_message]. unfold prettyJSON.
  destruct (json_Indent j "      " "  "); reflexivity.
Qed.

End PrettyJsonFacts.

Lemma PrettyJson_always_prints_witness :
  std_pool_ok initial_state /\
  exists l st1,
    StandardLogger initial_state = Ok l st1 /\
    written (state_of (@zlog.PrettyJson sampleLib sampleDecls sample_env "{}" initial_state))
    = [(Stderr,
        record_bytes (@record_of sampleLib sampleDecls st1 l sample_env DebugLevel
                        ("      {}" +:+ LF)))].
Proof.
  split; [exact I|].
  destruct (@PrettyJson_always_prints sampleLib sampleDecls sample_env "{}"
              initial_state I) as (l & st1 & Hrun & _ & Hw).
  exists l, st1. split; [exact Hrun|exact Hw].
Defined.

(** ** The output only grows *)

Section OutputFacts.
Context `{GoLib} `{PackageDecls}.

Lemma run_call_written (logger : loc) (c : Call) (st : State) :
  pool_ok st logger ->
  exists recs,
    written (state_of (run_call logger c st)) = written st ++ recs /\
    (length recs <= if logs c then 1 else 0)%nat.
Proof.
  intros Hpool.
  assert (Hemit : forall env callDepth level msg (m : M unit),
            m st = emit env logger callDepth level msg st ->
            exists recs,
              written (state_of ((m ;;; ret (@None loc)) st)) = written st ++ recs /\
              (length recs <= 1)%nat).
  { intros env callDepth level msg m Hm. unfold sbind. rewrite Hm.
    destruct (emit_spec env logger callDepth level msg st Hpool) as (st1 & -> & Hw & _).
    run_step. rewrite Hw. eexists. split; [reflexivity|]. cbn. lia. }
  assert (Hset : forall f,
            (forall lg, logger_entryPool (f lg) = logger_entryPool lg) ->
            (forall lg, logger_moduleName (f lg) = logger_moduleName lg) ->
            exists recs,
              written (state_of ((update_logger logger f ;;; ret (@None loc)) st))
              = written st ++ recs /\ (length recs <= 0)%nat).
  { intros f Hp Hn. unfold sbind.
    destruct (update_logger_frame logger f st Hp Hn Hpool) as (st1 & -> & _ & Hw & _).
    run_step. exists []. rewrite Hw, app_nil_r. now split. }
  destruct c as [env c|env c|env c|env c|level|out|]; cbn [run_call logs].
  - destruct (level_ge (logger_Level (lookup_logger st logger)) (severity c)) eqn:Hgate.
    + apply (Hemit env 0 (severity c) (severity_message c)).
      now rewrite run_severity_gated, Hgate.
    + unfold sbind. rewrite run_severity_gated, Hgate. run_step.
      exists []. rewrite app_nil_r. split; [reflexivity|cbn; lia].
  - apply (Hemit env 0 (logger_Level (lookup_logger st logger)) (print_message c)).
    apply run_print_emit.
  - destruct (run_mark_as_emit env logger c st) as [callDepth Hm].
    apply (Hemit env callDepth (mark_level c) (mark_message c)). exact Hm.
  - unfold sbind.
    destruct (run_with_spec env logger c st Hpool)
      as (x & st1 & -> & _ & _ & _ & _ & _ & Hw & _).
    run_step. exists []. rewrite Hw, app_nil_r. now split.
  - apply Hset; reflexivity.
  - apply Hset; reflexivity.
  - apply Hset; reflexivity.
Qed.

(** X21.  The output is append-only.  Whatever calls are made on a logger,
    what was written before stays in place in front of what they add; each
    logging call adds at most one record, and the [With*] methods,
    [SetLevel], [SetOutput] and [SetNoLock] add none. *)
Theorem output_is_append_only (logger : loc) (cs : list Call) (st : State)
    (Hpool : pool_ok st logger) :
  exists recs,
    written (run_calls logger cs st) = written st ++ recs /\
    (length recs <= length (filter (fun c => logs c = true) cs))%nat.
Proof.
  revert st Hpool. induction cs as [|c cs IH]; intros st Hpool; cbn [run_calls].
  - exists []. rewrite app_nil_r. split; [reflexivity|cbn; lia].
  - destruct (run_call_written logger c st Hpool) as (r1 & Hw1 & Hl1).
    destruct (run_call_spec logger c st Hpool) as (Hpool1 & _).
    destruct (IH _ Hpool1) as (r2 & Hw2 & Hl2).
    exists (r1 ++ r2). split; [rewrite Hw2, Hw1; now rewrite app_assoc|].
    rewrite length_app, filter_cons.
    destruct (decide (logs c = true)) as [Hc|Hc].
    + rewrite Hc in Hl1. cbn [length]. lia.
    + destruct (logs c); [congruence|]. lia.
Qed.

End OutputFacts.

Lemma output_is_append_only_witness :
  pool_ok sample_state sample_logger /\
  exists recs,
    written (@run_calls sampleLib sampleDecls sample_logger sample_calls sample_state)
    = written sample_state ++ recs /\
    (length recs <= 1)%nat.
Proof.
  split; [exact sample_state_pool_ok|].
  exact (@output_is_append_only sampleLib sampleDecls sample_logger sample_calls
           sample_state sample_state_pool_ok).
Defined.

(** ** [formatShortFile] *)

Lemma get_slash_free (s : string) (n : nat) :
  slash_free s -> String.get n s <> Some "/"%char.
Proof.
  unfold slash_free. revert n.
  induction s as [|ch s IH]; intros n Hs; [now destruct n|].
  cbn [list_ascii_of_string] in Hs. inversion Hs as [|? ? Hch Hrest]; subst.
  destruct n as [|n]; cbn [String.get].
  - congruence.
  - now apply IH.
Qed.

Lemma get_append_right (s1 s2 : string) (n : nat) :
  String.get (String.length s1 + n) (s1 +:+ s2) = String.get n s2.
Proof.
  induction s1 as [|ch s1 IH]; [reflexivity|].
  change (String ch s1 +:+ s2) with (String ch (s1 +:+ s2)).
  cbn [String.length Nat.add String.get]. exact IH.
Qed.

Lemma substring_append_right (s1 s2 : string) :
  substring (String.length s1) (String.length s2) (s1 +:+ s2) = s2.
Proof.
  induction s1 as [|ch s1 IH].
  - change (EmptyString +:+ s2) with s2. cbn [String.length].
    induction s2 as [|c s2 IH2]; [reflexivity|]. cbn. now rewrite IH2.
  - change (String ch s1 +:+ s2) with (String ch (s1 +:+ s2)).
    cbn [String.length substring]. exact IH.
Qed.

Lemma short_from_no_slash (file : string) :
  forall i,
    (forall n, (1 <= n <= i)%nat -> String.get n file <> Some "/"%char) ->
    short_from file i = EmptyString.
Proof.
  induction i as [|i IH]; intros Hno; [reflexivity|].
  cbn [short_from].
  assert (Hi : String.get (S i) file <> Some "/"%char) by (apply Hno; lia).
  assert (Hrest : short_from file i = EmptyString) by (apply IH; intros n Hn; apply Hno; lia).
  destruct (String.get (S i) file) as [c|]; [|exact Hrest].
  destruct (Ascii.eqb_spec c "/"%char) as [->|Hc]; [congruence|].
  destruct c as [[] [] [] [] [] [] [] []]; try exact Hrest. congruence.
Qed.

(** X22.  [formatShortFile] keeps what follows the last slash of the path: for
    [dir/base] with a non-empty [dir] and no slash in [base] it prints
    [base:line].  The byte at index 0 is never examined, so a path whose
    only slash is the first byte, or one with no slash at all, loses its name
    and prints as [:line].  When the caller is unknown the result is
    [???:0]. *)
Theorem formatShortFile_keeps_base_name (dir base file : string) (line : Z) :
  (dir <> EmptyString -> slash_free base ->
   formatShortFile (dir +:+ "/" +:+ base, line, true)
   = base +:+ ":" +:+ fmt_d line +:+ repeat_string (3 - String.length (fmt_d line)) " ") /\
  (slash_free base ->
   formatShortFile (base, line, true) = formatShortFile ("/" +:+ base, line, true) /\
   formatShortFile (base, line, true)
   = ":" +:+ fmt_d line +:+ repeat_string (3 - String.length (fmt_d line)) " ") /\
  formatShortFile (file, line, false) = "???:0".
Proof.
  split_and!; [| |reflexivity].
  - intros Hdir Hbase. unfold formatShortFile. cbn [negb]. do 1 f_equal.
    assert (Hwalk : forall k,
              (k <= String.length base)%nat ->
              short_from (dir +:+ "/" +:+ base) (String.length dir + k) = base).
    { induction k as [|k IH]; intros Hk.
      - rewrite Nat.add_0_r. destruct (String.length dir) as [|d] eqn:Hd.
        + destruct dir; [congruence|discriminate Hd].
        + cbn [short_from]. rewrite <- Hd.
          replace (String.length dir) with (String.length dir + 0)%nat at 1 by lia.
          rewrite get_append_right. cbn [String.get String.append].
          change ("/" +:+ base) with (String "/"%char base).
          cbn [String.get].
          replace (String.length (dir +:+ String "/"%char base) - (String.length dir + 1))%nat
            with (String.length base)
            by (rewrite length_append; cbn [String.length]; lia).
          replace (dir +:+ String "/"%char base) with ((dir +:+ "/") +:+ base).
          2:{ clear. induction dir as [|c dir IH]; [reflexivity|].
              change (String c dir +:+ "/") with (String c (dir +:+ "/")).
              change (String c (dir +:+ "/") +:+ base)
                with (String c ((dir +:+ "/") +:+ base)).
              change (String c dir +:+ String "/"%char base)
                with (String c (dir +:+ String "/"%char base)).
              now rewrite IH. }
          replace (String.length dir + 1)%nat with (String.length (dir +:+ "/"))
            by (rewrite length_append; reflexivity).
          apply substring_append_right.
      - replace (String.length dir + S k)%nat with (S (String.length dir + k)) by lia.
        cbn [short_from]. rewrite IH by lia.
        replace (S (String.length dir + k)) with (String.length dir + S k)%nat by lia.
        rewrite get_append_right.
        change ("/" +:+ base) with (String "/"%char base). cbn [String.get].
        pose proof (get_slash_free base k Hbase) as Hk'.
        destruct (String.get k base) as [c|]; [|reflexivity].
        destruct (Ascii.eqb_spec c "/"%char) as [->|Hc]; [congruence|].
        destruct c as [[] [] [] [] [] [] [] []]; try reflexivity. congruence. }
    replace (String.length (dir +:+ "/" +:+ base) - 1)%nat
      with (String.length dir + String.length base)%nat
      by (rewrite !length_append; cbn [String.length]; lia).
    now apply Hwalk.
  - intros Hbase. unfold formatShortFile. cbn [negb].
    rewrite !short_from_no_slash; [split; reflexivity| |].
    + intros n Hn. change ("/" +:+ base) with (String "/"%char base).
      destruct n as [|n]; [lia|]. cbn [String.get]. now apply get_slash_free.
    + intros n _. now apply get_slash_free.
Qed.

Lemma formatShortFile_keeps_base_name_witness :
  formatShortFile ("/home/dev/zlog" +:+ "/" +:+ "basic.go", 42, true) = "basic.go:42 " /\
  formatShortFile ("basic.go", 42, true) = ":42 ".
Proof.
  assert (Hbase : slash_free "basic.go") by (unfold slash_free; cbn; repeat constructor; discriminate).
  destruct (formatShortFile_keeps_base_name "/home/dev/zlog" "basic.go" "" 42)
    as (Hfull & Hbare & _).
  split.
  - exact (Hfull ltac:(discriminate) Hbase).
  - exact (proj2 (Hbare Hbase)).
Defined.

(** ** Configuration of a logger *)

Section ConfigurationFacts.
Context `{GoLib} `{PackageDecls}.

(** X23.  The module path of a logger is fixed by [New]: [main] when no name
    is given, the names joined by [/] otherwise; and whatever calls are made
    on the logger afterwards, [Name] keeps returning it. *)
Theorem New_fixes_the_name (moduleNames : list string) (cs : list Call) (st : State) :
  exists l st1,
    New moduleNames st = Ok l st1 /\
    l ∈ loggers st1 /\
    value_of (Logger_Name l (run_calls l cs st1))
    = Some (match moduleNames with
            | [] => "main"
            | name :: names => fold_left (fun acc x => acc +:+ "/" +:+ x) names name
            end).
Proof.
  destruct (New_spec moduleNames st) as (l & st1 & Hnew & _ & Hlg & _ & _ & Hls & _).
  exists l, st1. split; [exact Hnew|]. split; [rewrite Hls; set_solver|].
  pose proof (New_pool_ok moduleNames st st1 l Hnew) as Hpool.
  destruct (collect_spec l cs st1 Hpool) as (_ & Hname & _).
  rewrite collect_final in Hname.
  unfold Logger_Name. cbn [value_of]. rewrite Hname, Hlg. cbn [logger_moduleName].
  destruct moduleNames as [|name names]; reflexivity.
Qed.

(** X24.  A change of configuration applies from the next call on: after
    [SetOutput] the next record goes to the new output and to no other, and
    after [SetLevel] a severity method writes exactly when its severity is
    at or below the new threshold, whatever the threshold was before. *)
Theorem configuration_applies_to_next_call (env : CallEnv) (logger : loc)
    (out : Writer) (level : Level) (p : PrintCall) (c : SeverityCall) (st : State)
    (Hpool : pool_ok st logger) :
  (exists bytes,
     written (run_calls logger [SetOutput out; Print env p] st)
     = written st ++ [(out, bytes)]) /\
  (written (run_calls logger [SetLevel level; Severity env c] st) <> written st
   <-> (severity c <= level)%N).
Proof.
  assert (Hset : forall f,
            (forall lg, logger_entryPool (f lg) = logger_entryPool lg) ->
            (forall lg, logger_moduleName (f lg) = logger_moduleName lg) ->
            exists st1,
              state_of ((update_logger logger f ;;; ret (@None loc)) st) = st1 /\
              written st1 = written st /\
              lookup_logger st1 logger = f (lookup_logger st logger) /\
              pool_ok st1 logger).
  { intros f Hp Hn. unfold sbind.
    destruct (update_logger_frame logger f st Hp Hn Hpool)
      as (st1 & -> & _ & Hw & Hlg & Hp1).
    run_step. eauto. }
  split.
  - cbn [run_calls run_call]. unfold Logger_SetOutput.
    destruct (Hset (with_Out out) ltac:(reflexivity) ltac:(reflexivity))
      as (st1 & -> & Hw & Hlg & Hp1).
    unfold sbind at 1. rewrite run_print_emit.
    destruct (emit_spec env logger 0 (logger_Level (lookup_logger st1 logger))
                (print_message p) st1 Hp1) as (st2 & -> & Hw2 & _).
    run_step. rewrite Hw2, Hw, Hlg. cbn [with_Out logger_Out]. eauto.
  - cbn [run_calls run_call]. unfold Logger_SetLevel.
    destruct (Hset (with_Level level) ltac:(reflexivity) ltac:(reflexivity))
      as (st1 & -> & Hw & Hlg & Hp1).
    unfold sbind at 1. rewrite run_severity_gated, Hlg. cbn [with_Level logger_Level].
    unfold level_ge. destruct (N.leb_spec (severity c) level) as [Hle|Hgt].
    + destruct (emit_spec env logger 0 (severity c) (severity_message c) st1 Hp1)
        as (st2 & -> & Hw2 & _).
      run_step. rewrite Hw2, Hw. split; [intros _; exact Hle|intros _; apply written_grows].
    + run_step. rewrite Hw. split; [intros Hne; now contradiction Hne|lia].
Qed.

End ConfigurationFacts.

Lemma configuration_applies_to_next_call_witness :
  pool_ok sample_state sample_logger /\
  (exists bytes,
     written (@run_calls sampleLib sampleDecls sample_logger
                [SetOutput (OtherWriter 1); Print sample_env (CallPrint [VString "moved"])]
                sample_state)
     = written sample_state ++ [(OtherWriter 1, bytes)]).
Proof.
  split; [exact sample_state_pool_ok|].
  exact (proj1 (@configuration_applies_to_next_call sampleLib sampleDecls sample_env
                  sample_logger (OtherWriter 1) ErrorLevel (CallPrint [VString "moved"])
                  (CallInfo []) sample_state sample_state_pool_ok)).
Defined.

(** ** The text formatter of text_formatter.go *)

Lemma needsQuoting_append (s1 s2 : string) :
  needsQuoting (s1 +:+ s2) = needsQuoting s1 || needsQuoting s2.
Proof.
  induction s1 as [|ch s1 IH]; [reflexivity|].
  change (String ch s1 +:+ s2) with (String ch (s1 +:+ s2)).
  cbn [needsQuoting]. destruct (quoting_free ch); cbn [negb orb]; [exact IH|reflexivity].
Qed.

Lemma string_append_assoc (a b c : string) : (a +:+ b) +:+ c = a +:+ b +:+ c.
Proof.
  induction a as [|ch a IH]; [reflexivity|].
  change (String ch a +:+ b) with (String ch (a +:+ b)).
  change (String ch (a +:+ b) +:+ c) with (String ch ((a +:+ b) +:+ c)).
  change (String ch a +:+ b +:+ c) with (String ch (a +:+ b +:+ c)).
  now rewrite IH.
Qed.

Section LegacyFacts.
Context `{GoLib} `{PackageDecls}.
Variable fmt_verb_q : Value -> string.

Lemma appendKeyValue_extends (b key : string) (value : Value) :
  exists t, Legacy.appendKeyValue fmt_verb_q b key value = b +:+ t.
Proof.
  unfold Legacy.appendKeyValue.
  destruct (0 <? len key);
    destruct value as [|v|e|id];
    try destruct (needsQuoting v); try destruct (needsQuoting e); cbn [negb];
    rewrite ?string_append_assoc; eexists; reflexivity.
Qed.

Lemma cut_value_spec (value : string) :
  exists shown,
    Legacy.cut_value value = Returned shown /\
    (len value <= 128 -> shown = value) /\
    (128 < len value -> shown = substring 0 128 value +:+ "..." /\ len shown = 131).
Proof.
  unfold Legacy.cut_value.
  destruct (Z.ltb_spec 128 (len value)) as [Hlong|Hshort].
  - rewrite slice_in_range by lia. cbn [bind].
    eexists. split; [reflexivity|]. split; [lia|]. intros _.
    split; [reflexivity|].
    unfold len in *. rewrite length_append, length_substring. cbn [String.length].
    change (Z.to_nat (128 - 0)) with 128%nat. lia.
  - eexists. split; [reflexivity|]. split; [reflexivity|lia].
Qed.

(** X25.  The [Format] of text_formatter.go cuts a long field value to a
    prefix: in both branches a value of more than 128 bytes is shown as its
    first 128 bytes and an ellipsis, 131 bytes, and a shorter one whole.  The
    uncoloured branch always returns, with a nil error, the buffer of the
    entry in front and a newline at the end.  The coloured branch slices
    the first four bytes off the upper-cased level name and returns exactly
    when that name has at least four bytes. *)
Theorem Legacy_Format_cuts_to_prefix (f : TextFormatter) (sinceStart : Z)
    (caller : string * Z * bool) (entry : FormatterInput) (data : Fields) (key : string) :
  (exists shown,
     Legacy.format_field data key
     = Returned (LF +:+ "              - " +:+ pad_right 8 key +:+ " = " +:+ shown) /\
     Legacy.printColored_field data key
     = Returned (LF +:+ "              " +:+ ESC +:+ "[" +:+ fmt_d gray +:+ "m- "
                 +:+ pad_right 8 key +:+ ESC +:+ "[0m = " +:+ shown) /\
     (len (fmt_plus_v (index_fields data key)) <= 128 ->
      shown = fmt_plus_v (index_fields data key)) /\
     (128 < len (fmt_plus_v (index_fields data key)) ->
      shown = substring 0 128 (fmt_plus_v (index_fields data key)) +:+ "..." /\
      len shown = 131)) /\
  (if (ForceColors f || isTerminal && negb (String.eqb GOOS "windows"))
      && negb (DisableColors f)
   then returned (Legacy.Format fmt_verb_q f sinceStart caller entry) = true
        <-> 4 <= len (strings_ToUpper (Level_String (GetLevel entry)))
   else exists body,
          Legacy.Format fmt_verb_q f sinceStart caller entry
          = Returned (default "" (GetBuffer entry) +:+ body +:+ LF, None)).
Proof.
  split.
  - destruct (cut_value_spec (fmt_plus_v (index_fields data key)))
      as (shown & Hcut & Hshort & Hlong).
    exists shown. unfold Legacy.format_field, Legacy.printColored_field.
    rewrite Hcut. cbn [bind]. now split_and!.
  - assert (Hfield : forall d k, exists piece, Legacy.format_field d k = Returned piece).
    { intros d k. unfold Legacy.format_field.
      destruct (cut_value_spec (fmt_plus_v (index_fields d k))) as (shown & -> & _).
      cbn [bind]. eauto. }
    assert (Hcfield : forall d k, exists piece,
               Legacy.printColored_field d k = Returned piece).
    { intros d k. unfold Legacy.printColored_field.
      destruct (cut_value_spec (fmt_plus_v (index_fields d k))) as (shown & -> & _).
      cbn [bind]. eauto. }
    unfold Legacy.Format, Legacy.printColored.
    set (keys := if negb (DisableSorting f) then _ else _).
    destruct (format_each_returns (Legacy.format_field (prefixFieldClashes (GetData entry)))
                keys (Hfield _)) as [plain ->].
    destruct (format_each_returns
                (Legacy.printColored_field (prefixFieldClashes (GetData entry)))
                keys (Hcfield _)) as [coloured ->].
    destruct ((ForceColors f || isTerminal && negb (GOOS =? "windows")%string)
              && negb (DisableColors f)).
    + unfold slice.
      pose proof (len_nonneg (strings_ToUpper (Level_String (GetLevel entry)))) as Hnn.
      destruct (Z.leb_spec 4 (len (strings_ToUpper (Level_String (GetLevel entry)))))
        as [Hfour|Hless]; cbn [Z.leb andb bind returned].
      * split; [intros _; exact Hfour|reflexivity].
      * split; [discriminate|lia].
    + cbn [bind]. set (b := default "" (GetBuffer entry)).
      change (match GetBuffer entry with Some b0 => b0 | None => "" end) with b.
      assert (Hhead : exists t,
                (let b1 := if negb (DisableTimestamp f)
                           then Legacy.appendKeyValue fmt_verb_q b "time"
                                  (VString (time_Format (GetTime entry)
                                     (if (TimestampFormat f =? "")%string
                                      then DefaultTimestampFormat
                                      else TimestampFormat f)))
                           else b in
                 let b2 := Legacy.appendKeyValue fmt_verb_q b1 ""
                             (VString (formatShortFile caller)) in
                 let b3 := Legacy.appendKeyValue fmt_verb_q b2 "level"
                             (VString (Level_String (GetLevel entry))) in
                 if negb (GetMessage entry =? "")%string
                 then Legacy.appendKeyValue fmt_verb_q b3 "msg" (VString (GetMessage entry))
                 else b3) = b +:+ t).
      { cbv zeta.
        assert (H1 : exists t1,
                  (if negb (DisableTimestamp f)
                   then Legacy.appendKeyValue fmt_verb_q b "time"
                          (VString (time_Format (GetTime entry)
                             (if (TimestampFormat f =? "")%string
                              then DefaultTimestampFormat else TimestampFormat f)))
                   else b) = b +:+ t1).
        { destruct (negb (DisableTimestamp f)).
          - destruct (appendKeyValue_extends b "time"
                        (VString (time_Format (GetTime entry)
                           (if (TimestampFormat f =? "")%string
                            then DefaultTimestampFormat else TimestampFormat f))))
              as [t ->]. eauto.
          - exists "". clear. induction b as [|c b IH]; [reflexivity|].
            change (String c b +:+ "") with (String c (b +:+ "")). now rewrite <- IH. }
        destruct H1 as [t1 ->].
        destruct (appendKeyValue_extends (b +:+ t1) "" (VString (formatShortFile caller)))
          as [t2 ->].
        destruct (appendKeyValue_extends ((b +:+ t1) +:+ t2) "level"
                    (VString (Level_String (GetLevel entry)))) as [t3 ->].
        destruct (negb (GetMessage entry =? "")%string).
        - destruct (appendKeyValue_extends (((b +:+ t1) +:+ t2) +:+ t3)
                      "msg" (VString (GetMessage entry))) as [t4 ->].
          rewrite !string_append_assoc. eauto.
        - rewrite !string_append_assoc. eauto. }
      cbv zeta in Hhead. destruct Hhead as [t ->].
      exists (t +:+ plain +:+ match GetJsonRaw entry with
                             | Some jsonRaw => LF +:+ Legacy.prettyJSON jsonRaw
                             | None => ""
                             end).
      now rewrite !string_append_assoc.
Qed.

End LegacyFacts.

(** X26.  In the uncoloured record of text_formatter.go the caller is always
    written in its quoted form: whatever [runtime.Caller] returns, the text
    of [formatShortFile] contains a colon (or question marks), which
    [needsQuoting] rejects, and the empty key puts no [key=] in front. *)
Theorem Legacy_caller_is_always_quoted `{GoLib} (fmt_verb_q : Value -> string)
    (caller : string * Z * bool) (b : string) :
  needsQuoting (formatShortFile caller) = true /\
  Legacy.appendKeyValue fmt_verb_q b "" (VString (formatShortFile caller))
  = (b +:+ fmt_verb_q (VString (formatShortFile caller))) +:+ " ".
Proof.
  assert (Hq : needsQuoting (formatShortFile caller) = true).
  { destruct caller as [[file line] ok]. unfold formatShortFile.
    destruct ok; cbn [negb]; [|reflexivity].
    rewrite needsQuoting_append.
    change (":" +:+ fmt_d line +:+ repeat_string (3 - String.length (fmt_d line)) " ")
      with (String ":"%char
              (fmt_d line +:+ repeat_string (3 - String.length (fmt_d line)) " ")).
    cbn [needsQuoting]. change (quoting_free ":"%char) with false. cbn [negb].
    apply orb_true_r. }
  split; [exact Hq|].
  unfold Legacy.appendKeyValue. change (0 <? len "") with false. cbv iota.
  rewrite Hq. reflexivity.
Qed.

(** ** [SetNoLock] *)

Section LockFacts.
Context `{GoLib} `{PackageDecls}.

Lemma run_call_keeps_lock_off (logger : loc) (c : Call) (st : State) :
  pool_ok st logger ->
  disabled (logger_mu (lookup_logger st logger)) = true ->
  disabled (logger_mu (lookup_logger (state_of (run_call logger c st)) logger)) = true.
Proof.
  intros Hpool Hoff.
  assert (Hemit : forall env callDepth level msg (m : M unit),
            m st = emit env logger callDepth level msg st ->
            disabled (logger_mu (lookup_logger
                        (state_of ((m ;;; ret (@None loc)) st)) logger)) = true).
  { intros env callDepth level msg m Hm. unfold sbind. rewrite Hm.
    destruct (emit_spec env logger callDepth level msg st Hpool)
      as (st1 & -> & _ & _ & Hconf & _).
    run_step. unfold config in Hconf. congruence. }
  assert (Hset : forall f,
            (forall lg, logger_entryPool (f lg) = logger_entryPool lg) ->
            (forall lg, logger_moduleName (f lg) = logger_moduleName lg) ->
            disabled (logger_mu (f (lookup_logger st logger))) = true ->
            disabled (logger_mu (lookup_logger
                        (state_of ((update_logger logger f ;;; ret (@None loc)) st))
                        logger)) = true).
  { intros f Hp Hn Hf. unfold sbind.
    destruct (update_logger_frame logger f st Hp Hn Hpool) as (st1 & -> & _ & _ & Hlg & _).
    run_step. now rewrite Hlg. }
  destruct c as [env c|env c|env c|env c|level|out|]; cbn [run_call].
  - destruct (level_ge (logger_Level (lookup_logger st logger)) (severity c)) eqn:Hgate.
    + apply (Hemit env 0 (severity c) (severity_message c)).
      now rewrite run_severity_gated, Hgate.
    + unfold sbind. rewrite run_severity_gated, Hgate. run_step. exact Hoff.
  - apply (Hemit env 0 (logger_Level (lookup_logger st logger)) (print_message c)).
    apply run_print_emit.
  - destruct (run_mark_as_emit env logger c st) as [callDepth Hm].
    apply (Hemit env callDepth (mark_level c) (mark_message c)). exact Hm.
  - unfold sbind.
    destruct (run_with_spec env logger c st Hpool)
      as (x & st1 & -> & _ & _ & _ & _ & Hconf & _).
    run_step. unfold config in Hconf. congruence.
  - apply Hset; [reflexivity..|exact Hoff].
  - apply Hset; [reflexivity..|exact Hoff].
  - apply Hset; reflexivity.
Qed.

(** X27.  [SetNoLock] is for good.  It turns the lock of the logger off and
    changes nothing else, neither output, threshold, formatter, name nor
    pool, and writes nothing; and no method of the logger turns the lock
    back on: after any further calls it is still off. *)
Theorem SetNoLock_is_permanent (logger : loc) (cs : list Call) (st : State)
    (Hpool : pool_ok st logger) :
  (exists st1,
     Logger_SetNoLock logger st = Ok tt st1 /\
     written st1 = written st /\ eheap st1 = eheap st /\
     lookup_logger st1 logger
     = with_mu {| disabled := true |} (lookup_logger st logger)) /\
  disabled (logger_mu (lookup_logger (run_calls logger (SetNoLock :: cs) st) logger))
  = true.
Proof.
  split.
  - destruct (update_logger_frame logger (with_mu {| disabled := true |}) st
                ltac:(reflexivity) ltac:(reflexivity) Hpool)
      as (st1 & Hrun & He & Hw & Hlg & _).
    exists st1. now split_and!.
  - assert (Hgen : forall cs st,
              pool_ok st logger ->
              disabled (logger_mu (lookup_logger st logger)) = true ->
              disabled (logger_mu (lookup_logger (run_calls logger cs st) logger)) = true).
    { clear. intros cs. induction cs as [|c cs IH]; intros st Hpool Hoff;
        cbn [run_calls]; [exact Hoff|].
      apply IH.
      - now apply run_call_spec.
      - now apply run_call_keeps_lock_off. }
    change (run_calls logger (SetNoLock :: cs) st)
      with (run_calls logger cs (state_of (run_call logger SetNoLock st))).
    apply Hgen.
    + now apply run_call_spec.
    + cbn [run_call]. unfold Logger_SetNoLock, sbind.
      destruct (update_logger_frame logger (with_mu {| disabled := true |}) st
                  ltac:(reflexivity) ltac:(reflexivity) Hpool)
        as (st1 & -> & _ & _ & Hlg & _).
      run_step. now rewrite Hlg.
Qed.

End LockFacts.

Lemma SetNoLock_is_permanent_witness :
  pool_ok sample_state sample_logger /\
  disabled (logger_mu (lookup_logger sample_state sample_logger)) = false /\
  disabled (logger_mu (lookup_logger
              (@run_calls sampleLib sampleDecls sample_logger (SetNoLock :: sample_calls)
                 sample_state) sample_logger)) = true.
Proof.
  split; [exact sample_state_pool_ok|]. split; [vm_compute; reflexivity|].
  exact (proj2 (@SetNoLock_is_permanent sampleLib sampleDecls sample_logger sample_calls
                  sample_state sample_state_pool_ok)).
Defined.
